(** * OxyGent: the Google Maps agent loop (mcp_servers/google_map_tool_async.py)

    A shallow embedding of the bounded-step agent of
    [google_map_tool_async.py]: the action vocabulary, the reply parser
    [_parse_json_output], the browser adapter [GoogleMapsBrowser], the
    dispatcher [GoogleMapsAgent.act], the loop [GoogleMapsAgent.run_task] and
    the tool entry point [run_google_maps_task_api].

    Python [str] values are modelled as [string]; the character classes used
    by the code ([\w], [\s], [str.isdigit], [str.strip], [str.lower]) are
    modelled on ASCII text, where they coincide with Python's Unicode-aware
    versions ([ascii_text] says that a text is in that range).  [int] is
    modelled with the limit CPython puts on the digits it converts
    ([int_max_str_digits]) and with the exceptions it raises.  Waiting
    ([asyncio.sleep]) and logging have no effect on the values computed and
    are left out. *)

From Stdlib Require Import String Ascii ZArith List Lia Bool.
From Stdlib Require Import DecimalString DecimalPos.
Import ListNotations.
Local Open Scope string_scope.
Set Warnings "-register-all".

(** ** Python strings *)

Module PyStr.

(** The double-quote character, written by code so that no literal of this
    file needs an escaped quote. *)
Definition dq : string := String (ascii_of_nat 34) "".

Definition code (c : ascii) : nat := nat_of_ascii c.

Definition between (lo hi : nat) (c : ascii) : bool :=
  (Nat.leb lo (code c) && Nat.leb (code c) hi)%bool.

(** [str.isspace] on ASCII: TAB, LF, VT, FF, CR, FS, GS, RS, US and space. *)
Definition is_space (c : ascii) : bool :=
  (between 9 13 c || between 28 32 c)%bool.

(** Whitespace of the JSON grammar ([json.decoder.WHITESPACE]). *)
Definition is_json_space (c : ascii) : bool :=
  (Nat.eqb (code c) 32 || Nat.eqb (code c) 9
   || Nat.eqb (code c) 10 || Nat.eqb (code c) 13)%bool.

Definition is_digit (c : ascii) : bool := between 48 57 c.
Definition is_upper (c : ascii) : bool := between 65 90 c.
Definition is_lower (c : ascii) : bool := between 97 122 c.

(** The regular-expression class [\w]. *)
Definition is_word (c : ascii) : bool :=
  (is_digit c || is_upper c || is_lower c || Nat.eqb (code c) 95)%bool.

Definition lower_char (c : ascii) : ascii :=
  if is_upper c then ascii_of_nat (code c + 32) else c.

(** [str.lower] *)
Fixpoint lower (s : string) : string :=
  match s with
  | EmptyString => EmptyString
  | String c r => String (lower_char c) (lower r)
  end.

Fixpoint all_chars (p : ascii -> bool) (s : string) : bool :=
  match s with
  | EmptyString => true
  | String c r => (p c && all_chars p r)%bool
  end.

(** [str.isdigit]: every character is a digit and there is at least one. *)
Definition isdigit (s : string) : bool :=
  match s with
  | EmptyString => false
  | _ => all_chars is_digit s
  end.

(** The longest prefix whose characters satisfy [p], and the rest: a greedy
    [[class]*] followed by something outside the class. *)
Fixpoint span (p : ascii -> bool) (s : string) : string * string :=
  match s with
  | EmptyString => (EmptyString, EmptyString)
  | String c r =>
      if p c then let (a, b) := span p r in (String c a, b)
      else (EmptyString, s)
  end.

Definition lstrip (s : string) : string := snd (span is_space s).

Fixpoint rstrip (s : string) : string :=
  match s with
  | EmptyString => EmptyString
  | String c r =>
      match rstrip r with
      | EmptyString => if is_space c then EmptyString else String c EmptyString
      | r' => String c r'
      end
  end.

(** [str.strip] *)
Definition strip (s : string) : string := rstrip (lstrip s).

(** [s.startswith(p)] *)
Fixpoint startswith (p s : string) : bool :=
  match p, s with
  | EmptyString, _ => true
  | String a p', String b s' => (Ascii.eqb a b && startswith p' s')%bool
  | String _ _, EmptyString => false
  end.

(** [sub in s] *)
Fixpoint contains (sub s : string) : bool :=
  (startswith sub s
   || match s with
      | EmptyString => false
      | String _ r => contains sub r
      end)%bool.

Fixpoint drop (n : nat) (s : string) : string :=
  match n, s with
  | O, _ => s
  | S n', String _ r => drop n' r
  | S _, EmptyString => EmptyString
  end.

(** [x in l] for a list of strings *)
Definition in_list (x : string) (l : list string) : bool :=
  existsb (String.eqb x) l.

(** [sep.join(l)] *)
Fixpoint join (sep : string) (l : list string) : string :=
  match l with
  | [] => ""
  | [x] => x
  | x :: r => x ++ sep ++ join sep r
  end.

Definition digit_val (c : ascii) : Z := Z.of_nat (code c) - 48.

Fixpoint digits_val (acc : Z) (s : string) : Z :=
  match s with
  | EmptyString => acc
  | String c r => digits_val (10 * acc + digit_val c) r
  end.

(** Digits of an integer literal as [int()] accepts them: groups of digits
    separated by single underscores. *)
Fixpoint int_body (acc : Z) (after_digit : bool) (s : string) : option Z :=
  match s with
  | EmptyString => if after_digit then Some acc else None
  | String c r =>
      if is_digit c then int_body (10 * acc + digit_val c) true r
      else if (Nat.eqb (code c) 95 && after_digit)%bool
           then match r with
                | String d _ => if is_digit d then int_body acc false r else None
                | EmptyString => None
                end
           else None
  end.

(** The whitespace that [int] skips around an ASCII numeral: TAB, LF, VT,
    FF, CR and space ([str.strip] also removes FS, GS, RS and US, which
    [int] refuses). *)
Definition is_c_space (c : ascii) : bool :=
  (between 9 13 c || Nat.eqb (code c) 32)%bool.

(** The number of digits of a text. *)
Fixpoint count_digits (s : string) : nat :=
  match s with
  | EmptyString => O
  | String c r => if is_digit c then S (count_digits r) else count_digits r
  end.

(** A text of ASCII characters only.  On such texts the classes above are
    those of Python's [str] methods and of [re]. *)
Definition ascii_text (s : string) : bool :=
  all_chars (fun c => Nat.ltb (code c) 128) s.

(** [str(n)] for an [int] *)
Definition str_of_int (n : Z) : string := NilZero.string_of_int (Z.to_int n).

Definition str_of_bool (b : bool) : string := if b then "True" else "False".

End PyStr.
Import PyStr.

(** ** Decoded JSON values and [json.loads]

    The values [json.loads] produces: [None], [bool], [int], [float], [str],
    [list] and [dict].  A [dict] is an association list in insertion order
    with distinct keys.  A [float] is kept as the literal it was read from.
    An integer literal is decoded whatever its length: the [ValueError] that
    [json.loads] raises on a literal of more digits than [int] converts is
    not modelled. *)

Module Json.

Inductive value : Type :=
| JNull
| JBool (b : bool)
| JInt (n : Z)
| JFloat (literal : string)
| JStr (s : string)
| JArr (l : list value)
| JObj (l : list (string * value)).

(** [d[k] = v] on a dict under construction: an existing key keeps its
    place and takes the new value. *)
Fixpoint dict_set (k : string) (v : value) (d : list (string * value))
  : list (string * value) :=
  match d with
  | [] => [(k, v)]
  | (k', v') :: r =>
      if String.eqb k k' then (k, v) :: r else (k', v') :: dict_set k v r
  end.

Fixpoint dict_lookup (k : string) (d : list (string * value)) : option value :=
  match d with
  | [] => None
  | (k', v) :: r => if String.eqb k k' then Some v else dict_lookup k r
  end.

Definition skip_ws (s : string) : string := snd (span is_json_space s).

Definition hex_val (c : ascii) : option N :=
  if is_digit c then Some (N.of_nat (code c - 48))
  else if between 97 102 c then Some (N.of_nat (code c - 87))
  else if between 65 70 c then Some (N.of_nat (code c - 55))
  else None.

(** Four hexadecimal digits after [\u]. *)
Definition hex4 (s : string) : option (N * string) :=
  match s with
  | String a (String b (String c (String d r))) =>
      match hex_val a, hex_val b, hex_val c, hex_val d with
      | Some x, Some y, Some z, Some w => Some (((x * 16 + y) * 16 + z) * 16 + w, r)%N
      | _, _, _, _ => None
      end
  | _ => None
  end.

Definition byte (n : N) : ascii := ascii_of_N n.

(** [chr(n)], as the bytes of its UTF-8 encoding. *)
Definition utf8 (n : N) : string :=
  if (n <? 128)%N then String (byte n) ""
  else if (n <? 2048)%N then
    String (byte (192 + n / 64)) (String (byte (128 + n mod 64)) "")
  else if (n <? 65536)%N then
    String (byte (224 + n / 4096))
      (String (byte (128 + (n / 64) mod 64)) (String (byte (128 + n mod 64)) ""))
  else
    String (byte (240 + n / 262144))
      (String (byte (128 + (n / 4096) mod 64))
         (String (byte (128 + (n / 64) mod 64)) (String (byte (128 + n mod 64)) ""))).

(** The body of a string literal, after its opening quote ([scanstring],
    strict): up to the closing quote, decoding the escapes; a control
    character or an unknown escape is an error. *)
Fixpoint scan_string (fuel : nat) (s : string) : option (string * string) :=
  match fuel with
  | O => None
  | S fuel' =>
      match s with
      | EmptyString => None
      | String c r =>
          if Nat.eqb (code c) 34 then Some ("", r)
          else if Nat.ltb (code c) 32 then None
          else if Nat.eqb (code c) 92 then
            match r with
            | EmptyString => None
            | String e r' =>
                let lit (x : nat) :=
                  option_map (fun p => (String (ascii_of_nat x) (fst p), snd p))
                             (scan_string fuel' r') in
                if Nat.eqb (code e) 34 then lit 34
                else if Nat.eqb (code e) 92 then lit 92
                else if Ascii.eqb e "/" then lit 47
                else if Ascii.eqb e "b" then lit 8
                else if Ascii.eqb e "f" then lit 12
                else if Ascii.eqb e "n" then lit 10
                else if Ascii.eqb e "r" then lit 13
                else if Ascii.eqb e "t" then lit 9
                else if Ascii.eqb e "u" then
                  match hex4 r' with
                  | None => None
                  | Some (u, r2) =>
                      let single :=
                        option_map (fun p => (utf8 u ++ fst p, snd p))
                                   (scan_string fuel' r2) in
                      if ((55296 <=? u) && (u <=? 56319))%N then
                        match r2 with
                        | String b1 (String b2 r3) =>
                            if (Nat.eqb (code b1) 92 && Ascii.eqb b2 "u")%bool then
                              match hex4 r3 with
                              | None => None
                              | Some (u2, r4) =>
                                  if ((56320 <=? u2) && (u2 <=? 57343))%N then
                                    option_map
                                      (fun p =>
                                         (utf8 (65536 + (u - 55296) * 1024 + (u2 - 56320))
                                            ++ fst p, snd p))
                                      (scan_string (pred fuel') r4)
                                  else single
                              end
                            else single
                        | _ => single
                        end
                      else single
                  end
                else None
            end
          else option_map (fun p => (String c (fst p), snd p)) (scan_string fuel' r)
      end
  end.

(** [NUMBER_RE], matched at the head of [s]: an optional minus sign, an
    integer part (a single 0, or a non-zero digit and more digits), an
    optional fraction (a dot and one or more digits) and an optional
    exponent (e or E, an optional sign, one or more digits).  Gives the
    literal, whether it is an integer, and the rest. *)
Definition scan_number (s : string) : option (string * bool * string) :=
  let (sign, r0) := match s with
                    | String "-" r => ("-", r)
                    | _ => ("", s)
                    end in
  let int_part :=
    match r0 with
    | String "0" r => Some ("0", r)
    | String c r => if is_digit c then
                      let (ds, r') := span is_digit r in Some (String c ds, r')
                    else None
    | EmptyString => None
    end in
  match int_part with
  | None => None
  | Some (ip, r1) =>
      let (frac, r2) :=
        match r1 with
        | String "." r =>
            let (ds, r') := span is_digit r in
            match ds with EmptyString => ("", r1) | _ => ("." ++ ds, r') end
        | _ => ("", r1)
        end in
      let (ex, r3) :=
        match r2 with
        | String e r =>
            if (Ascii.eqb e "e" || Ascii.eqb e "E")%bool then
              let (sg, ra) := match r with
                              | String "-" x => ("-", x)
                              | String "+" x => ("+", x)
                              | _ => ("", r)
                              end in
              let (ds, r') := span is_digit ra in
              match ds with
              | EmptyString => ("", r2)
              | _ => (String e (sg ++ ds), r')
              end
            else ("", r2)
        | EmptyString => ("", r2)
        end in
      Some (sign ++ ip ++ frac ++ ex,
            (String.eqb frac "" && String.eqb ex "")%bool, r3)
  end.

(** The [int] of an integer literal of the JSON grammar: an optional minus
    sign and digits. *)
Definition int_literal (lit : string) : option Z :=
  match lit with
  | String "-" r => option_map Z.opp (int_body 0 false r)
  | r => int_body 0 false r
  end.

Definition number_value (lit : string) (is_int : bool) : value :=
  if is_int then
    match int_literal lit with
    | Some n => JInt n
    | None => JFloat lit
    end
  else JFloat lit.

(** [scan_once]: one JSON value at the head of [s]; [None] is
    [JSONDecodeError]. *)
Fixpoint scan_once (fuel : nat) (s : string) : option (value * string) :=
  match fuel with
  | O => None
  | S fuel' =>
      match s with
      | EmptyString => None
      | String c r =>
          if Nat.eqb (code c) 34 then
            option_map (fun p => (JStr (fst p), snd p)) (scan_string (S (String.length r)) r)
          else if Ascii.eqb c "{" then
            let r1 := skip_ws r in
            match r1 with
            | String "}" r2 => Some (JObj [], r2)
            | _ => option_map (fun p => (JObj (fst p), snd p)) (scan_members fuel' [] r1)
            end
          else if Ascii.eqb c "[" then
            let r1 := skip_ws r in
            match r1 with
            | String "]" r2 => Some (JArr [], r2)
            | _ => option_map (fun p => (JArr (fst p), snd p)) (scan_elems fuel' r1)
            end
          else if startswith "null" s then Some (JNull, drop 4 s)
          else if startswith "true" s then Some (JBool true, drop 4 s)
          else if startswith "false" s then Some (JBool false, drop 5 s)
          else
            match scan_number s with
            | Some (lit, is_int, r') => Some (number_value lit is_int, r')
            | None =>
                if startswith "NaN" s then Some (JFloat "NaN", drop 3 s)
                else if startswith "Infinity" s then Some (JFloat "Infinity", drop 8 s)
                else if startswith "-Infinity" s then Some (JFloat "-Infinity", drop 9 s)
                else None
            end
      end
  end

(** [JSONObject], from the first property name on: [s] starts at the
    opening quote of a name. *)
with scan_members (fuel : nat) (acc : list (string * value)) (s : string)
  : option (list (string * value) * string) :=
  match fuel with
  | O => None
  | S fuel' =>
      match s with
      | String q r =>
          if Nat.eqb (code q) 34 then
            match scan_string (S (String.length r)) r with
            | None => None
            | Some (k, r1) =>
                match skip_ws r1 with
                | String ":" r2 =>
                    match scan_once fuel' (skip_ws r2) with
                    | None => None
                    | Some (v, r3) =>
                        let acc' := dict_set k v acc in
                        match skip_ws r3 with
                        | String "}" r4 => Some (acc', r4)
                        | String "," r4 => scan_members fuel' acc' (skip_ws r4)
                        | _ => None
                        end
                    end
                | _ => None
                end
            end
          else None
      | EmptyString => None
      end
  end

(** [JSONArray], from the first element on. *)
with scan_elems (fuel : nat) (s : string) : option (list value * string) :=
  match fuel with
  | O => None
  | S fuel' =>
      match scan_once fuel' s with
      | None => None
      | Some (v, r1) =>
          match skip_ws r1 with
          | String "]" r2 => Some ([v], r2)
          | String "," r2 =>
              option_map (fun p => (v :: fst p, snd p)) (scan_elems fuel' (skip_ws r2))
          | _ => None
          end
      end
  end.

(** [json.loads(s)]: one value with optional whitespace around it and
    nothing else; [None] is [JSONDecodeError]. *)
Definition loads (s : string) : option value :=
  match scan_once (2 * String.length s + 2) (skip_ws s) with
  | Some (v, r) =>
      match skip_ws r with
      | EmptyString => Some v
      | _ => None
      end
  | None => None
  end.

End Json.
Import Json.


(** ** The regular expressions of the module

    Each function below is the backtracking matcher of one pattern of the
    source, written out: greedy quantifiers try the longest run first, lazy
    ones the shortest, alternatives are tried in the order the [re] module
    tries them, and a search takes the leftmost start that matches. *)

Module Re.

Definition orelse {A : Type} (x y : option A) : option A :=
  match x with
  | Some _ => x
  | None => y
  end.

(** A lazy group followed by optional whitespace and [closer]: the shortest
    [g] such that what follows [g] is whitespace and then [closer]. *)
Fixpoint lazy_until (closer s : string) : option string :=
  if startswith closer (lstrip s) then Some ""
  else match s with
       | EmptyString => None
       | String c r => option_map (String c) (lazy_until closer r)
       end.

(** Greedy whitespace, then the lazy group and the closing delimiter; a
    shorter run of whitespace is tried when the longer one fails. *)
Fixpoint after_tag (closer s : string) : option string :=
  match s with
  | String c r =>
      if is_space c then orelse (after_tag closer r) (lazy_until closer s)
      else lazy_until closer s
  | EmptyString => lazy_until closer s
  end.

(** What follows an opening delimiter: the optional word json (tried
    first), whitespace, the group, whitespace, the closing delimiter. *)
Definition after_open (closer s : string) : option string :=
  orelse (if startswith "json" s then after_tag closer (drop 4 s) else None)
         (after_tag closer s).

Definition fence : string := "```".
Definition triple_quotes : string := dq ++ dq ++ dq.

Definition markdown_pattern : string := fence ++ "(?:json)?\s*(.*?)\s*" ++ fence.
Definition triple_quotes_pattern : string :=
  triple_quotes ++ "(?:json)?\s*(.*?)\s*" ++ triple_quotes.

(** [re.search], with [re.DOTALL], of [markdown_pattern] ([delim] is the
    fence) or [triple_quotes_pattern]: group 1 of the leftmost match. *)
Fixpoint search_delimited (delim s : string) : option string :=
  orelse (if startswith delim s
          then after_open delim (drop (String.length delim) s) else None)
         (match s with
          | EmptyString => None
          | String _ r => search_delimited delim r
          end).

Definition is_closer (c : ascii) : bool :=
  (Ascii.eqb c "}" || Ascii.eqb c "]")%bool.

Definition trailing_pattern : string := ",\s*[}\]][^\]}]*$".

(** [trailing_pattern] matched at the head of [s]: a comma, whitespace, a
    closing bracket or brace, and no other closing bracket or brace up to
    the end of the text. *)
Definition trailing_at (s : string) : bool :=
  match s with
  | String "," r =>
      match lstrip r with
      | String b r' => (is_closer b && all_chars (fun c => negb (is_closer c)) r')%bool
      | EmptyString => false
      end
  | _ => false
  end.

(** [re.sub] of that pattern by the empty string: the text is cut at the
    leftmost match, which runs to the end. *)
Fixpoint cut_trailing (s : string) : string :=
  if trailing_at s then ""
  else match s with
       | EmptyString => ""
       | String c r => String c (cut_trailing r)
       end.

Definition key_pattern : string := "(\w+):".

(** [re.sub] of [key_pattern] by the same word between double quotes and
    the colon, at every match from left to right. *)
Fixpoint quote_words (fuel : nat) (s : string) : string :=
  match fuel with
  | O => s
  | S fuel' =>
      match s with
      | EmptyString => ""
      | String c r =>
          match span is_word s with
          | (String _ _ as w, String ":" rest) =>
              dq ++ w ++ dq ++ ":" ++ quote_words fuel' rest
          | _ => String c (quote_words fuel' r)
          end
      end
  end.

Definition call_pattern : string := "(\w+)\(([^)]*)\)".

(** [re.match] of [call_pattern]: the name and the text between the
    parentheses. *)
Definition match_call (s : string) : option (string * string) :=
  match span is_word s with
  | (String _ _ as name, String "(" r) =>
      match span (fun c => negb (Ascii.eqb c ")")) r with
      | (args, String ")" _) => Some (name, args)
      | _ => None
      end
  | _ => None
  end.

Definition is_quote (c : ascii) : bool :=
  (Nat.eqb (code c) 39 || Nat.eqb (code c) 34)%bool.

(** [re.match] of the string pattern of [act]: a quote (single or double),
    a run of characters that are not quotes, and a quote (single or
    double); group 1 is the run. *)
Definition match_quoted (s : string) : option string :=
  match s with
  | String q r =>
      if is_quote q then
        match span (fun c => negb (is_quote c)) r with
        | (body, String _ _) => Some body
        | _ => None
        end
      else None
  | EmptyString => None
  end.

End Re.
Import Re.

(** ** [_parse_json_output] *)

Definition parse_error : value := JObj [("error", JStr "Failed to parse JSON output")].

Definition _parse_json_output (text : string) : value :=
  let text := match search_delimited fence text with
              | Some g => strip g
              | None => text
              end in
  let text := match search_delimited triple_quotes text with
              | Some g => strip g
              | None => text
              end in
  match loads text with
  | Some v => v
  | None =>
      let text := cut_trailing text in
      let text := quote_words (String.length text) text in
      match loads text with
      | Some v => v
      | None => parse_error
      end
  end.

(** ** Python values and their text *)

Module PyVal.

Definition bs : string := String (ascii_of_nat 92) "".

Definition hex_digit (n : nat) : ascii :=
  if Nat.ltb n 10 then ascii_of_nat (48 + n) else ascii_of_nat (87 + n).

Definition escape_char (quote : ascii) (c : ascii) : string :=
  if Nat.eqb (code c) 92 then bs ++ bs
  else if Ascii.eqb c quote then bs ++ String c ""
  else if Nat.eqb (code c) 9 then bs ++ "t"
  else if Nat.eqb (code c) 10 then bs ++ "n"
  else if Nat.eqb (code c) 13 then bs ++ "r"
  else if (Nat.ltb (code c) 32 || Nat.eqb (code c) 127)%bool then
    bs ++ "x" ++ String (hex_digit (code c / 16)) (String (hex_digit (code c mod 16)) "")
  else String c "".

Fixpoint escape (quote : ascii) (s : string) : string :=
  match s with
  | EmptyString => ""
  | String c r => escape_char quote c ++ escape quote r
  end.

(** [repr(s)] for a [str]: single quotes, unless the text has a single
    quote and no double quote. *)
Definition repr_str (s : string) : string :=
  let quote := if (contains "'" s && negb (contains dq s))%bool
               then ascii_of_nat 34 else ascii_of_nat 39 in
  String quote (escape quote s) ++ String quote "".

(** [repr(v)] for a decoded JSON value (a [float] is shown by its
    literal). *)
Fixpoint py_repr (v : value) : string :=
  match v with
  | JNull => "None"
  | JBool b => str_of_bool b
  | JInt n => str_of_int n
  | JFloat lit => lit
  | JStr s => repr_str s
  | JArr l => "[" ++ join ", " (map py_repr l) ++ "]"
  | JObj l =>
      "{" ++ join ", " (map (fun kv : string * value =>
                              let (k, x) := kv in
                              repr_str k ++ ": " ++ py_repr x) l) ++ "}"
  end.

(** [str(v)], which is what an f-string field shows. *)
Definition py_str (v : value) : string :=
  match v with
  | JStr s => s
  | _ => py_repr v
  end.

(** The argument of an action invocation once parsed: [int] or [str]
    ([None] is [option]'s [None]). *)
Inductive arg : Type :=
| AInt (n : Z)
| AStr (s : string).

Definition arg_str (a : arg) : string :=
  match a with
  | AInt n => str_of_int n
  | AStr s => s
  end.

(** [l[i]] with Python's negative indices; [None] is [IndexError]. *)
Definition py_index {A : Type} (l : list A) (i : Z) : option A :=
  if (0 <=? i)%Z then nth_error l (Z.to_nat i)
  else if (0 <=? Z.of_nat (List.length l) + i)%Z
       then nth_error l (Z.to_nat (Z.of_nat (List.length l) + i))
       else None.

End PyVal.
Import PyVal.

(** ** Results, exceptions and the program monad *)

(** An exception is represented by its message, [str(e)]. *)
Definition Exn : Type := string.

Inductive Res (A : Type) : Type :=
| Ok (a : A)
| Raise (e : Exn).
Arguments Ok {A} a.
Arguments Raise {A} e.

(** A computation over a state [S] that returns or raises; the state reached
    when an exception is raised is kept, as in Python. *)
Definition M (S A : Type) : Type := S -> Res A * S.

Definition ret {S A : Type} (a : A) : M S A := fun s => (Ok a, s).

Definition raise {S A : Type} (e : Exn) : M S A := fun s => (Raise e, s).

Definition bind {S A B : Type} (m : M S A) (k : A -> M S B) : M S B :=
  fun s => match m s with
           | (Ok a, s') => k a s'
           | (Raise e, s') => (Raise e, s')
           end.

(** [try: m except Exception as e: h e] *)
Definition try_except {S A : Type} (m : M S A) (h : Exn -> M S A) : M S A :=
  fun s => match m s with
           | (Ok a, s') => (Ok a, s')
           | (Raise e, s') => h e s'
           end.

(** A result computed without the state: it is returned, or raised. *)
Definition of_res {S A : Type} (r : Res A) : M S A := fun s => (r, s).

Definition get {S : Type} : M S S := fun s => (Ok s, s).
Definition put {S : Type} (s : S) : M S unit := fun _ => (Ok tt, s).
Definition modify {S : Type} (f : S -> S) : M S unit := fun s => (Ok tt, f s).

Declare Scope prog_scope.
Delimit Scope prog_scope with prog.
Notation "x <- m ;; k" := (bind m (fun x => k))
  (at level 61, m at next level, right associativity) : prog_scope.
Notation "' pat <- m ;; k" := (bind m (fun x => match x with pat => k end))
  (at level 61, pat pattern, m at next level, right associativity) : prog_scope.
Notation "m ;; k" := (bind m (fun _ => k))
  (at level 61, right associativity) : prog_scope.

(** ** The environment: Playwright, PIL and the chat model

    Everything the module calls but does not define is an operation on a
    world [W]: it returns or raises, and may change the world.  [Elem] is an
    element handle of the page, [Img] an image. *)

Record Message (Img : Type) : Type := mkMessage {
  role_name : string;
  content : string;
  image_list : list Img
}.
Arguments mkMessage {Img} _ _ _.
Arguments role_name {Img} _.
Arguments content {Img} _.
Arguments image_list {Img} _.

Class Env (W Elem Img : Type) : Type := {
  (* os and camel *)
  makedirs : string -> W -> Res unit * W;
  create_chat_agent : W -> Res unit * W;
  model_step : Message Img -> W -> Res string * W;
  (* playwright: browser life cycle *)
  playwright_start : W -> Res unit * W;
  chromium_launch : bool -> W -> Res unit * W;
  new_context : W -> Res unit * W;
  new_page : W -> Res unit * W;
  set_viewport_size : Z -> Z -> W -> Res unit * W;
  page_is_closed : W -> Res bool * W;
  page_close : W -> Res unit * W;
  context_close : W -> Res unit * W;
  browser_close : W -> Res unit * W;
  playwright_stop : W -> Res unit * W;
  (* playwright: the page *)
  wait_for_load_state : string -> Z -> W -> Res unit * W;
  page_goto : string -> Z -> W -> Res unit * W;
  page_go_back : W -> Res unit * W;
  page_get_url : W -> Res string * W;
  page_screenshot : W -> Res Img * W;
  evaluate_viewport : W -> Res (Z * Z) * W;
  mouse_click : Z -> Z -> W -> Res unit * W;
  keyboard_press : string -> W -> Res unit * W;
  keyboard_type : arg -> W -> Res unit * W;
  query_selector : string -> W -> Res (option Elem) * W;
  query_selector_all : string -> W -> Res (list Elem) * W;
  (* playwright: element handles and locators *)
  is_visible : Elem -> W -> Res bool * W;
  click : Elem -> Z -> W -> Res unit * W;
  scroll_into_view_if_needed : Elem -> W -> Res unit * W;
  get_attribute : Elem -> string -> W -> Res (option string) * W;
  locator_count : string -> W -> Res nat * W;
  locator_scroll_into_view_if_needed : string -> W -> Res unit * W;
  locator_click : string -> Z -> W -> Res unit * W;
  locator_first_click : string -> Z -> W -> Res unit * W;
  repr_elem : Elem -> string;
  (* PIL *)
  image_open : Img -> W -> Res Img * W
}.

(** ** The objects of the module *)

Inductive Handle : Type := handle.

(** [GoogleMapsBrowser] *)
Record Browser : Type := mkBrowser {
  headless : bool;
  _playwright : option Handle;
  _browser : option Handle;
  context : option Handle;
  page : option Handle;
  page_history : list string;
  cache_dir : string;
  visible_markers_count : Z;
  browser_start_url : option string;
  page_url : option string
}.

(** One entry of [GoogleMapsAgent.history]: the dict [step_info].  The key
    status is set on the stop path only; the keys success and result_info are
    set together, by one [update], on the path that calls [act]: [outcome]
    holds both. *)
Record StepInfo : Type := mkStepInfo {
  step : nat;
  observation : value;
  reasoning : value;
  action_code : string;
  status : option string;
  outcome : option (bool * string)
}.

(** [GoogleMapsAgent]; [start_url] is [None] until [run_task] sets the
    attribute. *)
Record Agent : Type := mkAgent {
  browser : Browser;
  history : list StepInfo;
  start_url : option string
}.

(** A marker as [enter_street_view] reports it. *)
Record Marker (Elem : Type) : Type := mkMarker {
  marker_index : nat;
  marker_title : string;
  marker_element : Elem
}.
Arguments mkMarker {Elem} _ _ _.
Arguments marker_index {Elem} _.
Arguments marker_title {Elem} _.
Arguments marker_element {Elem} _.

(** A value of type [Union[bool, list]]. *)
Inductive BoolOr (A : Type) : Type :=
| IsBool (b : bool)
| IsList (l : list A).
Arguments IsBool {A} b.
Arguments IsList {A} l.

Record State (W : Type) : Type := mkState {
  agent : Agent;
  world : W
}.
Arguments mkState {W} _ _.
Arguments agent {W} _.
Arguments world {W} _.

Definition with_browser (f : Browser -> Browser) (a : Agent) : Agent :=
  mkAgent (f (browser a)) (history a) (start_url a).

Definition set__playwright (h : option Handle) (b : Browser) : Browser :=
  mkBrowser (headless b) h (_browser b) (context b) (page b) (page_history b)
            (cache_dir b) (visible_markers_count b) (browser_start_url b) (page_url b).

Definition set__browser (h : option Handle) (b : Browser) : Browser :=
  mkBrowser (headless b) (_playwright b) h (context b) (page b) (page_history b)
            (cache_dir b) (visible_markers_count b) (browser_start_url b) (page_url b).

Definition set_context (h : option Handle) (b : Browser) : Browser :=
  mkBrowser (headless b) (_playwright b) (_browser b) h (page b) (page_history b)
            (cache_dir b) (visible_markers_count b) (browser_start_url b) (page_url b).

Definition set_page (h : option Handle) (b : Browser) : Browser :=
  mkBrowser (headless b) (_playwright b) (_browser b) (context b) h (page_history b)
            (cache_dir b) (visible_markers_count b) (browser_start_url b) (page_url b).

Definition visited (url : string) (b : Browser) : Browser :=
  mkBrowser (headless b) (_playwright b) (_browser b) (context b) (page b)
            (page_history b ++ [url])
            (cache_dir b) (visible_markers_count b) (browser_start_url b) (Some url).

Definition set_start_url (url : string) (a : Agent) : Agent :=
  mkAgent (browser a) (history a) (Some url).

Definition history_append (r : StepInfo) (a : Agent) : Agent :=
  mkAgent (browser a) (history a ++ [r]) (start_url a).

(** [GoogleMapsBrowser.__init__], but for [os.makedirs]. *)
Definition new_browser (headless : bool) (cache_dir : option string) : Browser :=
  mkBrowser headless None None None None []
            (match cache_dir with
             | Some d => if String.eqb d "" then "/tmp/google_maps_cache" else d
             | None => "/tmp/google_maps_cache"
             end)
            0 None None.

(** ** [GoogleMapsBrowser] *)

Section Program.

Context {W Elem Img : Type} {env : Env W Elem Img}.

Local Open Scope prog_scope.

Definition Prog (A : Type) : Type := M (State W) A.

(** An operation of the environment, run on the world of the state. *)
Definition ext {A : Type} (op : W -> Res A * W) : Prog A :=
  fun s => let (r, w) := op (world s) in (r, mkState (agent s) w).

Definition self_browser : Prog Browser :=
  fun s => (Ok (browser (agent s)), s).

Definition update_browser (f : Browser -> Browser) : Prog unit :=
  modify (fun s => mkState (with_browser f (agent s)) (world s)).

Definition update_agent (f : Agent -> Agent) : Prog unit :=
  modify (fun s => mkState (f (agent s)) (world s)).

(** [self.page] *)
Definition self_page : Prog (option Handle) :=
  b <- self_browser ;; ret (page b).

(** A method body guarded by [if not self.page: return default]. *)
Definition with_page {A : Type} (default : A) (body : Prog A) : Prog A :=
  p <- self_page ;;
  match p with
  | None => ret default
  | Some _ => body
  end.

(** A method body of the shape [try: body except Exception: return False]. *)
Definition or_false (body : Prog bool) : Prog bool :=
  try_except body (fun _ => ret false).

Definition init : Prog unit :=
  p <- self_page ;;
  (match p with
   | Some _ =>
       closed <- ext page_is_closed ;;
       if negb closed then ext page_close else ret tt
   | None => ret tt
   end) ;;
  ext playwright_start ;;
  update_browser (set__playwright (Some handle)) ;;
  b <- self_browser ;;
  ext (chromium_launch (headless b)) ;;
  update_browser (set__browser (Some handle)) ;;
  ext new_context ;;
  update_browser (set_context (Some handle)) ;;
  ext new_page ;;
  update_browser (set_page (Some handle)) ;;
  ext (set_viewport_size 1280 720).

Definition wait_for_load (timeout : Z) : Prog unit :=
  with_page tt
    (try_except
       (ext (wait_for_load_state "domcontentloaded" (timeout * 1000)) ;;
        ext (wait_for_load_state "networkidle" (timeout * 1000)))
       (fun _ => ret tt)).

Definition visit_page (url : string) : Prog unit :=
  with_page tt
    (ext (page_goto url 60000) ;;
     wait_for_load 5 ;;
     update_browser (visited url)).

Definition click_id (identifier : arg) : Prog bool :=
  with_page false
    (or_false
       match identifier with
       | AInt n =>
           elements <- ext (query_selector_all "*") ;;
           if (n <? Z.of_nat (List.length elements))%Z then
             match py_index elements n with
             | Some e =>
                 ext (scroll_into_view_if_needed e) ;;
                 ext (click e 3000) ;;
                 wait_for_load 5 ;;
                 ret true
             | None => raise "list index out of range"
             end
           else ret false
       | AStr id =>
           let locator := "#" ++ id in
           n <- ext (locator_count locator) ;;
           if Nat.ltb 0 n then
             ext (locator_scroll_into_view_if_needed locator) ;;
             ext (locator_first_click locator 3000) ;;
             wait_for_load 5 ;;
             ret true
           else ret false
       end).

Definition street_view_btns : list string :=
  [ "button[aria-label='Street View']";
    "button[aria-label='街景']";
    "button[aria-label='Street View and 360° photos']";
    "button[aria-label='街景和 360 度全景照']" ].

(** The loop over [street_view_btns]: the value of [found] when it ends. *)
Fixpoint click_first_visible (selectors : list string) : Prog bool :=
  match selectors with
  | [] => ret false
  | btn_selector :: rest =>
      btn <- ext (query_selector btn_selector) ;;
      match btn with
      | Some b =>
          v <- ext (is_visible b) ;;
          if v then
            ext (click b 5000) ;;
            wait_for_load 5 ;;
            ret true
          else click_first_visible rest
      | None => click_first_visible rest
      end
  end.

(** The loop over [enumerate(markers)]. *)
Fixpoint visible_markers_info (idx : nat) (markers : list Elem)
  : Prog (list (Marker Elem)) :=
  match markers with
  | [] => ret []
  | marker :: rest =>
      v <- ext (is_visible marker) ;;
      if v then
        label <- ext (get_attribute marker "aria-label") ;;
        let title := match label with
                     | Some (String _ _ as t) => t
                     | _ => "Marker " ++ str_of_int (Z.of_nat idx)
                     end in
        more <- visible_markers_info (S idx) rest ;;
        ret (mkMarker idx title marker :: more)
      else visible_markers_info (S idx) rest
  end.

Definition enter_street_view : Prog (BoolOr (Marker Elem)) :=
  with_page (IsBool false)
    (try_except
       (found <- click_first_visible street_view_btns ;;
        if found then
          ext (locator_click "button[class='yra0jd Hk4XGb']" 5000) ;;
          ret (IsBool true)
        else
          markers <- ext (query_selector_all ".hfpxzc") ;;
          markers_info <- visible_markers_info 0 markers ;;
          ret (IsList markers_info))
       (fun _ => ret (IsBool false))).

(** [[m for m in markers if await m.is_visible()]] *)
Fixpoint filter_visible (markers : list Elem) : Prog (list Elem) :=
  match markers with
  | [] => ret []
  | m :: rest =>
      v <- ext (is_visible m) ;;
      more <- filter_visible rest ;;
      ret (if v then m :: more else more)
  end.

Definition click_marker (index : Z) : Prog bool :=
  with_page false
    (or_false
       (markers <- ext (query_selector_all ".hfpxzc") ;;
        visible_markers <- filter_visible markers ;;
        if negb ((0 <=? index)%Z && (index <? Z.of_nat (List.length visible_markers))%Z)
        then ret false
        else
          match py_index visible_markers index with
          | Some m =>
              ext (scroll_into_view_if_needed m) ;;
              ext (click m 5000) ;;
              wait_for_load 5 ;;
              r <- enter_street_view ;;
              ret (match r with
                   | IsBool true => true
                   | _ => false
                   end)
          | None => raise "list index out of range"
          end)).

Definition street_view_move_forward : Prog bool :=
  with_page false
    (or_false
       ('(width, height) <- ext evaluate_viewport ;;
        let center_x := (width / 2)%Z in
        let center_y := (height / 2)%Z in
        ext (mouse_click center_x center_y) ;;
        ret true)).

Definition street_view_move_backward : Prog bool :=
  with_page false
    (or_false (ext (keyboard_press "ArrowDown") ;; ret true)).

Definition counterclockwise_selector : string := "button[aria-label='逆时针旋转视图']".
Definition clockwise_selector : string := "button[aria-label='顺时针旋转视图']".

Definition street_view_turn_left : Prog bool :=
  with_page false
    (or_false
       (counterclockwise_btn <- ext (query_selector counterclockwise_selector) ;;
        match counterclockwise_btn with
        | Some b =>
            v <- ext (is_visible b) ;;
            if v then ext (click b 3000) ;; ret true
            else ret false
        | None => ret false
        end)).

Definition street_view_turn_right : Prog bool :=
  with_page false
    (or_false
       (clockwise_btn <- ext (query_selector clockwise_selector) ;;
        match clockwise_btn with
        | Some b =>
            v <- ext (is_visible b) ;;
            if v then ext (click b 3000) ;; ret true
            else ret false
        | None => ret false
        end)).

(** The loop over [date_buttons]. *)
Fixpoint aria_labels_of (buttons : list Elem) : Prog (list string) :=
  match buttons with
  | [] => ret []
  | button :: rest =>
      aria_label <- ext (get_attribute button "aria-label") ;;
      more <- aria_labels_of rest ;;
      ret (match aria_label with
           | Some (String _ _ as l) => l :: more
           | _ => more
           end)
  end.

Definition date_button_selector : string := "button[class='aLPB6c kaqDpe']".

Definition show_historical_dates : Prog (BoolOr string) :=
  with_page (IsBool false)
    (try_except
       (first <- ext (query_selector "button.LQDejd") ;;
        date_button <- match first with
                       | Some _ => ret first
                       | None => ext (query_selector "text='查看更多日期'")
                       end ;;
        match date_button with
        | Some b =>
            v <- ext (is_visible b) ;;
            if v then
              ext (click b 5000) ;;
              date_buttons <- ext (query_selector_all date_button_selector) ;;
              aria_labels <- aria_labels_of date_buttons ;;
              ret (IsList aria_labels)
            else ret (IsBool false)
        | None => ret (IsBool false)
        end)
       (fun _ => ret (IsBool false))).

Definition select_historical_date (date_str : arg) : Prog bool :=
  with_page false
    (or_false
       (panel <- ext (query_selector date_button_selector) ;;
        (match panel with
         | None => _ <- show_historical_dates ;; ret tt
         | Some _ => ret tt
         end) ;;
        first <- ext (query_selector ("button[aria-label='" ++ arg_str date_str ++ "']")) ;;
        date_button <- match first with
                       | Some _ => ret first
                       | None => ext (query_selector
                                        (":text-matches('^" ++ arg_str date_str ++ "', 'i')"))
                       end ;;
        match date_button with
        | Some b =>
            v <- ext (is_visible b) ;;
            if v then
              ext (scroll_into_view_if_needed b) ;;
              ext (click b 5000) ;;
              wait_for_load 5 ;;
              ret true
            else ret false
        | None => ret false
        end)).

Definition flip_view : Prog bool :=
  with_page false
    (or_false
       (success1 <- street_view_turn_right ;;
        success2 <- street_view_turn_right ;;
        ret (success1 && success2)%bool)).

Definition move_left : Prog bool :=
  with_page false
    (or_false
       (turned <- street_view_turn_left ;;
        if negb turned then ret false
        else
          moved <- street_view_move_forward ;;
          if negb moved then ret false
          else street_view_turn_right)).

Definition move_right : Prog bool :=
  with_page false
    (or_false
       (turned <- street_view_turn_right ;;
        if negb turned then ret false
        else
          moved <- street_view_move_forward ;;
          if negb moved then ret false
          else street_view_turn_left)).

Definition scroll_up : Prog bool :=
  with_page false (or_false (ext (keyboard_press "PageUp") ;; ret true)).

Definition scroll_down : Prog bool :=
  with_page false (or_false (ext (keyboard_press "PageDown") ;; ret true)).

(** [GoogleMapsBrowser.back] *)
Definition back : Prog bool :=
  with_page false (or_false (ext page_go_back ;; wait_for_load 5 ;; ret true)).

Definition stop : Prog bool := ret true.

Definition get_url : Prog string :=
  p <- self_page ;;
  match p with
  | Some _ => ext page_get_url
  | None => ret ""
  end.

Definition find_text_on_page (search_text : arg) : Prog bool :=
  with_page false
    (or_false
       (ext (keyboard_press "Control+F") ;;
        ext (keyboard_type search_text) ;;
        ret true)).

Definition click_blank_area : Prog bool :=
  with_page false (or_false (ext (mouse_click 5 5) ;; ret true)).

(** [GoogleMapsBrowser.close] *)
Definition close : Prog unit :=
  try_except
    (b <- self_browser ;;
     (match page b with
      | Some _ =>
          closed <- ext page_is_closed ;;
          if negb closed then ext page_close else ret tt
      | None => ret tt
      end) ;;
     (match context b with
      | Some _ => ext context_close
      | None => ret tt
      end) ;;
     (match _browser b with
      | Some _ => ext browser_close
      | None => ret tt
      end) ;;
     (match _playwright b with
      | Some _ => ext playwright_stop
      | None => ret tt
      end))
    (fun _ => ret tt).

End Program.

(** ** The prompts *)

Definition GOOGLE_MAPS_ACTIONS_PROMPT : string := "
1. `click_id(identifier: Union[str, int])`: Click an element with the given ID.
2. `enter_street_view()`: Enter street view mode at the current location. Returns content of visible markers if applicable.
3. `street_view_move_forward()`: Move forward in street view by clicking on the center.
4. `street_view_move_backward()`: Move backward in street view by pressing down arrow key.
5. `street_view_turn_left()`: Turn left in street view (counterclockwise rotation).
6. `street_view_turn_right()`: Turn right in street view (clockwise rotation).
7. `show_historical_dates()`: Show the historical dates for the current street view location.
8. `select_historical_date(date: str)`: Select a specific historical date to view. e.g. July 2010
11. `back()`: Navigate back to the previous page.
12. `stop()`: Stop the action process.
13. `get_url()`: Get the current URL.
14. `find_text_on_page(search_text: str)`: Find text on the page.
16. `click_blank_area()`: Click a blank area to unfocus.
17. `click_marker(index: int)`: After enter_street_view, Click on a map marker by its visible index.
19. `flip_view()`: Flip street view perspective 180 degrees (executes two consecutive rotations)
20. `move_left()`: Move left by temporarily rotating CCW 90°, advancing, then restoring direction
21. `move_right()`: Move right by temporarily rotating CW 90°, advancing, then restoring direction
".

(** The f-string of [observe]. *)
Definition observe_prompt (task_prompt history_text : string) : string :=
  "You are a specialized Google Maps agent. Need to solve task. Your task is: "
    ++ task_prompt
    ++ "

Available actions:
"
    ++ GOOGLE_MAPS_ACTIONS_PROMPT
    ++ "

Action history:
"
    ++ history_text
    ++ "

Based on the current state of Google Maps, decide the next action to take.

IMPORTANT OPERATION SEQUENCE:
1. ACCESS STREET VIEW:
    ◦ Use `enter_street_view()`
    ◦ If multiple markers:
        a) Choose highest-match marker via `click_marker(index)`
        b) Upon entry: STATICALLY validate target
        c) IF TARGET MISMATCH: 
            ▪︎ IMMEDIATELY execute `back()` ！！！
            ▪︎ Select next marker via `click_marker(next_index)`
        d) ONLY ON MATCH: Proceed to step 2

2. VIEW LOCKING PHASE (ALL ROTATIONS MUST COMPLETE HERE):
   • MANDATORY ORIENTATION SCAN:
        ▪ Full panorama scan: `street_view_turn_left()×4 → street_view_turn_right()×4`
        ▪ Vertical check: `flip_view()×2`
        ▪ Target must occupy center 50% of viewport
   • DISTANCE LOCK (PREPARE FOR DATE SEARCH):
        ▪ Adjust to optimal distance: `move_forward()`/`move_backward()` 
        ▪ Final horizontal centering: `move_left()`/`move_right()`
        ▪ ACTIVATE VIEW LOCK: No more rotations/flips after this point

3. HISTORICAL DATE MATCHING (CRITICAL PHASE):
   • INIT CHECK: `show_historical_dates()`
   • DATE CALIBRATION LOOP (if date mismatch):
        ▪ Execute PRECISION MOVEMENT:
            move_left(), move_forward() or move_right()
        ▪ RECHECK dates after EACH move sequence
        ▪ If date found mid-sequence: BREAK loop immediately
   • ON DATE MATCH:
        ▪ Verify target remains centered/large
        ▪ THEN `select_historical_date(exact_date)`

4. FINAL VALIDATION:
   ▪︎ Confirm date EXACTLY matches requirement
   ▪︎ Ensure target fills >50% viewport

DATE MATCH PRIORITY RULES:
🔷 DATE ACCURACY OVER MOVEMENT: 
    • If date matches but view imperfect → STILL VALID
    • If date mismatch → CONTINUE calibration loop 
🔷 MOVEMENT CONSTRAINTS DURING DATE SEARCH:
    • MAX 2 rotations per rescan
    • NO view flipping during date calibration

TERMINATION CONDITIONS:
✅ SUCCESS: {" ++ dq ++ "action_code" ++ dq ++ ": " ++ dq ++ "final_answer" ++ dq ++ ", " ++ dq ++ "answer" ++ dq ++ ": " ++ dq ++ dq ++ "}
❌ FAILURE: Only if ALL markers exhausted AND date unavailable


OUTPUT MECHANISM: {" ++ dq ++ "observation" ++ dq ++ ": " ++ dq ++ "..." ++ dq ++ ", " ++ dq ++ "reasoning" ++ dq ++ ": " ++ dq ++ "..." ++ dq ++ ", " ++ dq ++ "action_code" ++ dq ++ ": " ++ dq ++ "func" ++ dq ++ "}
Examples:
1. {" ++ dq ++ "observation" ++ dq ++ ": " ++ dq ++ "Marker2: Correct building" ++ dq ++ ", " ++ dq ++ "reasoning" ++ dq ++ ": " ++ dq ++ "Init rotation scan to establish baseline" ++ dq ++ ", " ++ dq ++ "action_code" ++ dq ++ ": " ++ dq ++ "street_view_turn_left()" ++ dq ++ "}
2. {" ++ dq ++ "observation" ++ dq ++ ": " ++ dq ++ "2024-10-15 available, need 2025-07-22" ++ dq ++ ", " ++ dq ++ "reasoning" ++ dq ++ ": " ++ dq ++ "Date mismatch! Begin calibration ()" ++ dq ++ ", " ++ dq ++ "action_code" ++ dq ++ ": " ++ dq ++ "move_forward()" ++ dq ++ "}
3. {" ++ dq ++ "observation" ++ dq ++ ": " ++ dq ++ "Found 2025-07-22 but building clipped" ++ dq ++ ", " ++ dq ++ "reasoning" ++ dq ++ ": " ++ dq ++ "DATE MATCHED. Final distance polish" ++ dq ++ ", " ++ dq ++ "action_code" ++ dq ++ ": " ++ dq ++ "move_backward()" ++ dq ++ "}
4. {" ++ dq ++ "observation" ++ dq ++ ": " ++ dq ++ "Exact date and optimal view confirmed" ++ dq ++ ", " ++ dq ++ "action_code" ++ dq ++ ": " ++ dq ++ "final_answer" ++ dq ++ ", " ++ dq ++ "answer" ++ dq ++ ": " ++ dq ++ "Date:2025-07-22|Result: response" ++ dq ++ "}
".

(** The f-string of [_generate_final_answer]. *)
Definition final_answer_prompt (task_prompt history_text : string) : string :=
  "
        You have completed the Google Maps task: "
    ++ task_prompt
    ++ "

        Action history:
        "
    ++ history_text
    ++ "

        Based on this history, provide the final answer to the task.

        Important:
        - If the task requires a specific date, include that date in the answer
        - If the task requires geographic information, include specific details
        - Final answer should be concise and directly answer the user's question
        ".

(** ** The action vocabulary and the parsing of an action invocation *)

Definition GOOGLE_MAPS_ACTIONS : list string :=
  [ "click_id";
    "enter_street_view";
    "street_view_move_forward";
    "street_view_move_backward";
    "street_view_turn_left";
    "street_view_turn_right";
    "show_historical_dates";
    "select_historical_date";
    "back";
    "stop";
    "find_text_on_page";
    "click_blank_area";
    "click_marker";
    "flip_view";
    "move_left";
    "move_right" ].

(** The words [act] and [run_task] take for a stop. *)
Definition stop_words : list string := ["stop"; "done"; "exit"].

(** The number of digits [int] converts at most
    ([sys.get_int_max_str_digits()], as CPython sets it from version 3.11
    on). *)
Definition int_max_str_digits : Z := 4300.

(** The messages of the two [ValueError]s of [int]. *)
Definition invalid_literal (s : string) : Exn :=
  "invalid literal for int() with base 10: " ++ repr_str s.

Definition int_limit_error (digits : nat) : Exn :=
  "Exceeds the limit (4300 digits) for integer string conversion: value has "
    ++ str_of_int (Z.of_nat digits)
    ++ " digits; use sys.set_int_max_str_digits() to increase the limit".

(** The sign of a numeral, and what follows the sign. *)
Definition split_sign (s : string) : bool * string :=
  match s with
  | String "-" r => (true, r)
  | String "+" r => (false, r)
  | r => (false, r)
  end.

(** [int(s)] for a [str] of ASCII characters, as CPython reads it:
    whitespace, a sign, a run of digits and underscores, whitespace.  A run
    that is not a numeral is an invalid literal; a numeral of too many digits
    (leading zeros count, underscores do not) exceeds the limit, whatever
    follows it; anything but whitespace after the numeral is an invalid
    literal. *)
Definition int_of_str (s : string) : Res Z :=
  let body := snd (span is_c_space s) in
  let (negative, body) := split_sign body in
  let (run, rest) := span (fun c => (is_digit c || Nat.eqb (code c) 95)%bool) body in
  match int_body 0 false run with
  | None => Raise (invalid_literal s)
  | Some n =>
      if (int_max_str_digits <? Z.of_nat (count_digits run))%Z
      then Raise (int_limit_error (count_digits run))
      else match snd (span is_c_space rest) with
           | EmptyString => Ok (if negative then (- n)%Z else n)
           | _ => Raise (invalid_literal s)
           end
  end.

(** The value [act] gives [arg_value] from the text between the
    parentheses, already stripped: nothing, the integer of a digit string,
    the inside of a quoted string, the integer [int()] reads, or the text
    itself.  The [int()] of a digit string is not guarded: its [ValueError]
    leaves the parser.  The second [int()] is tried, and a [ValueError]
    keeps the text. *)
Definition parse_argument (args_str : string) : Res (option arg) :=
  match args_str with
  | EmptyString => Ok None
  | _ =>
      if isdigit args_str then
        match int_of_str args_str with
        | Ok n => Ok (Some (AInt n))
        | Raise e => Raise e
        end
      else match match_quoted args_str with
           | Some s => Ok (Some (AStr s))
           | None =>
               match int_of_str args_str with
               | Ok n => Ok (Some (AInt n))
               | Raise _ => Ok (Some (AStr args_str))
               end
           end
  end.

(** The first half of [act]: [func_name], and [arg_value] or the exception
    raised while it is computed, of a stripped action code. *)
Definition parse_action (action_code : string) : string * Res (option arg) :=
  match match_call action_code with
  | Some (name, args) => (strip name, parse_argument (strip args))
  | None => (action_code, Ok None)
  end.

(** ** [GoogleMapsAgent] *)

Section AgentProgram.

Context {W Elem Img : Type} {env : Env W Elem Img}.

Local Open Scope prog_scope.

Definition nl : string := String (ascii_of_nat 10) "".

(** What [getattr(self.browser, func_name)()] returns. *)
Inductive MethodResult : Type :=
| RBool (b : bool)
| RLabels (l : list string)
| RMarkers (l : list (Marker Elem))
| RStr (s : string).

Definition repr_marker (m : Marker Elem) : string :=
  "{'index': " ++ str_of_int (Z.of_nat (marker_index m))
    ++ ", 'title': " ++ repr_str (marker_title m)
    ++ ", 'element': " ++ repr_elem (marker_element m) ++ "}".

Definition repr_list {A : Type} (f : A -> string) (l : list A) : string :=
  "[" ++ join ", " (map f l) ++ "]".

(** [str(result)] *)
Definition str_of_result (r : MethodResult) : string :=
  match r with
  | RBool b => str_of_bool b
  | RLabels l => repr_list repr_str l
  | RMarkers l => repr_list repr_marker l
  | RStr s => s
  end.

Definition missing_argument (method parameter : string) : Exn :=
  "GoogleMapsBrowser." ++ method ++ "() missing 1 required positional argument: '"
    ++ parameter ++ "'".

Definition lift_bool (m : Prog (W := W) bool) : Prog MethodResult :=
  b <- m ;; ret (RBool b).

(** [getattr(self.browser, func_name)()]: the method of that name called
    with no argument.  [act] gets here with the names of
    [GOOGLE_MAPS_ACTIONS] only. *)
Definition call_method (func_name : string) : Prog MethodResult :=
  if String.eqb func_name "click_id" then raise (missing_argument "click_id" "identifier")
  else if String.eqb func_name "enter_street_view" then
    r <- enter_street_view ;;
    ret (match r with
         | IsBool b => RBool b
         | IsList l => RMarkers l
         end)
  else if String.eqb func_name "click_marker" then
    raise (missing_argument "click_marker" "index")
  else if String.eqb func_name "street_view_move_forward" then lift_bool street_view_move_forward
  else if String.eqb func_name "street_view_move_backward" then lift_bool street_view_move_backward
  else if String.eqb func_name "street_view_turn_left" then lift_bool street_view_turn_left
  else if String.eqb func_name "street_view_turn_right" then lift_bool street_view_turn_right
  else if String.eqb func_name "show_historical_dates" then
    r <- show_historical_dates ;;
    ret (match r with
         | IsBool b => RBool b
         | IsList l => RLabels l
         end)
  else if String.eqb func_name "select_historical_date" then
    raise (missing_argument "select_historical_date" "date_str")
  else if String.eqb func_name "flip_view" then lift_bool flip_view
  else if String.eqb func_name "move_left" then lift_bool move_left
  else if String.eqb func_name "move_right" then lift_bool move_right
  else if String.eqb func_name "scroll_up" then lift_bool scroll_up
  else if String.eqb func_name "scroll_down" then lift_bool scroll_down
  else if String.eqb func_name "back" then lift_bool back
  else if String.eqb func_name "stop" then lift_bool stop
  else if String.eqb func_name "get_url" then (u <- get_url ;; ret (RStr u))
  else if String.eqb func_name "find_text_on_page" then
    raise (missing_argument "find_text_on_page" "search_text")
  else if String.eqb func_name "click_blank_area" then lift_bool click_blank_area
  else raise ("'GoogleMapsBrowser' object has no attribute '" ++ func_name ++ "'").

(** [self.start_url] of the agent: an [AttributeError] before [run_task]
    has set it. *)
Definition self_start_url : Prog (W := W) string :=
  s <- get ;;
  match start_url (agent s) with
  | Some u => ret u
  | None => raise "'GoogleMapsAgent' object has no attribute 'start_url'"
  end.

Definition self_history : Prog (W := W) (list StepInfo) :=
  s <- get ;; ret (history (agent s)).

(** The second half of [act], inside its [try]: the check of the name and
    the dispatch on [func_name] and [arg_value]. *)
Definition execute (func_name : string) (arg_value : option arg) : Prog (bool * string) :=
  if negb (in_list func_name GOOGLE_MAPS_ACTIONS)
  then ret (false, "Invalid action: " ++ func_name)
  else
    match arg_value with
    | Some a =>
        if String.eqb func_name "click_id" then
          result <- click_id a ;;
          ret (result, "Clicked ID: " ++ arg_str a)
        else if String.eqb func_name "select_historical_date" then
          result <- select_historical_date a ;;
          ret (result, "Selected historical date: " ++ arg_str a)
        else if String.eqb func_name "find_text_on_page" then
          result <- find_text_on_page a ;;
          ret (result, "Searched text: " ++ arg_str a)
        else if String.eqb func_name "visit_page" then
          visit_page (arg_str a) ;;
          ret (true, "Visited page: " ++ arg_str a)
        else if String.eqb func_name "click_marker" then
          match a with
          | AInt n =>
              result <- click_marker n ;;
              ret (result, "Clicked marker #" ++ str_of_int n)
          | AStr s => ret (false, "Invalid argument for click_marker: " ++ s)
          end
        else ret (false, "Action " ++ func_name ++ " does not take arguments")
    | None =>
        if String.eqb func_name "enter_street_view" then
          result <- enter_street_view ;;
          match result with
          | IsList l =>
              ret (true, "Found " ++ repr_list repr_marker l ++ " visible markers")
          | IsBool b =>
              ret (b, if b then "Entered street view"
                      else "Failed to enter street view")
          end
        else if String.eqb func_name "back" then
          url <- self_start_url ;;
          visit_page url ;;
          ret (true, "Executed action: " ++ func_name ++ ":" ++ str_of_bool true)
        else
          result <- call_method func_name ;;
          match result with
          | RBool false => ret (false, "Executed action: " ++ func_name)
          | _ => ret (true, "Executed action: " ++ func_name ++ ":"
                              ++ str_of_result result)
          end
    end.

(** [GoogleMapsAgent.act] *)
Definition act (action_code : string) : Prog (bool * string) :=
  let action_code := strip action_code in
  if in_list (lower action_code) stop_words then ret (true, "Task completed")
  else
    try_except
      (let (func_name, parsed) := parse_action action_code in
       arg_value <- of_res parsed ;;
       execute func_name arg_value)
      (fun e => ret (false, e)).

(** [resp_dict.get(key, default)]: an [AttributeError] when the reply
    decoded to something that is not a dict. *)
Definition dict_get (d : value) (key : string) (default : value) : Prog (W := W) value :=
  match d with
  | JObj l => ret (match dict_lookup key l with
                   | Some v => v
                   | None => default
                   end)
  | _ => raise "object has no attribute 'get'"
  end.

(** The receiver of [.lower()] or [.strip()]: an [AttributeError] when it
    is not a [str]. *)
Definition as_str (v : value) : Prog (W := W) string :=
  match v with
  | JStr s => ret s
  | _ => raise "object has no attribute 'lower'"
  end.

(** One line of the history text of [observe]. *)
Definition observe_line (r : StepInfo) : string :=
  "Step " ++ str_of_int (Z.of_nat (step r)) ++ ": " ++ py_str (observation r)
    ++ " -> " ++ action_code r ++ " ("
    ++ (match outcome r with
        | Some (true, info) => "success:" ++ info
        | _ => "failure"
        end) ++ ")".

End AgentProgram.

(** ** The loop: [observe], [run_task], [_generate_final_answer] *)

(** How the [for] loop of [run_task] ends: by [return reasoning], by [break],
    or because [range(MAX_STEPS)] is used up.  After the last two the same
    statement runs, the call of [_generate_final_answer]. *)
Inductive LoopExit : Type :=
| Returned (answer : value)
| Broke
| Exhausted.

Definition MAX_STEPS : nat := 15.

Section Controller.

Context {W Elem Img : Type} {env : Env W Elem Img}.

Local Open Scope prog_scope.

(** [GoogleMapsAgent.observe] *)
Definition observe (task_prompt : string) : Prog (value * value * string) :=
  p <- self_page ;;
  match p with
  | None => ret (JStr "", JStr "", "stop")
  | Some _ =>
      screenshot <- ext page_screenshot ;;
      img <- ext (image_open screenshot) ;;
      h <- self_history ;;
      let history_text := join nl (map observe_line h) in
      let prompt := observe_prompt task_prompt history_text in
      content <- ext (model_step (mkMessage "user" prompt [img])) ;;
      try_except
        (let resp_dict := _parse_json_output content in
         code <- dict_get resp_dict "action_code" (JStr "") ;;
         code <- as_str code ;;
         if String.eqb (lower code) "final_answer" then
           answer <- dict_get resp_dict "answer" (JStr "") ;;
           ret (JStr "", answer, strip code)
         else
           observation <- dict_get resp_dict "observation" (JStr "") ;;
           reasoning <- dict_get resp_dict "reasoning" (JStr "") ;;
           ret (observation, reasoning, strip code))
        (fun _ => ret (JStr "", JStr "", ""))
  end.

(** One line of the history text of [_generate_final_answer]. *)
Definition final_line (r : StepInfo) : string :=
  "Step " ++ str_of_int (Z.of_nat (step r)) ++ ": " ++ py_str (observation r)
    ++ " -> " ++ action_code r ++ " ("
    ++ (match outcome r with
        | Some (true, _) => "success"
        | _ => "failure"
        end) ++ ")".

(** [GoogleMapsAgent._generate_final_answer] *)
Definition _generate_final_answer (task_prompt : string) : Prog value :=
  h <- self_history ;;
  let history_text := join nl (map final_line h) in
  let prompt := final_answer_prompt task_prompt history_text in
  try_except
    (content <- ext (model_step (mkMessage "user" prompt [])) ;;
     ret (JStr content))
    (fun _ => ret (JStr "Failed to complete the task")).

(** The body of the [for] loop of [run_task], from iteration [step] on,
    with [remaining] iterations left in [range(MAX_STEPS)]. *)
Fixpoint run_steps (task_prompt : string) (remaining step : nat) : Prog LoopExit :=
  match remaining with
  | O => ret Exhausted
  | S remaining' =>
      '(observation, reasoning, action_code) <- observe task_prompt ;;
      if String.eqb action_code "final_answer" then ret (Returned reasoning)
      else
        let step_info := mkStepInfo step observation reasoning action_code in
        if in_list (lower action_code) ["stop"; "exit"; "done"] then
          update_agent (history_append (step_info (Some "stopped") None)) ;;
          ret Broke
        else
          '(success, result_info) <- act action_code ;;
          update_agent (history_append (step_info None (Some (success, result_info)))) ;;
          if (contains "stop" (lower result_info) || contains "done" (lower result_info))%bool
          then ret Broke
          else run_steps task_prompt remaining' (S step)
  end.

(** What [run_task] does once the loop has ended. *)
Definition after_loop (task_prompt : string) (e : LoopExit) : Prog value :=
  match e with
  | Returned answer => ret answer
  | Broke | Exhausted => _generate_final_answer task_prompt
  end.

(** [GoogleMapsAgent.run_task] *)
Definition run_task (task_prompt start_url : string) : Prog value :=
  update_agent (set_start_url start_url) ;;
  init ;;
  visit_page start_url ;;
  e <- run_steps task_prompt MAX_STEPS 0 ;;
  after_loop task_prompt e.

(** [GoogleMapsAgent.close] *)
Definition agent_close : Prog (W := W) unit := close.

(** [GoogleMapsAgent.__init__]: the state of a new agent. *)
Definition new_agent (headless : bool) (cache_dir : option string) : Agent :=
  mkAgent (new_browser headless cache_dir) [] None.

(** The effects of the constructor: the cache directory and the chat
    model. *)
Definition construct : Prog (W := W) unit :=
  b <- self_browser ;;
  ext (makedirs (cache_dir b)) ;;
  ext create_chat_agent.

(** [run_google_maps_task_api] *)
Definition run_google_maps_task_api (task_prompt start_url : string) (w : W)
  : Res value * State W :=
  (construct ;;
   result <- run_task task_prompt start_url ;;
   agent_close ;;
   ret result) (mkState (new_agent false None) w).

End Controller.

(** ** A simulated environment

    A small world to run the program on: a browser that can fail to launch
    or to load a page, a street view with a heading that the two rotation
    buttons turn by 90 degrees, an advance that can fail, a keyboard that
    types strings only, and a chat model that answers from a script. *)

Module Sim.

Inductive elem : Type :=
| CounterclockwiseButton
| ClockwiseButton.

Record simworld : Type := mkWorld {
  launch_ok : bool;          (* chromium can be launched *)
  goto_ok : bool;            (* pages can be loaded *)
  running : bool;            (* a browser process is alive *)
  in_street_view : bool;     (* the rotation buttons are on the page *)
  heading : Z;               (* degrees, in [0, 360) *)
  advance_ok : bool;         (* a click on the centre of the view moves on *)
  advanced : nat;            (* moves made *)
  replies : list (Res string); (* what the chat model will answer, in order *)
  oracle_calls : nat;        (* calls of the chat model so far *)
  typed : list arg           (* the texts typed on the keyboard *)
}.

Definition ok (w : simworld) : Res unit * simworld := (Ok tt, w).

Definition set_running (b : bool) (w : simworld) : simworld :=
  mkWorld (launch_ok w) (goto_ok w) b (in_street_view w) (heading w)
          (advance_ok w) (advanced w) (replies w) (oracle_calls w) (typed w).

Definition set_heading (h : Z) (w : simworld) : simworld :=
  mkWorld (launch_ok w) (goto_ok w) (running w) (in_street_view w) h
          (advance_ok w) (advanced w) (replies w) (oracle_calls w) (typed w).

Definition advance (w : simworld) : simworld :=
  mkWorld (launch_ok w) (goto_ok w) (running w) (in_street_view w) (heading w)
          (advance_ok w) (S (advanced w)) (replies w) (oracle_calls w) (typed w).

Definition answer (w : simworld) : Res string * simworld :=
  let w' r := mkWorld (launch_ok w) (goto_ok w) (running w) (in_street_view w)
                      (heading w) (advance_ok w) (advanced w) r
                      (S (oracle_calls w)) (typed w) in
  match replies w with
  | [] => (Raise "the model gave no reply", w' [])
  | r :: rest => (r, w' rest)
  end.

Definition type_text (a : arg) (w : simworld) : simworld :=
  mkWorld (launch_ok w) (goto_ok w) (running w) (in_street_view w) (heading w)
          (advance_ok w) (advanced w) (replies w) (oracle_calls w) (typed w ++ [a]).

Definition find (selector : string) (w : simworld) : option elem :=
  if in_street_view w then
    if String.eqb selector counterclockwise_selector then Some CounterclockwiseButton
    else if String.eqb selector clockwise_selector then Some ClockwiseButton
    else None
  else None.

Definition press (e : elem) (w : simworld) : simworld :=
  match e with
  | CounterclockwiseButton => set_heading ((heading w - 90) mod 360) w
  | ClockwiseButton => set_heading ((heading w + 90) mod 360) w
  end.

#[export] Instance sim_env : Env simworld elem unit := {|
  makedirs := fun _ => ok;
  create_chat_agent := ok;
  model_step := fun _ => answer;
  playwright_start := ok;
  chromium_launch := fun _ w =>
    if launch_ok w then (Ok tt, set_running true w)
    else (Raise "BrowserType.launch: the executable does not exist", w);
  new_context := ok;
  new_page := ok;
  set_viewport_size := fun _ _ => ok;
  page_is_closed := fun w => (Ok (negb (running w)), w);
  page_close := ok;
  context_close := ok;
  browser_close := fun w => (Ok tt, set_running false w);
  playwright_stop := ok;
  wait_for_load_state := fun _ _ => ok;
  page_goto := fun _ _ w =>
    if goto_ok w then (Ok tt, w)
    else (Raise "Page.goto: net::ERR_NAME_NOT_RESOLVED", w);
  page_go_back := ok;
  page_get_url := fun w => (Ok "https://www.google.com/maps", w);
  page_screenshot := fun w => (Ok tt, w);
  evaluate_viewport := fun w => (Ok (1280, 720)%Z, w);
  mouse_click := fun x y w =>
    if ((x =? 640) && (y =? 360))%Z then
      if advance_ok w then (Ok tt, advance w)
      else (Raise "Mouse.click: the target is closed", w)
    else (Ok tt, w);
  keyboard_press := fun _ => ok;
  keyboard_type := fun a w =>
    match a with
    | AStr _ => (Ok tt, type_text a w)
    | AInt _ => (Raise "Keyboard.type: text: expected string, got number", w)
    end;
  query_selector := fun selector w => (Ok (find selector w), w);
  query_selector_all := fun _ w => (Ok [], w);
  is_visible := fun _ w => (Ok true, w);
  click := fun e _ w => (Ok tt, press e w);
  scroll_into_view_if_needed := fun _ => ok;
  get_attribute := fun _ _ w => (Ok None, w);
  locator_count := fun _ w => (Ok 0, w);
  locator_scroll_into_view_if_needed := fun _ => ok;
  locator_click := fun _ _ => ok;
  locator_first_click := fun _ _ => ok;
  repr_elem := fun _ => "<JSHandle preview=button>";
  image_open := fun img w => (Ok img, w)
|}.

(** A world where everything works, facing north on the map, with the
    model's script to come. *)
Definition fresh (script : list (Res string)) : simworld :=
  mkWorld true true false false 0 true 0 script 0 [].

(** The reply of the model that chooses [code]. *)
Definition decision (code : string) : Res string :=
  Ok ("{" ++ dq ++ "observation" ++ dq ++ ": " ++ dq ++ "a map" ++ dq ++ ", "
          ++ dq ++ "reasoning" ++ dq ++ ": " ++ dq ++ "next" ++ dq ++ ", "
          ++ dq ++ "action_code" ++ dq ++ ": " ++ dq ++ code ++ dq ++ "}").

End Sim.

(** ** A second simulated environment: a map with markers

    A map page that is not a street view: the elements and the markers its
    selectors find, each visible or hidden and with or without a label, a
    log of the elements clicked, and a page that may refuse to close.  No
    chat model is attached. *)

Module Town.

Record item : Type := mkItem {
  item_id : nat;
  item_visible : bool;
  item_label : option string
}.

Record town : Type := mkTown {
  elements : list item;      (* what the selector of every element finds *)
  markers : list item;       (* what the selector of the markers finds *)
  page_closes : bool;        (* page.close() works *)
  clicked : list nat;        (* the elements clicked, in order *)
  released : list string     (* what has been closed, in order *)
}.

Definition fine (w : town) : Res unit * town := (Ok tt, w).

Definition press (e : item) (w : town) : town :=
  mkTown (elements w) (markers w) (page_closes w) (clicked w ++ [item_id e]) (released w).

Definition release (what : string) (w : town) : town :=
  mkTown (elements w) (markers w) (page_closes w) (clicked w) (released w ++ [what]).

#[export] Instance town_env : Env town item unit := {|
  makedirs := fun _ => fine;
  create_chat_agent := fine;
  model_step := fun _ w => (Raise "no chat model is attached", w);
  playwright_start := fine;
  chromium_launch := fun _ => fine;
  new_context := fine;
  new_page := fine;
  set_viewport_size := fun _ _ => fine;
  page_is_closed := fun w => (Ok false, w);
  page_close := fun w =>
    if page_closes w then (Ok tt, release "page" w)
    else (Raise "Page.close: Target page, context or browser has been closed", w);
  context_close := fun w => (Ok tt, release "context" w);
  browser_close := fun w => (Ok tt, release "browser" w);
  playwright_stop := fun w => (Ok tt, release "playwright" w);
  wait_for_load_state := fun _ _ => fine;
  page_goto := fun _ _ => fine;
  page_go_back := fine;
  page_get_url := fun w => (Ok "https://www.google.com/maps", w);
  page_screenshot := fun w => (Ok tt, w);
  evaluate_viewport := fun w => (Ok (1280, 720)%Z, w);
  mouse_click := fun _ _ => fine;
  keyboard_press := fun _ => fine;
  keyboard_type := fun _ => fine;
  query_selector := fun _ w => (Ok None, w);
  query_selector_all := fun selector w =>
    if String.eqb selector ".hfpxzc" then (Ok (markers w), w)
    else if String.eqb selector "*" then (Ok (elements w), w)
    else (Ok [], w);
  is_visible := fun e w => (Ok (item_visible e), w);
  click := fun e _ w => (Ok tt, press e w);
  scroll_into_view_if_needed := fun _ => fine;
  get_attribute := fun e name w =>
    if String.eqb name "aria-label" then (Ok (item_label e), w) else (Ok None, w);
  locator_count := fun _ w => (Ok 0, w);
  locator_scroll_into_view_if_needed := fun _ => fine;
  locator_click := fun _ _ => fine;
  locator_first_click := fun _ _ => fine;
  repr_elem := fun e => "<JSHandle preview=JSHandle@node>";
  image_open := fun img w => (Ok img, w)
|}.

End Town.

(** ** A third simulated environment: a street view whose buttons stick

    A street view whose two rotation buttons are always on the page.  Each
    click on one of them takes the next outcome of a schedule: the click goes
    through and the view turns by a quarter, or it times out and nothing
    turns.  Once the schedule is used up every click goes through. *)

Module Panorama.

Inductive button : Type :=
| Counterclockwise
| Clockwise.

Record view : Type := mkView {
  facing : Z;                (* degrees, in [0, 360) *)
  schedule : list bool       (* the outcomes of the next clicks *)
}.

Definition fine (w : view) : Res unit * view := (Ok tt, w).

Definition find (selector : string) : option button :=
  if String.eqb selector counterclockwise_selector then Some Counterclockwise
  else if String.eqb selector clockwise_selector then Some Clockwise
  else None.

Definition turned (b : button) (h : Z) : Z :=
  match b with
  | Counterclockwise => ((h + -90) mod 360)%Z
  | Clockwise => ((h + 90) mod 360)%Z
  end.

Definition press (b : button) (w : view) : Res unit * view :=
  match schedule w with
  | false :: rest =>
      (Raise "ElementHandle.click: Timeout 3000ms exceeded.", mkView (facing w) rest)
  | true :: rest => (Ok tt, mkView (turned b (facing w)) rest)
  | [] => (Ok tt, mkView (turned b (facing w)) [])
  end.

#[export] Instance panorama_env : Env view button unit := {|
  makedirs := fun _ => fine;
  create_chat_agent := fine;
  model_step := fun _ w => (Raise "no chat model is attached", w);
  playwright_start := fine;
  chromium_launch := fun _ => fine;
  new_context := fine;
  new_page := fine;
  set_viewport_size := fun _ _ => fine;
  page_is_closed := fun w => (Ok false, w);
  page_close := fine;
  context_close := fine;
  browser_close := fine;
  playwright_stop := fine;
  wait_for_load_state := fun _ _ => fine;
  page_goto := fun _ _ => fine;
  page_go_back := fine;
  page_get_url := fun w => (Ok "https://www.google.com/maps", w);
  page_screenshot := fun w => (Ok tt, w);
  evaluate_viewport := fun w => (Ok (1280, 720)%Z, w);
  mouse_click := fun _ _ => fine;
  keyboard_press := fun _ => fine;
  keyboard_type := fun _ => fine;
  query_selector := fun selector w => (Ok (find selector), w);
  query_selector_all := fun _ w => (Ok [], w);
  is_visible := fun _ w => (Ok true, w);
  click := fun b _ => press b;
  scroll_into_view_if_needed := fun _ => fine;
  get_attribute := fun _ _ w => (Ok None, w);
  locator_count := fun _ w => (Ok 0, w);
  locator_scroll_into_view_if_needed := fun _ => fine;
  locator_click := fun _ _ => fine;
  locator_first_click := fun _ _ => fine;
  repr_elem := fun _ => "<JSHandle preview=button>";
  image_open := fun img w => (Ok img, w)
|}.

End Panorama.

(** * The vocabulary of the properties *)

(** [m] leaves [part] of the state as it found it, whether it returns or
    raises. *)
Definition keeps {S T A : Type} (part : S -> T) (m : M S A) : Prop :=
  forall s, part (snd (m s)) = part s.

(** The detail string that [act] gives with a failure of the action
    [func_name] called with [arg_value]: the description of the call, or of
    the reason why no call was made. *)
Definition failure_detail (func_name : string) (arg_value : option arg) : string :=
  match arg_value with
  | Some a =>
      if String.eqb func_name "click_id" then "Clicked ID: " ++ arg_str a
      else if String.eqb func_name "select_historical_date"
      then "Selected historical date: " ++ arg_str a
      else if String.eqb func_name "find_text_on_page" then "Searched text: " ++ arg_str a
      else if String.eqb func_name "click_marker" then
        match a with
        | AInt n => "Clicked marker #" ++ str_of_int n
        | AStr x => "Invalid argument for click_marker: " ++ x
        end
      else "Action " ++ func_name ++ " does not take arguments"
  | None =>
      if String.eqb func_name "enter_street_view" then "Failed to enter street view"
      else if String.eqb func_name "click_id" then missing_argument "click_id" "identifier"
      else if String.eqb func_name "click_marker" then missing_argument "click_marker" "index"
      else if String.eqb func_name "select_historical_date"
      then missing_argument "select_historical_date" "date_str"
      else if String.eqb func_name "find_text_on_page"
      then missing_argument "find_text_on_page" "search_text"
      else "Executed action: " ++ func_name
  end.

(** The registered actions that look for an element of the page and fail
    when they do not find it. *)
Definition needs_element : list string :=
  [ "click_id"; "click_marker"; "street_view_turn_left"; "street_view_turn_right";
    "flip_view"; "move_left"; "move_right"; "show_historical_dates";
    "select_historical_date" ].

(** The text of a JSON object: a body between braces. *)
Definition object_text (body : string) : string := String "{" (body ++ "}").

(** Any character but the backtick. *)
Definition not_backtick (c : ascii) : bool := negb (Ascii.eqb c "`").

Section Vocabulary.

Context {W Elem Img : Type} {env : Env W Elem Img}.

(** The history of the agent in a state. *)
Definition history_of (s : State W) : list StepInfo := history (agent s).

(** The state once [step_info] has been appended to the history. *)
Definition recorded (r : StepInfo) (s : State W) : State W :=
  mkState (history_append r (agent s)) (world s).

(** What [run_task] does before the loop: it binds the start URL, launches
    the browser and visits the start URL. *)
Definition session_start (start_url : string) : Prog (W := W) unit :=
  (update_agent (set_start_url start_url) ;; init ;; visit_page start_url)%prog.

(** The rest of [run_task] from iteration [i] on: the iterations left and
    what follows the loop. *)
Definition rest_of_run (task : string) (n i : nat) : Prog (W := W) value :=
  (e <- run_steps task n i ;; after_loop task e)%prog.

(** The message [observe] sends to the chat model. *)
Definition observe_message (task : string) (h : list StepInfo) (img : Img) : Message Img :=
  mkMessage "user" (observe_prompt task (join nl (map observe_line h))) [img].

(** No page is open. *)
Definition no_page (s : State W) : Prop := page (browser (agent s)) = None.

(** A street view with a heading, in degrees: the button found by the
    counterclockwise selector turns it by 90 degrees one way, the button
    found by the clockwise selector by 90 degrees the other way, and looking
    for elements, asking whether they are visible, measuring the viewport and
    clicking with the mouse do not turn it. *)
Record HeadingModel : Type := mkHeadingModel {
  heading : W -> Z;
  turns_left : Elem -> Prop;
  turns_right : Elem -> Prop;
  found_left : forall w e w',
    query_selector counterclockwise_selector w = (Ok (Some e), w') -> turns_left e;
  found_right : forall w e w',
    query_selector clockwise_selector w = (Ok (Some e), w') -> turns_right e;
  click_left : forall e t w w',
    turns_left e -> click e t w = (Ok tt, w') ->
    heading w' = ((heading w + -90) mod 360)%Z;
  click_right : forall e t w w',
    turns_right e -> click e t w = (Ok tt, w') ->
    heading w' = ((heading w + 90) mod 360)%Z;
  query_keeps : forall sel w, heading (snd (query_selector sel w)) = heading w;
  visible_keeps : forall e w, heading (snd (is_visible e w)) = heading w;
  viewport_keeps : forall w, heading (snd (evaluate_viewport w)) = heading w;
  mouse_keeps : forall x y w, heading (snd (mouse_click x y w)) = heading w
}.

(** A page on which nothing is found: in the worlds of [empty], and they
    are closed under looking, no selector finds an element and no locator
    counts one.  This is the page whose button or element is absent, the map
    that is not a street view. *)
Record EmptyPage : Type := mkEmptyPage {
  empty : W -> Prop;
  no_element : forall sel w, empty w ->
    exists w', query_selector sel w = (Ok None, w') /\ empty w';
  no_elements : forall sel w, empty w ->
    exists w', query_selector_all sel w = (Ok [], w') /\ empty w';
  no_locator : forall sel w, empty w ->
    exists w', locator_count sel w = (Ok 0, w') /\ empty w'
}.

(** The heading of the view in a state. *)
Definition heading_of (hm : HeadingModel) (s : State W) : Z := heading hm (world s).

(** A page is open. *)
Definition has_page (s : State W) : Prop :=
  exists p, page (browser (agent s)) = Some p.

(** The body the two rotations share, for the button of [selector]. *)
Definition click_rotation (selector : string) : Prog (W := W) bool :=
  with_page false
    (or_false
       (btn <- ext (query_selector selector) ;;
        match btn with
        | Some b =>
            v <- ext (is_visible b) ;;
            if v then ext (click b 3000) ;; ret true
            else ret false
        | None => ret false
        end)%prog).

(** The composite of a rotation, an advance and another rotation, as
    [move_left] and [move_right] are written. *)
Definition lateral (first last : Prog (W := W) bool) : Prog bool :=
  with_page false
    (or_false
       (turned <- first ;;
        if negb turned then ret false
        else
          moved <- street_view_move_forward ;;
          if negb moved then ret false
          else last)%prog).

End Vocabulary.

(** ** Sessions on the simulated environment *)

Module Runs.

Import Sim.

Definition task : string := "Find the date of the street view".
Definition url : string := "https://www.google.com/maps/place/Lincoln+Tunnel".

(** A new agent in a world where everything works. *)
Definition new_session (script : list (Res string)) : State simworld :=
  mkState (new_agent false None) (fresh script).

(** The same once [run_task] has launched the browser and visited the start
    URL. *)
Definition started (script : list (Res string)) : State simworld :=
  snd (session_start url (new_session script)).

(** An agent whose start URL is known and whose browser was never
    launched: no page is open. *)
Definition unopened : State simworld :=
  mkState (set_start_url url (new_agent false None)) (fresh []).

(** A started session in street view, facing [h], where the advance works
    or not. *)
Definition in_view (h : Z) (advance_ok : bool) : State simworld :=
  mkState (agent (started []))
          (mkWorld true true true true h advance_ok 0 [] 0 []).

(** Worlds where the browser cannot be launched, or no page loaded. *)
Definition no_browser : simworld := mkWorld false true false false 0 true 0 [] 0 [].
Definition no_network : simworld := mkWorld true false false false 0 true 0 [] 0 [].

(** The oracle asks fifteen times for an action that does not exist, then
    answers the request for a final answer. *)
Definition stubborn : list (Res string) :=
  (repeat (decision "fly()") 15 ++ [Ok "No date was found"])%list.

(** The oracle cannot be reached; or its first reply is prose. *)
Definition broken_line : list (Res string) := [Raise "Connection timed out"].
Definition garbled : list (Res string) :=
  [Ok "I cannot decide."; decision "stop"; Ok "Nothing found"].

(** The oracle asks to search the page for the word done. *)
Definition search_code : string := "find_text_on_page('done')".
Definition searching : list (Res string) := [decision search_code; Ok "Nothing yet"].

(** A numeral of 4301 digits, one more than [int] converts. *)
Definition long_numeral : string :=
  String.concat "" (repeat "7" 4301).

(** The body of the object that asks for a stop. *)
Definition action_body : string := dq ++ "action_code" ++ dq ++ ": " ++ dq ++ "stop" ++ dq.

End Runs.

(** ** More vocabulary: the history, the dispatcher, the pages visited *)

(** A record after which the loop of [run_task] breaks: a stop, or a result
    description with stop or done in it. *)
Definition ends_loop (r : StepInfo) : bool :=
  match status r, outcome r with
  | Some _, _ => true
  | None, Some (_, info) => (contains "stop" (lower info) || contains "done" (lower info))%bool
  | None, None => false
  end.

(** The records are numbered from [i] on, one by one, and a record that
    ends the loop is the last one. *)
Fixpoint numbered (i : nat) (l : list StepInfo) : bool :=
  match l with
  | [] => true
  | r :: rest =>
      (Nat.eqb (step r) i
       && (negb (ends_loop r) || match rest with [] => true | _ => false end)
       && numbered (S i) rest)%bool
  end.

(** The text is a digit string of more digits than [int] converts. *)
Definition digits_exceed (x : string) : bool :=
  (isdigit x && (int_max_str_digits <? Z.of_nat (String.length x))%Z)%bool.

(** The registered actions that the dispatcher calls with an argument. *)
Definition takes_argument : list string :=
  ["click_id"; "select_historical_date"; "find_text_on_page"; "click_marker"].

(** The value of a key of a decoded reply, the empty string by default:
    [resp_dict.get(key, "")]. *)
Definition field (d : list (string * value)) (key : string) : value :=
  match dict_lookup key d with
  | Some v => v
  | None => JStr ""
  end.

(** What the chat model is shown of a step while the session runs: its
    number, observation and action code, and the description of its result
    when it succeeded. *)
Definition shown_to_oracle (r : StepInfo) : StepInfo :=
  mkStepInfo (step r) (observation r) (JStr "") (action_code r) None
             (match outcome r with
              | Some (true, info) => Some (true, info)
              | _ => None
              end).

(** What the chat model is shown of a step when it is asked for the final
    answer: its number, observation and action code, and whether it
    succeeded. *)
Definition shown_at_the_end (r : StepInfo) : StepInfo :=
  mkStepInfo (step r) (observation r) (JStr "") (action_code r) None
             (match outcome r with
              | Some (true, _) => Some (true, "")
              | _ => None
              end).

(** The value of a decimal numeral read from the left, as [digits_val]
    reads its digits. *)
Fixpoint uint_val (acc : Z) (d : Decimal.uint) : Z :=
  match d with
  | Decimal.Nil => acc
  | Decimal.D0 d => uint_val (10 * acc) d
  | Decimal.D1 d => uint_val (10 * acc + 1) d
  | Decimal.D2 d => uint_val (10 * acc + 2) d
  | Decimal.D3 d => uint_val (10 * acc + 3) d
  | Decimal.D4 d => uint_val (10 * acc + 4) d
  | Decimal.D5 d => uint_val (10 * acc + 5) d
  | Decimal.D6 d => uint_val (10 * acc + 6) d
  | Decimal.D7 d => uint_val (10 * acc + 7) d
  | Decimal.D8 d => uint_val (10 * acc + 8) d
  | Decimal.D9 d => uint_val (10 * acc + 9) d
  end.

Section Itinerary.

Context {W Elem Img : Type} {env : Env W Elem Img}.

(** [m] returns, whatever the state: no exception leaves it. *)
Definition returns {A : Type} (m : Prog (W := W) A) : Prop :=
  forall s, exists a s', m s = (Ok a, s').

(** The pages the browser has visited, in order: [page_history]. *)
Definition pages_visited (s : State W) : list string := page_history (browser (agent s)).

(** What [init] leaves alone in the agent: the start URL and the pages
    visited. *)
Definition itinerary (s : State W) : option string * list string :=
  (start_url (agent s), pages_visited s).

(** The state with another history. *)
Definition with_history (h : list StepInfo) (s : State W) : State W :=
  mkState (mkAgent (browser (agent s)) h (start_url (agent s))) (world s).

(** The markers are steady in [w]: whether one is visible and what its
    label is can be read without a change of the world. *)
Definition steady (vis : Elem -> bool) (label : Elem -> option string)
  (markers : list Elem) (w : W) : Prop :=
  forall m, In m markers ->
    is_visible m w = (Ok (vis m), w)
    /\ get_attribute m "aria-label" w = (Ok (label m), w).

End Itinerary.

(** ** Sessions on the map with markers *)

Module Visits.

Import Town.

(** A browser that [init] has launched and that has visited [url]. *)
Definition open_browser (url : string) : Browser :=
  mkBrowser false (Some handle) (Some handle) (Some handle) (Some handle) [url]
            "/tmp/google_maps_cache" 0 None (Some url).

Definition map_url : string := "https://www.google.com/maps/place/Lincoln+Tunnel".

(** An agent on the map page of the world [w]. *)
Definition on_map (w : town) : State town :=
  mkState (mkAgent (open_browser map_url) [] (Some map_url)) w.

(** Three markers: the first is hidden, the second is labelled, the third
    is not. *)
Definition hidden_pin : item := mkItem 10 false (Some "Closed shop").
Definition cafe_pin : item := mkItem 11 true (Some "Cafe").
Definition plain_pin : item := mkItem 12 true None.

Definition three_pins : town :=
  mkTown [mkItem 0 true None; mkItem 1 true None; mkItem 2 true None]
         [hidden_pin; cafe_pin; plain_pin] true [] [].

(** An agent in the street view that faces [h], where the next clicks on
    the rotation buttons have the outcomes [outcomes]. *)
Definition on_street (h : Z) (outcomes : list bool) : State Panorama.view :=
  mkState (mkAgent (open_browser map_url) [] (Some map_url)) (Panorama.mkView h outcomes).

(** The same map when the page refuses to close. *)
Definition stuck_page : town :=
  mkTown [] [] false [] [].

(** ** Replies and histories to run the loop on *)

(** The reply of the model with the action code [code], the reasoning
    [reasoning] and the answer [answer]. *)
Definition reply (code reasoning answer : string) : string :=
  "{" ++ dq ++ "action_code" ++ dq ++ ": " ++ dq ++ code ++ dq ++ ", "
      ++ dq ++ "reasoning" ++ dq ++ ": " ++ dq ++ reasoning ++ dq ++ ", "
      ++ dq ++ "answer" ++ dq ++ ": " ++ dq ++ answer ++ dq ++ "}".

(** The object it decodes to. *)
Definition decoded (code reasoning answer : string) : list (string * value) :=
  [("action_code", JStr code); ("reasoning", JStr reasoning); ("answer", JStr answer)].

(** A failed step, with its reasoning and the description of the
    failure. *)
Definition failed_step (rsn info : string) : StepInfo :=
  mkStepInfo 0 (JStr "a map") (JStr rsn) "enter_street_view()" None (Some (false, info)).

(** A step that listed the historical dates [dates]. *)
Definition dates_step (dates : string) : StepInfo :=
  mkStepInfo 0 (JStr "a street") (JStr "look for dates") "show_historical_dates()" None
             (Some (true, "Executed action: show_historical_dates:" ++ dates)).

End Visits.

(** * Properties *)

(** ** The parsers on sample texts *)

Example match_call_with_argument :
  match_call "click_marker(3)" = Some ("click_marker", "3").
Proof. reflexivity. Qed.

Example match_call_without_parentheses : match_call "move_left" = None.
Proof. reflexivity. Qed.

Example match_call_stops_at_first_parenthesis :
  match_call "click_id(a)(b) and more" = Some ("click_id", "a").
Proof. reflexivity. Qed.

Example match_call_needs_a_name_next_to_the_parenthesis :
  match_call "move left()" = None /\ match_call "(3)" = None.
Proof. split; reflexivity. Qed.

Example parse_action_negative_index :
  parse_action "click_marker( -3 )" = ("click_marker", Ok (Some (AInt (-3)))).
Proof. reflexivity. Qed.

Example parse_action_raw_text :
  parse_action "find_text_on_page(July 2010)"
  = ("find_text_on_page", Ok (Some (AStr "July 2010"))).
Proof. reflexivity. Qed.

Example parse_action_no_argument : parse_action "stop()" = ("stop", Ok None).
Proof. reflexivity. Qed.

Example parse_action_unquoted_name :
  parse_action "select_historical_date(" = ("select_historical_date(", Ok None).
Proof. reflexivity. Qed.

Example search_fenced_json :
  search_delimited fence "Sure: ```json  {a}  ``` bye ``` end" = Some "{a}".
Proof. reflexivity. Qed.

Example search_first_fence_pair :
  search_delimited fence "```a``` and ```b```" = Some "a".
Proof. reflexivity. Qed.

Example search_single_fence : search_delimited fence "``` {a}" = None.
Proof. reflexivity. Qed.

Example cut_trailing_comma : cut_trailing "[1, [2, ], 3 , ] x" = "[1, [2, ], 3 ".
Proof. reflexivity. Qed.

Example quote_words_keys :
  quote_words (String.length "{a_1: 1, b : 2, c:d}") "{a_1: 1, b : 2, c:d}"
  = "{" ++ dq ++ "a_1" ++ dq ++ ": 1, b : 2, " ++ dq ++ "c" ++ dq ++ ":d}".
Proof. reflexivity. Qed.

Example loads_nested :
  loads ("{" ++ dq ++ "a" ++ dq ++ ": [1, -2.5e3, null, true], "
             ++ dq ++ "b" ++ dq ++ " : {} , " ++ dq ++ "a" ++ dq ++ ": " ++ dq ++ "x" ++ dq ++ "} ")
  = Some (JObj [("a", JStr "x"); ("b", JObj [])]).
Proof. vm_compute. reflexivity. Qed.

Example loads_rejects :
  loads "[1,]" = None /\ loads "01" = None /\ loads "1.5e" = None
  /\ loads "{} {}" = None /\ loads "" = None.
Proof. repeat split; vm_compute; reflexivity. Qed.

Example parse_json_output_repairs_keys :
  _parse_json_output ("{action_code: " ++ dq ++ "stop" ++ dq ++ "}")
  = JObj [("action_code", JStr "stop")].
Proof. vm_compute. reflexivity. Qed.

Example parse_json_output_triple_quotes :
  _parse_json_output ("The reply: " ++ triple_quotes ++ "json {" ++ dq ++ "a" ++ dq ++ ": 1} "
                        ++ triple_quotes)
  = JObj [("a", JInt 1)].
Proof. vm_compute. reflexivity. Qed.

(** ** Computations that leave a part of the state alone *)

Section Keeps.

Context {S T : Type} (part : S -> T).

Lemma keeps_ret {A : Type} (a : A) : keeps part (ret a).
Proof. intro s. reflexivity. Qed.

Lemma keeps_raise {A : Type} (e : Exn) : keeps part (raise (A := A) e).
Proof. intro s. reflexivity. Qed.

Lemma keeps_of_res {A : Type} (r : Res A) : keeps part (of_res r).
Proof. intro s. reflexivity. Qed.

Lemma keeps_get : keeps part get.
Proof. intro s. reflexivity. Qed.

Lemma keeps_bind {A B : Type} (m : M S A) (k : A -> M S B) :
  keeps part m -> (forall a, keeps part (k a)) -> keeps part (bind m k).
Proof.
  intros Hm Hk s. unfold bind.
  specialize (Hm s). destruct (m s) as [[a | e] s1]; simpl in *.
  - rewrite Hk. exact Hm.
  - exact Hm.
Qed.

Lemma keeps_try_except {A : Type} (m : M S A) (h : Exn -> M S A) :
  keeps part m -> (forall e, keeps part (h e)) -> keeps part (try_except m h).
Proof.
  intros Hm Hh s. unfold try_except.
  specialize (Hm s). destruct (m s) as [[a | e] s1]; simpl in *.
  - exact Hm.
  - rewrite Hh. exact Hm.
Qed.

Lemma keeps_modify (f : S -> S) :
  (forall s, part (f s) = part s) -> keeps part (modify f).
Proof. intros Hf s. apply Hf. Qed.

End Keeps.

(** One step of a proof of [keeps]: the rule of the construct at the head
    of the computation, or a case analysis on what it branches on. *)
Ltac keeps_step :=
  match goal with
  | |- keeps _ (bind _ _) => apply keeps_bind
  | |- keeps _ (try_except _ _) => apply keeps_try_except
  | |- keeps _ (ret _) => apply keeps_ret
  | |- keeps _ (raise _) => apply keeps_raise
  | |- keeps _ (of_res _) => apply keeps_of_res
  | |- keeps _ get => apply keeps_get
  | |- keeps _ (match ?x with _ => _ end) => destruct x
  | |- keeps _ (let (_, _) := ?x in _) => destruct x
  | |- forall _, _ => intro
  end.

Create HintDb kept.

Section HistoryKept.

Context {W Elem Img : Type} {env : Env W Elem Img}.

Lemma kept_ext {A : Type} (op : W -> Res A * W) : keeps (@history_of W) (ext op).
Proof. intro s. unfold ext. destruct (op (world s)). reflexivity. Qed.

Lemma kept_update_browser (f : Browser -> Browser) :
  keeps (@history_of W) (update_browser f).
Proof. intro s. reflexivity. Qed.

Lemma kept_self_browser : keeps (@history_of W) self_browser.
Proof. intro s. reflexivity. Qed.

Hint Resolve kept_ext kept_update_browser kept_self_browser : kept.

Ltac kept_auto := repeat first [ solve [auto with kept] | keeps_step ].

Lemma kept_self_page : keeps (@history_of W) self_page.
Proof. unfold self_page. kept_auto. Qed.

Hint Resolve kept_self_page : kept.

Lemma kept_with_page {A : Type} (d : A) (body : Prog A) :
  keeps (@history_of W) body -> keeps (@history_of W) (with_page d body).
Proof. intro H. unfold with_page. kept_auto. Qed.

Lemma kept_or_false (body : Prog bool) :
  keeps (@history_of W) body -> keeps (@history_of W) (or_false body).
Proof. intro H. unfold or_false. kept_auto. Qed.

Ltac kept_method :=
  repeat first [ solve [auto with kept] | apply kept_with_page | apply kept_or_false
               | keeps_step ].

Lemma kept_init : keeps (@history_of W) init.
Proof. unfold init. kept_method. Qed.

Lemma kept_wait_for_load (t : Z) : keeps (@history_of W) (wait_for_load t).
Proof. unfold wait_for_load. kept_method. Qed.

Hint Resolve kept_init kept_wait_for_load : kept.

Lemma kept_visit_page (url : string) : keeps (@history_of W) (visit_page url).
Proof. unfold visit_page. kept_method. Qed.

Lemma kept_click_id (a : arg) : keeps (@history_of W) (click_id a).
Proof. unfold click_id. kept_method. Qed.

Lemma kept_click_first_visible (l : list string) :
  keeps (@history_of W) (click_first_visible l).
Proof. induction l as [|x l IH]; simpl; kept_method. Qed.

Lemma kept_visible_markers_info (l : list Elem) (i : nat) :
  keeps (@history_of W) (visible_markers_info i l).
Proof. revert i. induction l as [|x l IH]; intro i; simpl; kept_method. Qed.

Hint Resolve kept_visit_page kept_click_id kept_click_first_visible
     kept_visible_markers_info : kept.

Lemma kept_enter_street_view : keeps (@history_of W) enter_street_view.
Proof. unfold enter_street_view. kept_method. Qed.

Lemma kept_filter_visible (l : list Elem) : keeps (@history_of W) (filter_visible l).
Proof. induction l as [|x l IH]; simpl; kept_method. Qed.

Hint Resolve kept_enter_street_view kept_filter_visible : kept.

Lemma kept_click_marker (n : Z) : keeps (@history_of W) (click_marker n).
Proof. unfold click_marker. kept_method. Qed.

Lemma kept_street_view_move_forward : keeps (@history_of W) street_view_move_forward.
Proof. unfold street_view_move_forward. kept_method. Qed.

Lemma kept_street_view_move_backward : keeps (@history_of W) street_view_move_backward.
Proof. unfold street_view_move_backward. kept_method. Qed.

Hint Resolve kept_click_marker kept_street_view_move_forward
     kept_street_view_move_backward : kept.

Lemma kept_street_view_turn_left : keeps (@history_of W) street_view_turn_left.
Proof. unfold street_view_turn_left. kept_method. Qed.

Lemma kept_street_view_turn_right : keeps (@history_of W) street_view_turn_right.
Proof. unfold street_view_turn_right. kept_method. Qed.

Lemma kept_aria_labels_of (l : list Elem) : keeps (@history_of W) (aria_labels_of l).
Proof. induction l as [|x l IH]; simpl; kept_method. Qed.

Hint Resolve kept_street_view_turn_left kept_street_view_turn_right
     kept_aria_labels_of : kept.

Lemma kept_show_historical_dates : keeps (@history_of W) show_historical_dates.
Proof. unfold show_historical_dates. kept_method. Qed.

Hint Resolve kept_show_historical_dates : kept.

Lemma kept_select_historical_date (a : arg) :
  keeps (@history_of W) (select_historical_date a).
Proof. unfold select_historical_date. kept_method. Qed.

Lemma kept_flip_view : keeps (@history_of W) flip_view.
Proof. unfold flip_view. kept_method. Qed.

Lemma kept_move_left : keeps (@history_of W) move_left.
Proof. unfold move_left. kept_method. Qed.

Lemma kept_move_right : keeps (@history_of W) move_right.
Proof. unfold move_right. kept_method. Qed.

Lemma kept_scroll_up : keeps (@history_of W) scroll_up.
Proof. unfold scroll_up. kept_method. Qed.

Lemma kept_scroll_down : keeps (@history_of W) scroll_down.
Proof. unfold scroll_down. kept_method. Qed.

Lemma kept_back : keeps (@history_of W) back.
Proof. unfold back. kept_method. Qed.

Lemma kept_stop : keeps (@history_of W) stop.
Proof. unfold stop. kept_method. Qed.

Lemma kept_get_url : keeps (@history_of W) get_url.
Proof. unfold get_url. kept_method. Qed.

Lemma kept_find_text_on_page (a : arg) : keeps (@history_of W) (find_text_on_page a).
Proof. unfold find_text_on_page. kept_method. Qed.

Lemma kept_click_blank_area : keeps (@history_of W) click_blank_area.
Proof. unfold click_blank_area. kept_method. Qed.

Lemma kept_close : keeps (@history_of W) close.
Proof. unfold close. kept_method. Qed.

Hint Resolve kept_select_historical_date kept_flip_view kept_move_left
     kept_move_right kept_scroll_up kept_scroll_down kept_back kept_stop
     kept_get_url kept_find_text_on_page kept_click_blank_area kept_close : kept.

Lemma kept_call_method (f : string) : keeps (@history_of W) (call_method f).
Proof. unfold call_method, lift_bool. kept_method. Qed.

Lemma kept_self_start_url : keeps (@history_of W) self_start_url.
Proof. unfold self_start_url. kept_method. Qed.

Lemma kept_self_history : keeps (@history_of W) self_history.
Proof. unfold self_history. kept_method. Qed.

Hint Resolve kept_call_method kept_self_start_url kept_self_history : kept.

(** [act] never touches the history. *)
Lemma kept_act (code : string) : keeps (@history_of W) (act code).
Proof. unfold act, execute. kept_method. Qed.

Lemma kept_dict_get (d : value) (k : string) (v : value) :
  keeps (@history_of W) (dict_get d k v).
Proof. unfold dict_get. kept_method. Qed.

Lemma kept_as_str (v : value) : keeps (@history_of W) (as_str v).
Proof. unfold as_str. kept_method. Qed.

Hint Resolve kept_act kept_dict_get kept_as_str : kept.

(** [observe] never touches the history. *)
Lemma kept_observe (task : string) : keeps (@history_of W) (observe task).
Proof. unfold observe. kept_method. Qed.

(** [_generate_final_answer] never touches the history. *)
Lemma kept_generate_final_answer (task : string) :
  keeps (@history_of W) (_generate_final_answer task).
Proof. unfold _generate_final_answer. kept_method. Qed.

End HistoryKept.

(** ** The step budget (C1) *)

Section StepBudget.

Context {W Elem Img : Type} {env : Env W Elem Img}.

(** One iteration of the loop, case by case. *)
Lemma run_steps_iteration (task : string) (n i : nat) (s : State W) :
  run_steps task (S n) i s =
  match observe task s with
  | (Raise e, s1) => (Raise e, s1)
  | (Ok (obs, rsn, code), s1) =>
      if String.eqb code "final_answer" then (Ok (Returned rsn), s1)
      else if in_list (lower code) ["stop"; "exit"; "done"]
      then (Ok Broke, recorded (mkStepInfo i obs rsn code (Some "stopped") None) s1)
      else
        match act code s1 with
        | (Raise e, s2) => (Raise e, s2)
        | (Ok (ok, info), s2) =>
            let s3 := recorded (mkStepInfo i obs rsn code None (Some (ok, info))) s2 in
            if (contains "stop" (lower info) || contains "done" (lower info))%bool
            then (Ok Broke, s3)
            else run_steps task n (S i) s3
        end
  end.
Proof.
  cbn [run_steps]. unfold bind at 1.
  destruct (observe task s) as [[[[obs rsn] code] | e] s1]; [|reflexivity].
  destruct (String.eqb code "final_answer"); [reflexivity|].
  destruct (in_list (lower code) ["stop"; "exit"; "done"]); [reflexivity|].
  unfold bind at 1.
  destruct (act code s1) as [[[ok info] | e] s2]; [|reflexivity].
  unfold bind at 1. cbn [update_agent modify].
  destruct (contains "stop" (lower info) || contains "done" (lower info))%bool;
    reflexivity.
Qed.

(** What the loop appends: at most one record per iteration left, and one
    per iteration when it runs [range(MAX_STEPS)] to its end. *)
Lemma run_steps_appends (task : string) (n : nat) :
  forall (i : nat) (s : State W),
  exists appended,
    history_of (snd (run_steps task n i s)) = (history_of s ++ appended)%list
    /\ List.length appended <= n
    /\ (fst (run_steps task n i s) = Ok Exhausted -> List.length appended = n).
Proof.
  induction n as [|n IH]; intros i s.
  - exists []. simpl. rewrite app_nil_r. auto.
  - rewrite run_steps_iteration.
    pose proof (kept_observe task s) as Ho.
    destruct (observe task s) as [[[[obs rsn] code] | e] s1]; simpl in Ho.
    2:{ exists []. simpl. rewrite app_nil_r, Ho. repeat split; [lia | discriminate]. }
    destruct (String.eqb code "final_answer").
    { exists []. simpl. rewrite app_nil_r, Ho. repeat split; [lia | discriminate]. }
    destruct (in_list (lower code) ["stop"; "exit"; "done"]).
    { exists [mkStepInfo i obs rsn code (Some "stopped") None].
      cbn. unfold history_of in *. cbn. rewrite Ho.
      repeat split; [lia | discriminate]. }
    pose proof (kept_act code s1) as Ha.
    destruct (act code s1) as [[[ok info] | e] s2]; simpl in Ha.
    2:{ exists []. simpl. rewrite app_nil_r, Ha, Ho. repeat split; [lia | discriminate]. }
    set (r := mkStepInfo i obs rsn code None (Some (ok, info))).
    cbv zeta.
    assert (H3 : history_of (recorded r s2) = (history_of s ++ [r])%list).
    { unfold recorded, history_of in *. cbn. rewrite Ha, Ho. reflexivity. }
    destruct (contains "stop" (lower info) || contains "done" (lower info))%bool.
    { exists [r]. cbn [fst snd]. rewrite H3.
      repeat split; [simpl; lia | discriminate]. }
    destruct (IH (S i) (recorded r s2)) as (app & Happ & Hlen & Hex).
    exists (r :: app). rewrite Happ, H3, <- app_assoc. simpl.
    repeat split; [lia | intro H; rewrite (Hex H); reflexivity].
Qed.

(** [_generate_final_answer] always returns a string, and never raises. *)
Lemma generate_final_answer_returns (task : string) (s : State W) :
  exists answer s', _generate_final_answer task s = (Ok (JStr answer), s')
                    /\ history_of s' = history_of s.
Proof.
  pose proof (kept_generate_final_answer task s) as Hk.
  unfold _generate_final_answer in *.
  unfold self_history, bind, try_except, ext, get, ret in *.
  destruct (model_step _ (world s)) as [[c | e] w]; cbn in *; eauto.
Qed.

Lemma kept_session_start (url : string) : keeps (@history_of W) (session_start url).
Proof.
  unfold session_start.
  apply keeps_bind; [intro s; reflexivity | intros _].
  apply keeps_bind; [apply kept_init | intros _; apply kept_visit_page].
Qed.

(** [run_task], split at the loop. *)
Lemma run_task_unfold (task url : string) (s : State W) :
  run_task task url s =
  match session_start url s with
  | (Raise e, s1) => (Raise e, s1)
  | (Ok _, s1) =>
      match run_steps task MAX_STEPS 0 s1 with
      | (Raise e, s2) => (Raise e, s2)
      | (Ok e, s2) => after_loop task e s2
      end
  end.
Proof.
  unfold run_task, session_start, bind.
  destruct (update_agent (set_start_url url) s) as [[[]|e0] s0]; [|reflexivity].
  destruct (init s0) as [[[]|e1] s1]; [|reflexivity].
  destruct (visit_page url s1) as [[[]|e2] s2]; reflexivity.
Qed.


End StepBudget.

(** ** The loop, step by step (C10, C7, C6) *)

Section LoopSteps.

Context {W Elem Img : Type} {env : Env W Elem Img}.

Lemma run_task_rest (task url : string) (s s1 : State W) :
  session_start url s = (Ok tt, s1) ->
  run_task task url s = rest_of_run task MAX_STEPS 0 s1.
Proof. intro H. rewrite run_task_unfold, H. reflexivity. Qed.

(** C10. After an action that is no termination decision and that [act]
    executed with success, a result description with stop or done in it
    (whatever the case of the letters) ends the loop: the record is appended,
    the loop breaks, and the session's answer is the one
    [_generate_final_answer] makes, though the oracle asked for no
    termination. *)
Theorem stop_word_in_result_ends_loop
  (task : string) (n i : nat) (s s1 s2 : State W)
  (obs rsn : value) (code info : string) :
  observe task s = (Ok (obs, rsn, code), s1) ->
  code <> "final_answer" ->
  in_list (lower code) ["stop"; "exit"; "done"] = false ->
  act code s1 = (Ok (true, info), s2) ->
  contains "stop" (lower info) = true \/ contains "done" (lower info) = true ->
  let s3 := recorded (mkStepInfo i obs rsn code None (Some (true, info))) s2 in
  run_steps task (S n) i s = (Ok Broke, s3)
  /\ rest_of_run task (S n) i s = _generate_final_answer task s3.
Proof.
  intros Ho Hfinal Hstop Ha Hword s3.
  assert (Hrun : run_steps task (S n) i s = (Ok Broke, s3)).
  { rewrite run_steps_iteration, Ho.
    destruct (String.eqb_spec code "final_answer") as [->|_]; [congruence|].
    rewrite Hstop, Ha. cbv zeta.
    replace (contains "stop" (lower info) || contains "done" (lower info))%bool
      with true; [reflexivity|].
    destruct Hword as [-> | ->]; [reflexivity | symmetry; apply orb_true_r]. }
  split; [exact Hrun|].
  unfold rest_of_run, bind. rewrite Hrun. reflexivity.
Qed.

(** An action code whose argument makes [int] raise is refused with the
    message of the exception, before its name is looked at. *)
Lemma act_parse_error (code : string) (s : State W) (e : Exn) :
  in_list (lower (strip code)) stop_words = false ->
  snd (parse_action (strip code)) = Raise e ->
  act code s = (Ok (false, e), s).
Proof.
  intros Hstop Hparsed. unfold act. rewrite Hstop. unfold try_except.
  destruct (parse_action (strip code)) as [f a]. cbn [snd] in Hparsed. subst a.
  reflexivity.
Qed.

(** An action code whose argument is read, whose name is not in
    [GOOGLE_MAPS_ACTIONS], and that is no stop word, is refused without a
    call of the browser. *)
Lemma act_invalid (code : string) (s : State W) (a : option arg) :
  in_list (lower (strip code)) stop_words = false ->
  snd (parse_action (strip code)) = Ok a ->
  in_list (fst (parse_action (strip code))) GOOGLE_MAPS_ACTIONS = false ->
  act code s = (Ok (false, "Invalid action: " ++ fst (parse_action (strip code))), s).
Proof.
  intros Hstop Hparsed Hname. unfold act. rewrite Hstop. unfold try_except.
  destruct (parse_action (strip code)) as [f r]. cbn [fst snd] in *. subst r.
  unfold bind, of_res, execute. rewrite Hname. reflexivity.
Qed.

(** [observe] on an open page, up to the reply of the model. *)
Lemma observe_unfold (task : string) (s : State W) (p : Handle)
  (shot img : Img) (w1 w2 : W) :
  page (browser (agent s)) = Some p ->
  page_screenshot (world s) = (Ok shot, w1) ->
  image_open shot w1 = (Ok img, w2) ->
  observe task s =
  match model_step (observe_message task (history_of s) img) w2 with
  | (Raise e, w3) => (Raise e, mkState (agent s) w3)
  | (Ok content, w3) =>
      try_except
        (let resp_dict := _parse_json_output content in
         code <- dict_get resp_dict "action_code" (JStr "") ;;
         code <- as_str code ;;
         if String.eqb (lower code) "final_answer" then
           answer <- dict_get resp_dict "answer" (JStr "") ;;
           ret (JStr "", answer, strip code)
         else
           observation <- dict_get resp_dict "observation" (JStr "") ;;
           reasoning <- dict_get resp_dict "reasoning" (JStr "") ;;
           ret (observation, reasoning, strip code))%prog
        (fun _ => ret (JStr "", JStr "", "")) (mkState (agent s) w3)
  end.
Proof.
  intros Hp Hs Hi. unfold observe, observe_message, history_of.
  unfold bind at 1. unfold self_page, self_browser, bind at 1. cbn [ret].
  rewrite Hp. unfold bind at 1. unfold ext at 1. rewrite Hs. cbn [world agent].
  unfold bind at 1. unfold ext at 1. cbn [world agent]. rewrite Hi.
  unfold bind at 1. unfold self_history, bind at 1, get, ret. cbn [world agent].
  unfold bind at 1. unfold ext at 1. cbn [world agent].
  destruct (model_step _ w2) as [[content|e] w3]; reflexivity.
Qed.

(** C7, as the code has it.  The oracle is called once per iteration and
    never called again within it.  When the call raises (a transport
    failure), the exception leaves the loop and [run_task] at once, in the
    state that one call left.  When the reply cannot be parsed, or is
    parsed to something that is not an object (a format failure), no action
    code comes out of it: the step is recorded as the failed dispatch of an
    empty action and the loop goes on to its next iteration, where the
    oracle is asked again, within the step budget. *)
Theorem oracle_failure_not_retried
  (task : string) (n i : nat) (s : State W) (p : Handle)
  (shot img : Img) (w1 w2 w3 : W) (r : Res string) :
  page (browser (agent s)) = Some p ->
  page_screenshot (world s) = (Ok shot, w1) ->
  image_open shot w1 = (Ok img, w2) ->
  model_step (observe_message task (history_of s) img) w2 = (r, w3) ->
  match r with
  | Raise e =>
      observe task s = (Raise e, mkState (agent s) w3)
      /\ run_steps task (S n) i s = (Raise e, mkState (agent s) w3)
      /\ rest_of_run task (S n) i s = (Raise e, mkState (agent s) w3)
  | Ok content =>
      _parse_json_output content = parse_error
      \/ (forall d, _parse_json_output content <> JObj d) ->
      observe task s = (Ok (JStr "", JStr "", ""), mkState (agent s) w3)
      /\ run_steps task (S n) i s =
         run_steps task n (S i)
           (recorded (mkStepInfo i (JStr "") (JStr "") "" None
                                 (Some (false, "Invalid action: ")))
                     (mkState (agent s) w3))
  end.
Proof.
  intros Hp Hs Hi Hm.
  pose proof (observe_unfold task s p shot img w1 w2 Hp Hs Hi) as Ho.
  rewrite Hm in Ho. destruct r as [content|e].
  - intro Hparse.
    assert (Ho' : observe task s = (Ok (JStr "", JStr "", ""), mkState (agent s) w3)).
    { rewrite Ho. destruct Hparse as [-> | Hnot]; [reflexivity|].
      destruct (_parse_json_output content) as [| | | | | |d]; try reflexivity.
      elim (Hnot d). reflexivity. }
    clear Ho. rename Ho' into Ho.
    split; [exact Ho|].
    rewrite run_steps_iteration, Ho. cbn [String.eqb Ascii.eqb Bool.eqb].
    change (in_list (lower "") ["stop"; "exit"; "done"]) with false. cbv iota.
    rewrite (act_invalid "" _ None) by reflexivity. reflexivity.
  - split; [exact Ho|].
    assert (Hr : run_steps task (S n) i s = (Raise e, mkState (agent s) w3)).
    { rewrite run_steps_iteration, Ho. reflexivity. }
    split; [exact Hr|]. unfold rest_of_run, bind. rewrite Hr. reflexivity.
Qed.

(** C6, as the code has it.  When the session cannot be started, because
    [init] raises (the browser cannot be launched) or because the first
    [visit_page] raises (the start URL cannot be loaded), [run_task] raises
    that very exception, in the state the failure left: no step is recorded
    and no answer string is returned; [run_google_maps_task_api] raises it
    too. *)
Theorem init_failure_is_raised
  (task url : string) (s s1 : State W) (e : Exn) :
  let s0 := mkState (set_start_url url (agent s)) (world s) in
  init s0 = (Raise e, s1)
  \/ (exists s', init s0 = (Ok tt, s') /\ visit_page url s' = (Raise e, s1)) ->
  run_task task url s = (Raise e, s1)
  /\ history_of s1 = history_of s
  /\ (forall w, construct (mkState (new_agent false None) w) = (Ok tt, s) ->
                run_google_maps_task_api task url w = (Raise e, s1)).
Proof.
  intros s0 H.
  assert (Hstart : session_start url s = (Raise e, s1)).
  { unfold session_start, bind. cbn [update_agent modify]. fold s0.
    destruct H as [-> | (s' & -> & ->)]; reflexivity. }
  assert (Hrun : run_task task url s = (Raise e, s1)).
  { rewrite run_task_unfold, Hstart. reflexivity. }
  split; [exact Hrun|]. split.
  - pose proof (kept_session_start url s) as Hk. rewrite Hstart in Hk. exact Hk.
  - intros w Hw. unfold run_google_maps_task_api, bind. rewrite Hw, Hrun. reflexivity.
Qed.

(** A name that is not registered, with an argument that is read, is
    refused, the refusal is recorded, and the loop goes on to its next
    iteration, unless the description of the refusal has stop or done in
    it. *)
Lemma invalid_action_is_recorded
  (task : string) (n i : nat) (s s1 : State W) (obs rsn : value) (code : string)
  (a : option arg) :
  observe task s = (Ok (obs, rsn, code), s1) ->
  code <> "final_answer" ->
  in_list (lower code) ["stop"; "exit"; "done"] = false ->
  in_list (lower (strip code)) stop_words = false ->
  snd (parse_action (strip code)) = Ok a ->
  in_list (fst (parse_action (strip code))) GOOGLE_MAPS_ACTIONS = false ->
  let info := "Invalid action: " ++ fst (parse_action (strip code)) in
  (contains "stop" (lower info) || contains "done" (lower info))%bool = false ->
  run_steps task (S n) i s =
  run_steps task n (S i) (recorded (mkStepInfo i obs rsn code None (Some (false, info))) s1).
Proof.
  intros Ho Hfinal Hstop Hword Hparsed Hname info Hinfo.
  rewrite run_steps_iteration, Ho.
  destruct (String.eqb_spec code "final_answer") as [->|_]; [congruence|].
  rewrite Hstop, (act_invalid code s1 a Hword Hparsed Hname). cbv zeta.
  fold info. rewrite Hinfo. reflexivity.
Qed.

(** [GoogleMapsBrowser.close] never raises. *)
Lemma close_returns (s : State W) : exists s', close s = (Ok tt, s').
Proof.
  unfold close, try_except, ret.
  match goal with
  | |- exists s', match ?m s with _ => _ end = _ =>
      destruct (m s) as [[[]|e] s1]
  end.
  - exists s1. reflexivity.
  - exists s1. reflexivity.
Qed.

(** The tool, by the way [run_task] ends: the agent is closed after an
    answer, and not after an exception. *)
Lemma run_google_maps_task_api_cases (task url : string) (w : W) (s : State W) :
  construct (mkState (new_agent false None) w) = (Ok tt, s) ->
  match run_task task url s with
  | (Ok answer, s1) =>
      exists s2, agent_close s1 = (Ok tt, s2)
                 /\ run_google_maps_task_api task url w = (Ok answer, s2)
  | (Raise e, s1) => run_google_maps_task_api task url w = (Raise e, s1)
  end.
Proof.
  intro Hc. unfold run_google_maps_task_api, bind. rewrite Hc.
  destruct (run_task task url s) as [[answer|e] s1]; [|reflexivity].
  destruct (close_returns s1) as (s2 & H2). exists s2.
  unfold agent_close. rewrite H2. auto.
Qed.

End LoopSteps.

(** ** Facts about the string functions *)

Lemma is_word_not_space (c : ascii) : is_word c = true -> is_space c = false.
Proof. destruct c as [[] [] [] [] [] [] [] []]; vm_compute; congruence. Qed.

Lemma is_digit_is_word (c : ascii) : is_digit c = true -> is_word c = true.
Proof. destruct c as [[] [] [] [] [] [] [] []]; vm_compute; congruence. Qed.

Lemma is_digit_not_paren (c : ascii) : is_digit c = true -> Ascii.eqb c ")" = false.
Proof. destruct c as [[] [] [] [] [] [] [] []]; vm_compute; congruence. Qed.

Lemma is_digit_not_quote (c : ascii) : is_digit c = true -> is_quote c = false.
Proof. destruct c as [[] [] [] [] [] [] [] []]; vm_compute; congruence. Qed.

Lemma is_quote_not_space (c : ascii) : is_quote c = true -> is_space c = false.
Proof. destruct c as [[] [] [] [] [] [] [] []]; vm_compute; congruence. Qed.

Lemma is_quote_not_digit (c : ascii) : is_quote c = true -> is_digit c = false.
Proof. destruct c as [[] [] [] [] [] [] [] []]; vm_compute; congruence. Qed.

Lemma is_quote_not_paren (c : ascii) : is_quote c = true -> Ascii.eqb c ")" = false.
Proof. destruct c as [[] [] [] [] [] [] [] []]; vm_compute; congruence. Qed.

Lemma is_quote_not_sign (c : ascii) :
  is_quote c = true -> Ascii.eqb c "-" = false /\ Ascii.eqb c "+" = false.
Proof. destruct c as [[] [] [] [] [] [] [] []]; vm_compute; split; congruence. Qed.

Lemma all_chars_impl (p q : ascii -> bool) (s : string) :
  (forall c, p c = true -> q c = true) ->
  all_chars p s = true -> all_chars q s = true.
Proof.
  intro H. induction s as [|c r IH]; simpl; [reflexivity|].
  intro Hs. apply andb_true_iff in Hs as [Hc Hr].
  rewrite (H c Hc), (IH Hr). reflexivity.
Qed.

Lemma all_chars_app (p : ascii -> bool) (a b : string) :
  all_chars p (a ++ b) = (all_chars p a && all_chars p b)%bool.
Proof. induction a as [|c r IH]; simpl; [reflexivity|]. rewrite IH. apply andb_assoc. Qed.

(** A greedy run stops at the first character outside the class. *)
Lemma span_stops (p : ascii -> bool) (a : string) (c : ascii) (rest : string) :
  all_chars p a = true -> p c = false ->
  span p (a ++ String c rest) = (a, String c rest).
Proof.
  intros Ha Hc. induction a as [|x r IH]; simpl in *.
  - rewrite Hc. reflexivity.
  - apply andb_true_iff in Ha as [Hx Hr]. rewrite Hx, (IH Hr). reflexivity.
Qed.

Lemma span_all (p : ascii -> bool) (a : string) :
  all_chars p a = true -> span p a = (a, "").
Proof.
  intros Ha. induction a as [|x r IH]; simpl in *; [reflexivity|].
  apply andb_true_iff in Ha as [Hx Hr]. rewrite Hx, (IH Hr). reflexivity.
Qed.

Lemma lstrip_nonspace (c : ascii) (r : string) :
  is_space c = false -> lstrip (String c r) = String c r.
Proof. intro H. unfold lstrip. simpl. rewrite H. reflexivity. Qed.

Lemma rstrip_nonempty (s : string) (c : ascii) :
  is_space c = false -> rstrip (s ++ String c "") = s ++ String c "".
Proof.
  intro H. induction s as [|x r IH]; simpl.
  - rewrite H. reflexivity.
  - rewrite IH. destruct r; reflexivity.
Qed.

(** A text with no whitespace at either end is its own [strip]. *)
Lemma strip_tight (a : ascii) (s : string) (z : ascii) :
  is_space a = false -> is_space z = false ->
  strip (String a (s ++ String z "")) = String a (s ++ String z "").
Proof.
  intros Ha Hz. unfold strip. rewrite lstrip_nonspace by exact Ha.
  exact (rstrip_nonempty (String a s) z Hz).
Qed.

Lemma rstrip_no_space (s : string) :
  all_chars (fun c => negb (is_space c)) s = true -> rstrip s = s.
Proof.
  induction s as [|c r IH]; simpl; [reflexivity|].
  intro H. apply andb_true_iff in H as [Hc Hr]. rewrite (IH Hr).
  destruct r; [|reflexivity]. apply negb_true_iff in Hc. rewrite Hc. reflexivity.
Qed.

Lemma strip_no_space (s : string) :
  all_chars (fun c => negb (is_space c)) s = true -> strip s = s.
Proof.
  intro H. unfold strip, lstrip.
  destruct s as [|c r]; [reflexivity|].
  pose proof H as H'. simpl in H'. apply andb_true_iff in H' as [Hc _].
  apply negb_true_iff in Hc. simpl. rewrite Hc. simpl.
  exact (rstrip_no_space (String c r) H).
Qed.

Lemma strip_word (s : string) : all_chars is_word s = true -> strip s = s.
Proof.
  intro H. apply strip_no_space. revert H. apply all_chars_impl.
  intros c Hc. rewrite (is_word_not_space c Hc). reflexivity.
Qed.

Lemma lower_length (s : string) : String.length (lower s) = String.length s.
Proof. induction s as [|c r IH]; simpl; congruence. Qed.

Lemma app_length (a b : string) :
  String.length (a ++ b) = String.length a + String.length b.
Proof. induction a as [|c r IH]; simpl; congruence. Qed.

Lemma stop_word_length (x : string) :
  in_list x stop_words = true -> String.length x = 4.
Proof.
  unfold in_list, stop_words. simpl. rewrite orb_false_r.
  intro H. apply orb_true_iff in H as [H|H]; [|apply orb_true_iff in H as [H|H]];
    apply String.eqb_eq in H; subst; reflexivity.
Qed.

(** [match_call] on a well-formed invocation. *)
Lemma match_call_invocation (name args rest : string) :
  name <> "" -> all_chars is_word name = true ->
  all_chars (fun c => negb (Ascii.eqb c ")")) args = true ->
  match_call (name ++ String "(" (args ++ String ")" rest)) = Some (name, args).
Proof.
  intros Hne Hw Ha. unfold match_call.
  rewrite (span_stops is_word name "(" _ Hw eq_refl).
  destruct name as [|c r]; [congruence|].
  rewrite (span_stops _ args ")" rest Ha eq_refl). reflexivity.
Qed.

Lemma parse_action_invocation (name args : string) :
  name <> "" -> all_chars is_word name = true ->
  all_chars (fun c => negb (Ascii.eqb c ")")) args = true ->
  parse_action (name ++ String "(" (args ++ ")")) = (name, parse_argument (strip args)).
Proof.
  intros Hne Hw Ha. unfold parse_action.
  rewrite (match_call_invocation name args "" Hne Hw Ha).
  rewrite (strip_word name Hw). reflexivity.
Qed.

Lemma isdigit_all (ds : string) : isdigit ds = true -> all_chars is_digit ds = true.
Proof. destruct ds; [discriminate | intro H; exact H]. Qed.

Lemma int_body_digits (ds : string) :
  all_chars is_digit ds = true ->
  forall acc b, int_body acc b ds = if (b || negb (String.eqb ds ""))%bool
                                    then Some (digits_val acc ds) else None.
Proof.
  induction ds as [|c r IH]; intros H acc b.
  - simpl. rewrite orb_false_r. destruct b; reflexivity.
  - simpl in H. apply andb_prop in H as [Hc Hr]. simpl. rewrite Hc.
    rewrite (IH Hr). simpl. rewrite orb_true_r. reflexivity.
Qed.

Lemma count_digits_all (ds : string) :
  all_chars is_digit ds = true -> count_digits ds = String.length ds.
Proof.
  induction ds as [|c r IH]; [reflexivity|]. simpl. intro H.
  apply andb_prop in H as [Hc Hr]. rewrite Hc, (IH Hr). reflexivity.
Qed.

Lemma is_digit_not_c_space (c : ascii) : is_digit c = true -> is_c_space c = false.
Proof.
  destruct c as [[] [] [] [] [] [] [] []]; vm_compute; intro H;
    first [reflexivity | discriminate H].
Qed.

Lemma split_sign_digit (c : ascii) (r : string) :
  is_digit c = true -> split_sign (String c r) = (false, String c r).
Proof.
  destruct c as [[] [] [] [] [] [] [] []]; vm_compute; intro H;
    first [reflexivity | discriminate H].
Qed.

(** [int] on a string of digits: its value, unless the digits are too
    many. *)
Lemma int_of_str_digits (ds : string) :
  isdigit ds = true ->
  int_of_str ds =
  if (int_max_str_digits <? Z.of_nat (String.length ds))%Z
  then Raise (int_limit_error (String.length ds))
  else Ok (digits_val 0 ds).
Proof.
  intro H. pose proof (isdigit_all ds H) as Hall.
  destruct ds as [|c r]; [discriminate|].
  pose proof Hall as Hall'. simpl in Hall'. apply andb_prop in Hall' as [Hc _].
  unfold int_of_str.
  replace (span is_c_space (String c r)) with ("", String c r)
    by (simpl; rewrite (is_digit_not_c_space c Hc); reflexivity).
  cbn [snd]. rewrite (split_sign_digit c r Hc).
  rewrite (span_all (fun x => (is_digit x || Nat.eqb (code x) 95)%bool) (String c r))
    by (revert Hall; apply all_chars_impl; intros x Hx; rewrite Hx; reflexivity).
  rewrite (int_body_digits (String c r) Hall), (count_digits_all (String c r) Hall).
  cbn [orb negb String.eqb].
  destruct (int_max_str_digits <? Z.of_nat (String.length (String c r)))%Z; reflexivity.
Qed.

(** [int] on a minus sign followed by digits. *)
Lemma int_of_str_negative (ds : string) :
  isdigit ds = true ->
  int_of_str (String "-" ds) =
  if (int_max_str_digits <? Z.of_nat (String.length ds))%Z
  then Raise (int_limit_error (String.length ds))
  else Ok (- digits_val 0 ds)%Z.
Proof.
  intro H. pose proof (isdigit_all ds H) as Hall.
  destruct ds as [|c r]; [discriminate|].
  unfold int_of_str.
  replace (span is_c_space (String "-" (String c r))) with ("", String "-" (String c r))
    by reflexivity.
  cbn [snd]. replace (split_sign (String "-" (String c r))) with (true, String c r)
    by reflexivity.
  rewrite (span_all (fun x => (is_digit x || Nat.eqb (code x) 95)%bool) (String c r))
    by (revert Hall; apply all_chars_impl; intros x Hx; rewrite Hx; reflexivity).
  rewrite (int_body_digits (String c r) Hall), (count_digits_all (String c r) Hall).
  cbn [orb negb String.eqb].
  destruct (int_max_str_digits <? Z.of_nat (String.length (String c r)))%Z; reflexivity.
Qed.

(** A digit string is read as an integer, unless its digits are too many
    for [int]. *)
Lemma parse_argument_digits (ds : string) :
  isdigit ds = true ->
  strip ds = ds
  /\ parse_argument ds =
     (if (int_max_str_digits <? Z.of_nat (String.length ds))%Z
      then Raise (int_limit_error (String.length ds))
      else Ok (Some (AInt (digits_val 0 ds))))
  /\ all_chars (fun c => negb (Ascii.eqb c ")")) ds = true.
Proof.
  intro H. pose proof (isdigit_all ds H) as Hall. split; [|split].
  - apply strip_word. revert Hall. apply all_chars_impl, is_digit_is_word.
  - unfold parse_argument. rewrite H, (int_of_str_digits ds H).
    destruct ds; [discriminate|].
    destruct (int_max_str_digits <? Z.of_nat (String.length (String a ds)))%Z; reflexivity.
  - revert Hall. apply all_chars_impl. intros c Hc.
    rewrite (is_digit_not_paren c Hc). reflexivity.
Qed.

(** A quoted digit string is read as a string. *)
Lemma parse_argument_quoted_digits (q1 q2 : ascii) (ds : string) :
  is_quote q1 = true -> is_quote q2 = true -> isdigit ds = true ->
  let quoted := String q1 (ds ++ String q2 "") in
  strip quoted = quoted /\ parse_argument quoted = Ok (Some (AStr ds))
  /\ all_chars (fun c => negb (Ascii.eqb c ")")) quoted = true.
Proof.
  intros H1 H2 H. pose proof (isdigit_all ds H) as Hall. cbv zeta. split; [|split].
  - apply strip_tight; apply is_quote_not_space; assumption.
  - unfold parse_argument, isdigit. cbn [all_chars].
    rewrite (is_quote_not_digit q1 H1). cbn [andb].
    unfold match_quoted. rewrite H1.
    rewrite (span_stops (fun c => negb (is_quote c)) ds q2 "").
    + reflexivity.
    + revert Hall. apply all_chars_impl. intros c Hc.
      rewrite (is_digit_not_quote c Hc). reflexivity.
    + rewrite H2. reflexivity.
  - cbn [all_chars]. rewrite (is_quote_not_paren q1 H1). cbn [negb andb].
    rewrite all_chars_app. cbn [all_chars].
    rewrite (is_quote_not_paren q2 H2). cbn [negb andb]. rewrite andb_true_r.
    revert Hall. apply all_chars_impl. intros c Hc.
    rewrite (is_digit_not_paren c Hc). reflexivity.
Qed.

Lemma append_assoc (a b c : string) : (a ++ b) ++ c = a ++ (b ++ c).
Proof. induction a as [|x r IH]; simpl; congruence. Qed.

Lemma append_nil_r (a : string) : a ++ "" = a.
Proof. induction a as [|x r IH]; simpl; congruence. Qed.

Lemma lower_app (a b : string) : lower (a ++ b) = lower a ++ lower b.
Proof. induction a as [|c r IH]; simpl; congruence. Qed.

Lemma stop_word_is_word (x : string) :
  in_list x stop_words = true -> all_chars is_word x = true.
Proof.
  unfold in_list, stop_words. simpl. rewrite orb_false_r.
  intro H. apply orb_true_iff in H as [H|H]; [|apply orb_true_iff in H as [H|H]];
    apply String.eqb_eq in H; subst; reflexivity.
Qed.

(** An invocation with parentheses is no stop word. *)
Lemma invocation_not_stop_word (name tail : string) :
  in_list (lower (name ++ String "(" tail)) stop_words = false.
Proof.
  destruct (in_list (lower (name ++ String "(" tail)) stop_words) eqn:E; [|reflexivity].
  apply stop_word_is_word in E. rewrite lower_app, all_chars_app in E.
  simpl in E. rewrite andb_false_r in E. discriminate.
Qed.

Lemma strip_invocation (name tail : string) :
  name <> "" -> all_chars is_word name = true ->
  strip (name ++ String "(" (tail ++ ")")) = name ++ String "(" (tail ++ ")").
Proof.
  intros Hne Hw. destruct name as [|c r]; [congruence|].
  simpl in Hw. apply andb_true_iff in Hw as [Hc _].
  change (String c r ++ String "(" (tail ++ ")"))
    with (String c (r ++ String "(" (tail ++ String ")" ""))).
  replace (r ++ String "(" (tail ++ String ")" ""))
    with ((r ++ String "(" tail) ++ String ")" "").
  - apply strip_tight; [apply is_word_not_space; exact Hc | reflexivity].
  - rewrite append_assoc. reflexivity.
Qed.

(** ** The dispatcher (C2, C4, C9) *)

Section Dispatch.

Context {W Elem Img : Type} {env : Env W Elem Img}.

(** [act] on a well-formed invocation: the name and the parsed argument go
    to [execute]. *)
Lemma act_invocation (name args : string) (s : State W) :
  name <> "" -> all_chars is_word name = true ->
  all_chars (fun c => negb (Ascii.eqb c ")")) args = true ->
  act (name ++ String "(" (args ++ ")")) s =
  try_except (arg_value <- of_res (parse_argument (strip args)) ;;
              execute name arg_value)%prog
             (fun e => ret (false, e)) s.
Proof.
  intros Hne Hw Ha. unfold act.
  rewrite (strip_invocation name args Hne Hw).
  rewrite invocation_not_stop_word.
  rewrite (parse_action_invocation name args Hne Hw Ha). reflexivity.
Qed.

(** C2, where the code departs from it.  The prompt offers [get_url()] to
    the oracle and [GoogleMapsBrowser] has the method, but the name is not
    in [GOOGLE_MAPS_ACTIONS]: [act] refuses the invocation as an invalid
    action, in every state and without a call of the browser. *)
Theorem get_url_is_refused (s : State W) :
  contains "`get_url()`" GOOGLE_MAPS_ACTIONS_PROMPT = true
  /\ in_list "get_url" GOOGLE_MAPS_ACTIONS = false
  /\ act "get_url()" s = (Ok (false, "Invalid action: get_url"), s).
Proof.
  split; [vm_compute; reflexivity|]. split; [reflexivity|].
  apply (act_invalid "get_url()" s None); reflexivity.
Qed.

(** C4, as the code has it.  The argument of an invocation is coerced by
    its own shape, whatever the action: between the parentheses of any
    name, a digit string that [int] converts (at most 4300 digits) becomes
    an integer and a quoted digit string becomes a string.  So
    [select_historical_date] and [find_text_on_page] are called with an
    integer when given bare digits, and [click_marker] refuses quoted
    digits, as an invalid argument.  A digit string of more than 4300 digits
    makes [int] raise: [act] returns the message of the exception as a
    failure, whatever the name, and calls nothing. *)
Theorem argument_coercion_ignores_action (name ds : string) (s : State W) :
  name <> "" -> all_chars is_word name = true -> isdigit ds = true ->
  ((Z.of_nat (String.length ds) <= int_max_str_digits)%Z ->
     parse_action (name ++ String "(" (ds ++ ")"))
     = (name, Ok (Some (AInt (digits_val 0 ds))))
     /\ act ("select_historical_date(" ++ ds ++ ")") s =
        try_except
          (result <- select_historical_date (AInt (digits_val 0 ds)) ;;
           ret (result, "Selected historical date: " ++ str_of_int (digits_val 0 ds)))%prog
          (fun e => ret (false, e)) s
     /\ act ("find_text_on_page(" ++ ds ++ ")") s =
        try_except
          (result <- find_text_on_page (AInt (digits_val 0 ds)) ;;
           ret (result, "Searched text: " ++ str_of_int (digits_val 0 ds)))%prog
          (fun e => ret (false, e)) s)
  /\ ((int_max_str_digits < Z.of_nat (String.length ds))%Z ->
        parse_action (name ++ String "(" (ds ++ ")"))
        = (name, Raise (int_limit_error (String.length ds)))
        /\ act (name ++ String "(" (ds ++ ")")) s
           = (Ok (false, int_limit_error (String.length ds)), s))
  /\ (forall q1 q2, is_quote q1 = true -> is_quote q2 = true ->
        parse_action (name ++ String "(" (String q1 (ds ++ String q2 "") ++ ")"))
        = (name, Ok (Some (AStr ds))))
  /\ (forall q1 q2, is_quote q1 = true -> is_quote q2 = true ->
        act ("click_marker(" ++ String q1 (ds ++ String q2 "") ++ ")") s
        = (Ok (false, "Invalid argument for click_marker: " ++ ds), s)).
Proof.
  intros Hne Hw Hd.
  destruct (parse_argument_digits ds Hd) as (Hstrip & Hparse & Hparen).
  split; [|split; [|split]].
  - intro Hlen.
    destruct (Z.ltb_spec int_max_str_digits (Z.of_nat (String.length ds))) as [Hlt|_];
      [lia|].
    split; [|split].
    + rewrite (parse_action_invocation name ds Hne Hw Hparen), Hstrip, Hparse.
      reflexivity.
    + change ("select_historical_date(" ++ ds ++ ")")
        with ("select_historical_date" ++ String "(" (ds ++ ")")).
      rewrite act_invocation by (try discriminate; try reflexivity; exact Hparen).
      rewrite Hstrip, Hparse. reflexivity.
    + change ("find_text_on_page(" ++ ds ++ ")")
        with ("find_text_on_page" ++ String "(" (ds ++ ")")).
      rewrite act_invocation by (try discriminate; try reflexivity; exact Hparen).
      rewrite Hstrip, Hparse. reflexivity.
  - intro Hlen.
    destruct (Z.ltb_spec int_max_str_digits (Z.of_nat (String.length ds))) as [_|Hle];
      [|lia].
    split.
    + rewrite (parse_action_invocation name ds Hne Hw Hparen), Hstrip, Hparse.
      reflexivity.
    + rewrite (act_invocation name ds s Hne Hw Hparen), Hstrip, Hparse. reflexivity.
  - intros q1 q2 H1 H2.
    destruct (parse_argument_quoted_digits q1 q2 ds H1 H2 Hd) as (Hs & Hp & Hn).
    rewrite (parse_action_invocation name _ Hne Hw Hn), Hs, Hp. reflexivity.
  - intros q1 q2 H1 H2.
    destruct (parse_argument_quoted_digits q1 q2 ds H1 H2 Hd) as (Hs & Hp & Hn).
    change ("click_marker(" ++ String q1 (ds ++ String q2 "") ++ ")")
      with ("click_marker" ++ String "(" (String q1 (ds ++ String q2 "") ++ ")")).
    rewrite act_invocation by (try discriminate; try reflexivity; exact Hn).
    rewrite Hs, Hp. reflexivity.
Qed.

Lemma with_page_none {A : Type} (d : A) (body : Prog A) (s : State W) :
  no_page s -> with_page d body s = (Ok d, s).
Proof.
  intro H. unfold with_page, self_page, self_browser, bind, ret. rewrite H. reflexivity.
Qed.

Ltac no_page_method H :=
  match goal with
  | |- context [with_page ?d ?b ?s] => rewrite (with_page_none d b s H)
  end.

(** With no page, the dispatch of a registered action other than back and
    stop reports a failure and leaves the state alone. *)
Lemma execute_no_page (f : string) (a : option arg) (s : State W) :
  no_page s -> In f GOOGLE_MAPS_ACTIONS -> f <> "back" -> f <> "stop" ->
  try_except (execute f a) (fun e => ret (false, e)) s
  = (Ok (false, failure_detail f a), s).
Proof.
  intros Hp Hin Hb Hs.
  unfold GOOGLE_MAPS_ACTIONS in Hin. simpl in Hin.
  repeat (destruct Hin as [<- | Hin]); try contradiction; try congruence.
  all: destruct a as [[n|x]|].
  all: cbv beta iota delta [execute in_list existsb String.eqb Ascii.eqb Bool.eqb
         GOOGLE_MAPS_ACTIONS negb orb call_method lift_bool].
  all: unfold try_except, bind, raise, ret.
  all: unfold click_id, select_historical_date, find_text_on_page, click_marker,
         enter_street_view, street_view_move_forward, street_view_move_backward,
         street_view_turn_left, street_view_turn_right,
         show_historical_dates, flip_view, move_left, move_right, click_blank_area.
  all: try no_page_method Hp.
  all: reflexivity.
Qed.

Lemma lower_char_word (c : ascii) : is_word (lower_char c) = true -> is_word c = true.
Proof. destruct c as [[] [] [] [] [] [] [] []]; vm_compute; congruence. Qed.

Lemma lower_word (s : string) :
  all_chars is_word (lower s) = true -> all_chars is_word s = true.
Proof.
  induction s as [|c r IH]; simpl; [reflexivity|].
  intro H. apply andb_true_iff in H as [Hc Hr].
  rewrite (lower_char_word c Hc), (IH Hr). reflexivity.
Qed.

(** A stop word, in any case of its letters, is not parsed as a call: its
    function name is the word itself. *)
Lemma stop_word_parse (c : string) :
  in_list (lower c) stop_words = true -> parse_action c = (c, Ok None).
Proof.
  intro H. apply stop_word_is_word, lower_word in H.
  unfold parse_action, match_call. rewrite (span_all is_word c H).
  destruct c; reflexivity.
Qed.

Lemma registered_stop_word (c : string) :
  In c GOOGLE_MAPS_ACTIONS -> in_list (lower c) stop_words = true -> c = "stop".
Proof.
  intros Hin H. unfold GOOGLE_MAPS_ACTIONS in Hin. simpl in Hin.
  repeat (destruct Hin as [<- | Hin]); try contradiction;
    first [reflexivity | vm_compute in H; discriminate].
Qed.

End Dispatch.

(** ** The lateral moves (C3) *)

Section LateralMove.

Context {W Elem Img : Type} {env : Env W Elem Img}.

Variable hm : HeadingModel.

Lemma turn_left_rotation : street_view_turn_left = click_rotation counterclockwise_selector.
Proof. reflexivity. Qed.

Lemma turn_right_rotation : street_view_turn_right = click_rotation clockwise_selector.
Proof. reflexivity. Qed.

Lemma move_left_lateral : move_left = lateral street_view_turn_left street_view_turn_right.
Proof. reflexivity. Qed.

Lemma move_right_lateral : move_right = lateral street_view_turn_right street_view_turn_left.
Proof. reflexivity. Qed.

Lemma with_page_some {A : Type} (d : A) (body : Prog A) (s : State W) :
  has_page s -> with_page d body s = body s.
Proof.
  intros [p H]. unfold with_page, self_page, self_browser, bind, ret.
  rewrite H. reflexivity.
Qed.

Lemma kept_agent_ext {A : Type} (op : W -> Res A * W) : keeps agent (ext op).
Proof. intro s. unfold ext. destruct (op (world s)). reflexivity. Qed.

Lemma kept_agent_self_page : keeps (agent (W := W)) self_page.
Proof. intro s. reflexivity. Qed.

Ltac agent_auto :=
  repeat first [ apply kept_agent_ext | apply kept_agent_self_page | keeps_step ].

Lemma kept_agent_click_rotation (sel : string) : keeps agent (click_rotation sel).
Proof. unfold click_rotation, with_page, or_false. agent_auto. Qed.

Lemma kept_agent_move_forward : keeps agent street_view_move_forward.
Proof. unfold street_view_move_forward, with_page, or_false. agent_auto. Qed.

Lemma has_page_kept {A : Type} (m : Prog A) (s : State W) :
  keeps agent m -> has_page s -> has_page (snd (m s)).
Proof. intros Hk [p Hp]. exists p. rewrite (Hk s). exact Hp. Qed.

(** A click on the centre of the view does not turn it, whether it moves
    the view or fails. *)
Lemma move_forward_heading (s : State W) :
  heading_of hm (snd (street_view_move_forward s)) = heading_of hm s.
Proof.
  revert s. change (keeps (heading_of hm) street_view_move_forward).
  assert (Hself : keeps (heading_of hm) self_page) by (intro s; reflexivity).
  assert (Hv : keeps (heading_of hm) (ext evaluate_viewport)).
  { intro s. unfold ext, heading_of. pose proof (viewport_keeps hm (world s)) as H.
    destruct (evaluate_viewport (world s)). exact H. }
  assert (Hm : forall x y, keeps (heading_of hm) (ext (mouse_click x y))).
  { intros x y s. unfold ext, heading_of.
    pose proof (mouse_keeps hm x y (world s)) as H.
    destruct (mouse_click x y (world s)). exact H. }
  unfold street_view_move_forward, with_page, or_false.
  repeat first [ apply Hself | apply Hv | apply Hm | keeps_step ].
Qed.

(** A rotation that succeeds has turned the view by the angle of its
    button. *)
Lemma click_rotation_heading
  (sel : string) (turns : Elem -> Prop) (angle : Z) (s s' : State W) :
  (forall w e w', query_selector sel w = (Ok (Some e), w') -> turns e) ->
  (forall e t w w', turns e -> click e t w = (Ok tt, w') ->
                    heading hm w' = ((heading hm w + angle) mod 360)%Z) ->
  click_rotation sel s = (Ok true, s') ->
  heading_of hm s' = ((heading_of hm s + angle) mod 360)%Z.
Proof.
  intros Hfound Hclick. unfold click_rotation, with_page, self_page, self_browser.
  unfold bind at 1. unfold bind at 1. cbn [ret].
  destruct (page (browser (agent s))); [|discriminate].
  unfold or_false, try_except, heading_of.
  unfold bind at 1. unfold ext at 1.
  pose proof (query_keeps hm sel (world s)) as Hq.
  pose proof (Hfound (world s)) as Hf.
  destruct (query_selector sel (world s)) as [[[e|]|x] w1]; simpl in Hq;
    try discriminate.
  specialize (Hf e w1 eq_refl).
  unfold bind at 1. unfold ext at 1. cbn [world agent].
  pose proof (visible_keeps hm e w1) as Hv.
  destruct (is_visible e w1) as [[[|]|x] w2]; simpl in Hv; try discriminate.
  unfold bind at 1. unfold ext at 1. cbn [world agent].
  pose proof (Hclick e 3000%Z w2) as Hc.
  destruct (click e 3000 w2) as [[[]|x] w3]; try discriminate.
  intro H. injection H as <-. cbn [world].
  rewrite (Hc w3 Hf eq_refl), Hv, Hq. reflexivity.
Qed.

Lemma with_page_returns {A : Type} (d : A) (body : Prog A) (s : State W) :
  (exists a s', body s = (Ok a, s')) -> exists a s', with_page d body s = (Ok a, s').
Proof.
  intro H. unfold with_page, self_page, self_browser, bind, ret.
  destruct (page (browser (agent s))); [exact H | eauto].
Qed.

Lemma or_false_returns (body : Prog bool) (s : State W) :
  exists b s', or_false body s = (Ok b, s').
Proof.
  unfold or_false, try_except, ret. destruct (body s) as [[b|e] s']; eauto.
Qed.

Lemma click_rotation_returns (sel : string) (s : State W) :
  exists b s', click_rotation sel s = (Ok b, s').
Proof. apply with_page_returns, or_false_returns. Qed.

(** The composite, case by case: it stops at the first primitive that
    fails. *)
Lemma lateral_cases (sel1 sel2 : string) (s : State W) :
  has_page s ->
  lateral (click_rotation sel1) (click_rotation sel2) s =
  match click_rotation sel1 s with
  | (Ok true, s1) =>
      match street_view_move_forward s1 with
      | (Ok true, s2) => click_rotation sel2 s2
      | (Ok false, s2) => (Ok false, s2)
      | (Raise e, s2) => (Ok false, s2)
      end
  | (Ok false, s1) => (Ok false, s1)
  | (Raise e, s1) => (Ok false, s1)
  end.
Proof.
  intro Hp. unfold lateral. rewrite (with_page_some _ _ s Hp).
  unfold or_false, try_except, bind.
  destruct (click_rotation sel1 s) as [[[|]|e] s1]; try reflexivity. cbn [negb].
  destruct (street_view_move_forward s1) as [[[|]|e] s2]; try reflexivity. cbn [negb].
  destruct (click_rotation_returns sel2 s2) as (b & s3 & ->). reflexivity.
Qed.

(** A lateral move between two rotations of opposite angles. *)
Lemma lateral_heading
  (sel1 sel2 : string) (turns1 turns2 : Elem -> Prop) (angle : Z) (s : State W) :
  (angle = 90 \/ angle = -90)%Z ->
  (forall w e w', query_selector sel1 w = (Ok (Some e), w') -> turns1 e) ->
  (forall e t w w', turns1 e -> click e t w = (Ok tt, w') ->
                    heading hm w' = ((heading hm w + angle) mod 360)%Z) ->
  (forall w e w', query_selector sel2 w = (Ok (Some e), w') -> turns2 e) ->
  (forall e t w w', turns2 e -> click e t w = (Ok tt, w') ->
                    heading hm w' = ((heading hm w + - angle) mod 360)%Z) ->
  has_page s -> (0 <= heading_of hm s < 360)%Z ->
  (forall s',
     lateral (click_rotation sel1) (click_rotation sel2) s = (Ok true, s') ->
     heading_of hm s' = heading_of hm s
     /\ exists s1 s2,
          click_rotation sel1 s = (Ok true, s1)
          /\ street_view_move_forward s1 = (Ok true, s2)
          /\ click_rotation sel2 s2 = (Ok true, s'))
  /\ (forall s1 s2,
        click_rotation sel1 s = (Ok true, s1) ->
        street_view_move_forward s1 = (Ok false, s2) ->
        lateral (click_rotation sel1) (click_rotation sel2) s = (Ok false, s2)
        /\ heading_of hm s2 = ((heading_of hm s + angle) mod 360)%Z
        /\ heading_of hm s2 <> heading_of hm s).
Proof.
  intros Hangle Hf1 Hc1 Hf2 Hc2 Hp Hrange. split.
  - intros s' H. rewrite (lateral_cases sel1 sel2 s Hp) in H.
    destruct (click_rotation sel1 s) as [[[|]|e] s1] eqn:E1; try discriminate.
    pose proof (move_forward_heading s1) as Hm.
    destruct (street_view_move_forward s1) as [[[|]|e] s2] eqn:E2; try discriminate.
    simpl in Hm.
    pose proof (click_rotation_heading sel1 turns1 angle s s1 Hf1 Hc1 E1) as H1.
    pose proof (click_rotation_heading sel2 turns2 (- angle) s2 s' Hf2 Hc2 H) as H2.
    split; [|exists s1, s2; auto].
    rewrite H2, Hm, H1.
    destruct Hangle as [-> | ->]; Z.div_mod_to_equations; lia.
  - intros s1 s2 E1 E2. rewrite (lateral_cases sel1 sel2 s Hp), E1, E2.
    pose proof (move_forward_heading s1) as Hm. rewrite E2 in Hm. simpl in Hm.
    pose proof (click_rotation_heading sel1 turns1 angle s s1 Hf1 Hc1 E1) as H1.
    split; [reflexivity|]. rewrite Hm, H1.
    split; [reflexivity|].
    destruct Hangle as [-> | ->]; Z.div_mod_to_equations; lia.
Qed.

(** C3. [move_left] is a rotation to the left, an advance and a rotation
    to the right, and [move_right] the same with the rotations exchanged.
    When the composite succeeds, the three primitives have run in that order
    and the heading is the one before the move.  When the advance in the
    middle fails, the composite returns failure in the very state the failed
    advance left, with no restoring rotation: the view stays turned by 90
    degrees. *)
Theorem lateral_move_heading (s : State W) :
  has_page s -> (0 <= heading_of hm s < 360)%Z ->
  (forall s',
     move_left s = (Ok true, s') ->
     heading_of hm s' = heading_of hm s
     /\ exists s1 s2,
          street_view_turn_left s = (Ok true, s1)
          /\ street_view_move_forward s1 = (Ok true, s2)
          /\ street_view_turn_right s2 = (Ok true, s'))
  /\ (forall s1 s2,
        street_view_turn_left s = (Ok true, s1) ->
        street_view_move_forward s1 = (Ok false, s2) ->
        move_left s = (Ok false, s2)
        /\ heading_of hm s2 = ((heading_of hm s + -90) mod 360)%Z
        /\ heading_of hm s2 <> heading_of hm s)
  /\ (forall s',
        move_right s = (Ok true, s') ->
        heading_of hm s' = heading_of hm s
        /\ exists s1 s2,
             street_view_turn_right s = (Ok true, s1)
             /\ street_view_move_forward s1 = (Ok true, s2)
             /\ street_view_turn_left s2 = (Ok true, s'))
  /\ (forall s1 s2,
        street_view_turn_right s = (Ok true, s1) ->
        street_view_move_forward s1 = (Ok false, s2) ->
        move_right s = (Ok false, s2)
        /\ heading_of hm s2 = ((heading_of hm s + 90) mod 360)%Z
        /\ heading_of hm s2 <> heading_of hm s).
Proof.
  intros Hp Hrange.
  destruct (lateral_heading counterclockwise_selector clockwise_selector
              (turns_left hm) (turns_right hm) (-90) s
              (or_intror eq_refl) (found_left hm) (click_left hm)
              (found_right hm) (click_right hm) Hp Hrange) as [L1 L2].
  destruct (lateral_heading clockwise_selector counterclockwise_selector
              (turns_right hm) (turns_left hm) 90 s
              (or_introl eq_refl) (found_right hm) (click_right hm)
              (found_left hm) (click_left hm) Hp Hrange) as [R1 R2].
  split; [exact L1|]. split; [exact L2|]. split; [exact R1|]. exact R2.
Qed.

End LateralMove.

(** ** Actions that are called when their precondition is unmet (C9) *)

Section Unmet.

Context {W Elem Img : Type} {env : Env W Elem Img}.

(** A parse that raises is not the parse of a stop word. *)
Lemma parse_error_not_stop_word (c : string) (e : Exn) :
  snd (parse_action c) = Raise e -> in_list (lower c) stop_words = false.
Proof.
  intro H. destruct (in_list (lower c) stop_words) eqn:Hw; [|reflexivity].
  rewrite (stop_word_parse c Hw) in H. discriminate H.
Qed.

Lemma needs_element_not_stop_word (c : string) (a : Res (option arg)) (f : string) :
  parse_action c = (f, a) -> In f needs_element -> in_list (lower c) stop_words = false.
Proof.
  intros Hp Hin. destruct (in_list (lower c) stop_words) eqn:Hw; [|reflexivity].
  rewrite (stop_word_parse c Hw) in Hp. injection Hp as <- _.
  simpl in Hin.
  repeat (destruct Hin as [<-|Hin]; [vm_compute in Hw; discriminate Hw|]). contradiction.
Qed.

Variable ep : EmptyPage.

(** The outcome of an action on a page where nothing is found: it returns
    [a], the agent is as it was and the page is still empty. *)
Definition finds_nothing {A : Type} (m : Prog (W := W) A) (a : A) : Prop :=
  forall s, has_page s -> empty ep (world s) ->
  exists s', m s = (Ok a, s') /\ agent s' = agent s /\ empty ep (world s').

Lemma query_selector_absent (sel : string) (s : State W) :
  empty ep (world s) ->
  exists w', ext (query_selector sel) s = (Ok None, mkState (agent s) w') /\ empty ep w'.
Proof.
  intro H. destruct (no_element ep sel (world s) H) as (w' & Hq & H').
  exists w'. unfold ext. rewrite Hq. auto.
Qed.

Lemma click_rotation_absent (sel : string) : finds_nothing (click_rotation sel) false.
Proof.
  intros s Hp He. unfold click_rotation. rewrite (with_page_some _ _ s Hp).
  unfold or_false, try_except, bind.
  destruct (query_selector_absent sel s He) as (w' & -> & H').
  eexists. split; [reflexivity|]. split; [reflexivity|exact H'].
Qed.

Lemma turn_left_absent : finds_nothing street_view_turn_left false.
Proof. rewrite turn_left_rotation. apply click_rotation_absent. Qed.

Lemma turn_right_absent : finds_nothing street_view_turn_right false.
Proof. rewrite turn_right_rotation. apply click_rotation_absent. Qed.

Lemma has_page_agent (s s' : State W) : agent s' = agent s -> has_page s -> has_page s'.
Proof. intros H [p Hp]. exists p. rewrite H. exact Hp. Qed.

Lemma flip_view_absent : finds_nothing flip_view false.
Proof.
  intros s Hp He. unfold flip_view. rewrite (with_page_some _ _ s Hp).
  unfold or_false, try_except, bind.
  destruct (turn_right_absent s Hp He) as (s1 & -> & Ha1 & He1).
  destruct (turn_right_absent s1 (has_page_agent s s1 Ha1 Hp) He1) as (s2 & -> & Ha2 & He2).
  exists s2. split; [reflexivity|]. split; [congruence|exact He2].
Qed.

Lemma move_left_absent : finds_nothing move_left false.
Proof.
  intros s Hp He. unfold move_left. rewrite (with_page_some _ _ s Hp).
  unfold or_false, try_except, bind.
  destruct (turn_left_absent s Hp He) as (s1 & -> & Ha1 & He1).
  exists s1. split; [reflexivity|]. split; assumption.
Qed.

Lemma move_right_absent : finds_nothing move_right false.
Proof.
  intros s Hp He. unfold move_right. rewrite (with_page_some _ _ s Hp).
  unfold or_false, try_except, bind.
  destruct (turn_right_absent s Hp He) as (s1 & -> & Ha1 & He1).
  exists s1. split; [reflexivity|]. split; assumption.
Qed.

Lemma show_historical_dates_absent : finds_nothing show_historical_dates (IsBool false).
Proof.
  intros s Hp He. unfold show_historical_dates. rewrite (with_page_some _ _ s Hp).
  unfold try_except. unfold bind at 1.
  destruct (query_selector_absent "button.LQDejd" s He) as (w1 & -> & He1).
  unfold bind at 1.
  destruct (query_selector_absent "text='查看更多日期'" (mkState (agent s) w1) He1)
    as (w2 & -> & He2).
  eexists. split; [reflexivity|]. split; [reflexivity|exact He2].
Qed.

Lemma select_historical_date_absent (a : arg) :
  finds_nothing (select_historical_date a) false.
Proof.
  intros s Hp He. unfold select_historical_date. rewrite (with_page_some _ _ s Hp).
  unfold or_false, try_except. unfold bind at 1.
  destruct (query_selector_absent date_button_selector s He) as (w1 & -> & He1).
  unfold bind at 1. unfold bind at 1.
  destruct (show_historical_dates_absent (mkState (agent s) w1)
              (has_page_agent s _ eq_refl Hp) He1) as (s2 & -> & Ha2 & He2).
  unfold ret at 1. unfold bind at 1.
  destruct (query_selector_absent ("button[aria-label='" ++ arg_str a ++ "']") s2 He2)
    as (w3 & -> & He3).
  unfold bind at 1.
  destruct (query_selector_absent (":text-matches('^" ++ arg_str a ++ "', 'i')")
              (mkState (agent s2) w3) He3) as (w4 & -> & He4).
  eexists. split; [reflexivity|]. split; [exact Ha2|exact He4].
Qed.

Lemma click_id_absent (a : arg) : finds_nothing (click_id a) false.
Proof.
  intros s Hp He. unfold click_id. rewrite (with_page_some _ _ s Hp).
  unfold or_false, try_except. destruct a as [n|id].
  - unfold bind at 1, ext at 1.
    destruct (no_elements ep "*" (world s) He) as (w1 & -> & He1).
    cbn [List.length Z.of_nat]. unfold py_index. cbn [List.length Z.of_nat].
    destruct (n <? 0)%Z eqn:Hn.
    + assert (H0 : (0 <=? n)%Z = false) by (apply Z.leb_gt; apply Z.ltb_lt; exact Hn).
      rewrite H0. replace (0 <=? 0 + n)%Z with false
        by (symmetry; apply Z.leb_gt; apply Z.ltb_lt in Hn; lia).
      eexists. split; [reflexivity|]. split; [reflexivity|exact He1].
    + eexists. split; [reflexivity|]. split; [reflexivity|exact He1].
  - unfold bind at 1, ext at 1.
    destruct (no_locator ep ("#" ++ id) (world s) He) as (w1 & -> & He1).
    eexists. split; [reflexivity|]. split; [reflexivity|exact He1].
Qed.

Lemma click_marker_absent (n : Z) : finds_nothing (click_marker n) false.
Proof.
  intros s Hp He. unfold click_marker. rewrite (with_page_some _ _ s Hp).
  unfold or_false, try_except. unfold bind at 1, ext at 1.
  destruct (no_elements ep ".hfpxzc" (world s) He) as (w1 & -> & He1).
  unfold bind at 1. cbn [filter_visible ret List.length Z.of_nat].
  replace ((0 <=? n)%Z && (n <? 0)%Z)%bool with false
    by (symmetry; apply andb_false_iff;
        destruct (Z.leb_spec 0 n); [right; apply Z.ltb_ge; lia | left; reflexivity]).
  eexists. split; [reflexivity|]. split; [reflexivity|exact He1].
Qed.

(** On a page where nothing is found, the dispatch of an action that
    looks for an element reports a failure, with its description. *)
Lemma execute_absent (f : string) (a : option arg) :
  In f needs_element ->
  finds_nothing (try_except (execute f a) (fun e => ret (false, e)))
                (false, failure_detail f a).
Proof.
  intros Hin s Hp He. simpl in Hin.
  repeat (destruct Hin as [<- | Hin]); try contradiction.
  all: destruct a as [[n|x]|].
  all: cbv beta iota delta [execute in_list existsb String.eqb Ascii.eqb Bool.eqb
         GOOGLE_MAPS_ACTIONS negb orb call_method lift_bool failure_detail].
  all: unfold try_except, bind, raise, ret.
  all: try (exists s; split; [reflexivity|]; split; [reflexivity|exact He]).
  all: match goal with
       | |- context [click_id ?a ?st] =>
           destruct (click_id_absent a st Hp He) as (s' & -> & Ha & He')
       | |- context [click_marker ?n ?st] =>
           destruct (click_marker_absent n st Hp He) as (s' & -> & Ha & He')
       | |- context [select_historical_date ?a ?st] =>
           destruct (select_historical_date_absent a st Hp He) as (s' & -> & Ha & He')
       | |- context [street_view_turn_left ?st] =>
           destruct (turn_left_absent st Hp He) as (s' & -> & Ha & He')
       | |- context [street_view_turn_right ?st] =>
           destruct (turn_right_absent st Hp He) as (s' & -> & Ha & He')
       | |- context [flip_view ?st] =>
           destruct (flip_view_absent st Hp He) as (s' & -> & Ha & He')
       | |- context [move_left ?st] =>
           destruct (move_left_absent st Hp He) as (s' & -> & Ha & He')
       | |- context [move_right ?st] =>
           destruct (move_right_absent st Hp He) as (s' & -> & Ha & He')
       | |- context [show_historical_dates ?st] =>
           destruct (show_historical_dates_absent st Hp He) as (s' & -> & Ha & He')
       end.
  all: exists s'; split; [reflexivity|]; split; assumption.
Qed.


End Unmet.

(** ** Replies with a fenced object (C5) *)

Lemma search_delimited_cons (delim : string) (c : ascii) (r : string) :
  search_delimited delim (String c r) =
  orelse (if startswith delim (String c r)
          then after_open delim (drop (String.length delim) (String c r)) else None)
         (search_delimited delim r).
Proof. reflexivity. Qed.

Lemma contains_cons (sub : string) (c : ascii) (r : string) :
  contains sub (String c r) = (startswith sub (String c r) || contains sub r)%bool.
Proof. reflexivity. Qed.

(** No fence, no match. *)
Lemma search_fence_none (s : string) :
  contains fence s = false -> search_delimited fence s = None.
Proof.
  induction s as [|c r IH]; [reflexivity|].
  rewrite contains_cons, search_delimited_cons. intro H.
  apply orb_false_iff in H as [H1 H2]. rewrite H1, (IH H2). reflexivity.
Qed.

Lemma contains_fence_suffix (c : ascii) (r : string) :
  contains fence (String c r) = false ->
  startswith fence (String c r) = false /\ contains fence r = false.
Proof. rewrite contains_cons. apply orb_false_iff. Qed.

(** Whether a text that is not empty starts with a fence is decided the
    same way when two backticks follow it and when a fence and more do. *)
Lemma startswith_fence_before (c : ascii) (r rest : string) :
  startswith fence (String c r ++ fence ++ rest) = startswith fence (String c r ++ "``").
Proof.
  destruct r as [|b [|d r]]; unfold fence; cbn [append startswith];
    repeat match goal with
           | |- context [Ascii.eqb ?x ?y] => destruct (Ascii.eqb x y)
           end; reflexivity.
Qed.

(** The search passes over a text in which no fence starts, up to the fence
    that follows it. *)
Lemma search_fence_skip (pre rest : string) :
  contains fence (pre ++ "``") = false ->
  search_delimited fence (pre ++ fence ++ rest) = search_delimited fence (fence ++ rest).
Proof.
  induction pre as [|c r IH]; [reflexivity|].
  intro H. change (String c r ++ "``") with (String c (r ++ "``")) in H.
  apply contains_fence_suffix in H as [H1 H2].
  pose proof (startswith_fence_before c r rest) as Hs.
  change (String c r ++ "``") with (String c (r ++ "``")) in Hs. rewrite H1 in Hs.
  change (String c r ++ fence ++ rest) with (String c (r ++ fence ++ rest)) in *.
  rewrite search_delimited_cons, Hs, (IH H2). reflexivity.
Qed.

(** A text with no backtick is one in which no fence starts. *)
Lemma no_backtick_no_fence (pre : string) :
  all_chars not_backtick pre = true -> contains fence (pre ++ "``") = false.
Proof.
  induction pre as [|c r IH]; [reflexivity|].
  intro H. simpl in H. apply andb_true_iff in H as [Hc Hr].
  change (String c r ++ "``") with (String c (r ++ "``")).
  rewrite contains_cons, (IH Hr), orb_false_r.
  unfold not_backtick in Hc. apply negb_true_iff in Hc.
  unfold fence. cbn [startswith]. rewrite Ascii.eqb_sym, Hc. reflexivity.
Qed.

Lemma search_fence_open (rest g : string) :
  after_open fence rest = Some g ->
  search_delimited fence (fence ++ rest) = Some g.
Proof.
  intro H. unfold fence at 2. cbn [append]. rewrite search_delimited_cons.
  change (startswith fence (String "`" (String "`" (String "`" rest)))) with true.
  change (drop (String.length fence) (String "`" (String "`" (String "`" rest)))) with rest.
  rewrite H. reflexivity.
Qed.

Lemma after_tag_spaces (ws rest g : string) :
  all_chars is_space ws = true ->
  after_tag fence rest = Some g ->
  after_tag fence (ws ++ rest) = Some g.
Proof.
  intros Hws Hg. induction ws as [|c r IH]; [exact Hg|].
  simpl in Hws. apply andb_true_iff in Hws as [Hc Hr].
  cbn [append after_tag]. rewrite Hc, (IH Hr). reflexivity.
Qed.

Lemma after_tag_nonspace (c : ascii) (r : string) :
  is_space c = false -> after_tag fence (String c r) = lazy_until fence (String c r).
Proof. intro H. cbn [after_tag]. rewrite H. reflexivity. Qed.

(** Where a brace stands among the first three characters, or after them,
    what follows it does not decide whether the text starts with a fence. *)
Lemma startswith_fence_brace (x rest : string) :
  startswith fence (x ++ String "}" rest) = startswith fence (x ++ "}").
Proof.
  destruct x as [|a [|b [|c x]]]; cbn; reflexivity.
Qed.

Lemma lstrip_cons (c : ascii) (r : string) :
  lstrip (String c r) = if is_space c then lstrip r else String c r.
Proof. unfold lstrip. simpl. destruct (is_space c); [destruct (span is_space r)|]; reflexivity. Qed.

(** After the whitespace that may lead a text ending in a brace, no fence
    starts if the text has none. *)
Lemma lstrip_no_fence (x rest : string) :
  contains fence (x ++ "}") = false ->
  startswith fence (lstrip (x ++ String "}" rest)) = false.
Proof.
  induction x as [|c r IH]; intro H.
  - reflexivity.
  - change (String c r ++ String "}" rest) with (String c (r ++ String "}" rest)).
    change (String c r ++ "}") with (String c (r ++ "}")) in H.
    apply contains_fence_suffix in H as [H1 H2].
    rewrite lstrip_cons. destruct (is_space c).
    + exact (IH H2).
    + change (String c (r ++ String "}" rest)) with (String c r ++ String "}" rest).
      rewrite startswith_fence_brace. exact H1.
Qed.

Lemma lstrip_spaces (ws : string) (c : ascii) (r : string) :
  all_chars is_space ws = true -> is_space c = false ->
  lstrip (ws ++ String c r) = String c r.
Proof. intros Hws Hc. unfold lstrip. rewrite (span_stops is_space ws c r Hws Hc). reflexivity. Qed.

Lemma lazy_until_here (s : string) :
  startswith fence (lstrip s) = true -> lazy_until fence s = Some "".
Proof. intro H. destruct s; cbn [lazy_until]; rewrite H; reflexivity. Qed.

(** The lazy group runs to the end of a text that ends in a brace and has
    no fence, when optional whitespace and a fence follow. *)
Lemma lazy_until_object (x ws post : string) :
  all_chars is_space ws = true ->
  contains fence (x ++ "}") = false ->
  lazy_until fence (x ++ String "}" (ws ++ fence ++ post)) = Some (x ++ "}").
Proof.
  intros Hws. induction x as [|c r IH]; intro H.
  - cbn [append]. cbn [lazy_until]. rewrite lstrip_cons.
    change (is_space "}") with false. cbv iota.
    change (startswith fence (String "}" (ws ++ fence ++ post))) with false. cbv iota.
    rewrite lazy_until_here; [reflexivity|].
    unfold fence at 2. cbn [append].
    rewrite (lstrip_spaces ws "`" _ Hws eq_refl). reflexivity.
  - pose proof (lstrip_no_fence (String c r) (ws ++ fence ++ post) H) as Hno.
    change (String c r ++ "}") with (String c (r ++ "}")) in H.
    apply contains_fence_suffix in H as [_ H2].
    change (String c r ++ String "}" (ws ++ fence ++ post))
      with (String c (r ++ String "}" (ws ++ fence ++ post))) in *.
    cbn [lazy_until]. rewrite Hno, (IH H2). reflexivity.
Qed.

Lemma object_text_app (body rest : string) :
  object_text body ++ rest = String "{" body ++ String "}" rest.
Proof. unfold object_text. cbn [append]. rewrite append_assoc. reflexivity. Qed.

(** What [re.search] finds in a reply with one fenced object. *)
Lemma search_fenced_object (pre tag ws1 body ws2 post : string) :
  contains fence (pre ++ "``") = false ->
  tag = "" \/ tag = "json" ->
  all_chars is_space ws1 = true ->
  all_chars is_space ws2 = true ->
  contains fence (object_text body) = false ->
  search_delimited fence
    (pre ++ fence ++ tag ++ ws1 ++ object_text body ++ ws2 ++ fence ++ post)
  = Some (object_text body).
Proof.
  intros Hpre Htag Hws1 Hws2 Hobj.
  rewrite (search_fence_skip pre _ Hpre). apply search_fence_open.
  assert (Hlazy : lazy_until fence (object_text body ++ ws2 ++ fence ++ post)
                  = Some (object_text body)).
  { rewrite object_text_app. exact (lazy_until_object (String "{" body) ws2 post Hws2 Hobj). }
  assert (Htagged : after_tag fence (ws1 ++ object_text body ++ ws2 ++ fence ++ post)
                    = Some (object_text body)).
  { apply after_tag_spaces; [exact Hws1|].
    rewrite <- Hlazy. unfold object_text. cbn [append].
    apply after_tag_nonspace. reflexivity. }
  unfold after_open. destruct Htag as [-> | ->].
  - cbn [append].
    replace (startswith "json" (ws1 ++ object_text body ++ ws2 ++ fence ++ post))
      with false; [exact Htagged|].
    destruct ws1 as [|c r]; [reflexivity|].
    simpl in Hws1. apply andb_true_iff in Hws1 as [Hc _].
    cbn [append startswith].
    destruct (Ascii.eqb_spec "j" c) as [<-|_]; [discriminate | reflexivity].
  - change (startswith "json" ("json" ++ ws1 ++ object_text body ++ ws2 ++ fence ++ post))
      with true.
    change (drop 4 ("json" ++ ws1 ++ object_text body ++ ws2 ++ fence ++ post))
      with (ws1 ++ object_text body ++ ws2 ++ fence ++ post).
    rewrite Htagged. reflexivity.
Qed.

(** C5, as the code has it.  A reply that holds the object between two
    markdown fences, the first with or without the word json after it, with
    whitespace around the object, any text after the second fence and, before
    the first, any text in which no fence starts (prose, inline code between
    single backticks), parses to the same value as the object alone, for
    every object text (an opening brace, a body, a closing brace) that has no
    fence in it. *)
Theorem fenced_reply_parses_like_bare (pre tag ws1 body ws2 post : string) :
  contains fence (pre ++ "``") = false ->
  tag = "" \/ tag = "json" ->
  all_chars is_space ws1 = true ->
  all_chars is_space ws2 = true ->
  contains fence (object_text body) = false ->
  _parse_json_output
    (pre ++ fence ++ tag ++ ws1 ++ object_text body ++ ws2 ++ fence ++ post)
  = _parse_json_output (object_text body).
Proof.
  intros Hpre Htag Hws1 Hws2 Hobj. unfold _parse_json_output.
  rewrite (search_fenced_object pre tag ws1 body ws2 post Hpre Htag Hws1 Hws2 Hobj).
  rewrite (search_fence_none _ Hobj).
  replace (strip (object_text body)) with (object_text body); [reflexivity|].
  symmetry. apply strip_tight; reflexivity.
Qed.

(** * Further properties of the module *)

(** ** More facts on strings *)

Lemma rstrip_app_nonspace (a : string) (c : ascii) (r : string) :
  is_space c = false -> rstrip (a ++ String c r) = a ++ String c (rstrip r).
Proof.
  intros Hc. induction a as [|x a IH].
  - simpl. rewrite Hc. destruct (rstrip r); reflexivity.
  - simpl. rewrite IH. destruct a; reflexivity.
Qed.

Lemma rstrip_idempotent (s : string) : rstrip (rstrip s) = rstrip s.
Proof.
  induction s as [|c r IH]; [reflexivity|]. simpl.
  destruct (rstrip r) as [|d r'] eqn:E.
  - destruct (is_space c) eqn:Hc; [reflexivity|]. simpl. rewrite Hc. reflexivity.
  - change (rstrip (String c (String d r')))
      with (match rstrip (String d r') with
            | "" => if is_space c then "" else String c ""
            | String x y => String c (String x y)
            end).
    rewrite IH. reflexivity.
Qed.

Lemma rstrip_head (c : ascii) (r : string) :
  is_space c = false -> exists r', rstrip (String c r) = String c r'.
Proof. intros Hc. simpl. rewrite Hc. destruct (rstrip r); eauto. Qed.

Lemma lstrip_head (s : string) :
  lstrip s = "" \/ exists c r, lstrip s = String c r /\ is_space c = false.
Proof.
  induction s as [|c r IH]; [left; reflexivity|].
  rewrite lstrip_cons. destruct (is_space c) eqn:Hc; [exact IH|].
  right. eauto.
Qed.

(** Stripping a stripped text changes nothing. *)
Lemma strip_idempotent (s : string) : strip (strip s) = strip s.
Proof.
  unfold strip. destruct (lstrip_head s) as [->|(c & r & -> & Hc)]; [reflexivity|].
  destruct (rstrip_head c r Hc) as [r' Hr]. rewrite Hr.
  rewrite (lstrip_nonspace c r' Hc), <- Hr. apply rstrip_idempotent.
Qed.

Lemma strip_spaces (ws : string) : all_chars is_space ws = true -> strip ws = "".
Proof.
  intros H. unfold strip, lstrip. rewrite (span_all is_space ws H). reflexivity.
Qed.

Lemma is_space_not_paren (c : ascii) : is_space c = true -> negb (Ascii.eqb c ")") = true.
Proof. intros H. destruct (Ascii.eqb_spec c ")") as [->|]; [discriminate H|reflexivity]. Qed.

Lemma is_digit_no_paren (c : ascii) :
  is_digit c = true -> negb (Ascii.eqb c ")") = true.
Proof. intro H. rewrite (is_digit_not_paren c H). reflexivity. Qed.

Lemma is_digit_not_space (c : ascii) : is_digit c = true -> negb (is_space c) = true.
Proof.
  destruct c as [[] [] [] [] [] [] [] []]; vm_compute; intro H;
    first [reflexivity | discriminate H].
Qed.

Lemma contains_app_r (sub a b : string) :
  contains sub b = true -> contains sub (a ++ b) = true.
Proof.
  intro H. induction a as [|c a IH]; [exact H|].
  simpl append. rewrite contains_cons, IH. apply orb_true_r.
Qed.

(** The text of an invocation is stripped on its right end only, after the
    closing parenthesis. *)
Lemma strip_invocation_tail (name args rest : string) :
  name <> "" -> all_chars is_word name = true ->
  strip (name ++ String "(" (args ++ String ")" rest))
  = name ++ String "(" (args ++ String ")" (rstrip rest)).
Proof.
  intros Hn Hw. destruct name as [|c r]; [congruence|].
  simpl in Hw. apply andb_prop in Hw as [Hc _].
  unfold strip. cbn [append].
  rewrite (lstrip_nonspace c _ (is_word_not_space c Hc)).
  change (String c (r ++ String "(" (args ++ String ")" rest)))
    with (String c r ++ (String "(" args ++ String ")" rest)).
  rewrite <- append_assoc, (rstrip_app_nonspace _ ")" rest eq_refl), append_assoc.
  reflexivity.
Qed.

(** ** More facts on the parsers of [act] *)

(** A text that is not empty gives an argument, unless it is a digit
    string of more digits than [int] converts: then the parser raises. *)
Lemma parse_argument_some (x : string) :
  x <> "" ->
  if digits_exceed x
  then parse_argument x = Raise (int_limit_error (String.length x))
  else exists a, parse_argument x = Ok (Some a).
Proof.
  intros Hx. unfold digits_exceed. destruct (isdigit x) eqn:Hd; cbn [andb].
  - destruct (parse_argument_digits x Hd) as (_ & -> & _).
    destruct (int_max_str_digits <? Z.of_nat (String.length x))%Z; eauto.
  - destruct x as [|c r]; [congruence|]. unfold parse_argument. rewrite Hd.
    destruct (match_quoted (String c r)); [eauto|].
    destruct (int_of_str (String c r)); eauto.
Qed.

(** A word with no parenthesis is a name with no argument. *)
Lemma word_parse (c : string) :
  all_chars is_word c = true -> parse_action c = (c, Ok None).
Proof.
  intro H. unfold parse_action, match_call. rewrite (span_all is_word c H).
  destruct c; reflexivity.
Qed.

Lemma final_answer_word (c : string) :
  lower c = "final_answer" -> all_chars is_word c = true.
Proof. intro H. apply lower_word. rewrite H. reflexivity. Qed.

Lemma final_answer_unregistered (c : string) :
  lower c = "final_answer" -> in_list c GOOGLE_MAPS_ACTIONS = false.
Proof.
  intro H. destruct (in_list c GOOGLE_MAPS_ACTIONS) eqn:E; [|reflexivity].
  unfold in_list in E. apply existsb_exists in E as (x & Hin & Hx).
  apply String.eqb_eq in Hx. subst x. simpl in Hin.
  repeat (destruct Hin as [<-|Hin]; [vm_compute in H; discriminate|]). contradiction.
Qed.

(** The stop words of [act] and of [run_task] are the same words. *)
Lemma stop_lists_agree (x : string) :
  in_list x stop_words = in_list x ["stop"; "exit"; "done"].
Proof.
  unfold in_list, stop_words. simpl.
  destruct (x =? "stop"), (x =? "done"), (x =? "exit"); reflexivity.
Qed.

(** ** The decimal numerals of [str] *)

Lemma digits_val_numeral (d : Decimal.uint) :
  forall acc, digits_val acc (NilEmpty.string_of_uint d) = uint_val acc d.
Proof.
  induction d; intro acc; simpl; try reflexivity; rewrite IHd; f_equal;
    unfold digit_val, code; simpl; lia.
Qed.

Lemma numeral_digits (d : Decimal.uint) :
  all_chars is_digit (NilEmpty.string_of_uint d) = true.
Proof. induction d; simpl; auto. Qed.

Lemma of_uint_acc_val (d : Decimal.uint) :
  forall acc, Z.pos (Pos.of_uint_acc d acc) = uint_val (Z.pos acc) d.
Proof.
  induction d; intro acc; cbn [Pos.of_uint_acc uint_val]; try reflexivity;
    rewrite IHd; f_equal; rewrite ?Pos2Z.inj_add, ?Pos2Z.inj_mul; lia.
Qed.

Lemma of_uint_val (d : Decimal.uint) : Z.of_N (Pos.of_uint d) = uint_val 0 d.
Proof.
  induction d; cbn [Pos.of_uint uint_val Z.of_N]; try reflexivity; try exact IHd;
    rewrite of_uint_acc_val; reflexivity.
Qed.

Lemma to_uint_val (p : positive) : uint_val 0 (Pos.to_uint p) = Z.pos p.
Proof. rewrite <- of_uint_val, Unsigned.of_to. reflexivity. Qed.

Lemma str_of_int_pos (p : positive) :
  str_of_int (Z.pos p) = NilEmpty.string_of_uint (Pos.to_uint p)
  /\ NilEmpty.string_of_uint (Pos.to_uint p) <> "".
Proof.
  unfold str_of_int. simpl. unfold NilZero.string_of_uint.
  pose proof (Unsigned.to_uint_nonnil p) as H.
  destruct (Pos.to_uint p); try contradiction; split; try reflexivity; discriminate.
Qed.

(** [str(n)] read back by the argument parser of [act], for an integer
    whose numeral [int] converts: the same integer; the text has no
    whitespace around it and no parenthesis. *)
Lemma parse_argument_str_of_int (n : Z) :
  (Z.of_nat (String.length (str_of_int (Z.abs n))) <= int_max_str_digits)%Z ->
  parse_argument (str_of_int n) = Ok (Some (AInt n))
  /\ strip (str_of_int n) = str_of_int n
  /\ all_chars (fun c => negb (Ascii.eqb c ")")) (str_of_int n) = true.
Proof.
  intro Hlen. destruct n as [|p|p].
  - repeat split; reflexivity.
  - cbn [Z.abs] in Hlen. destruct (str_of_int_pos p) as [E Hne]. rewrite E in *.
    pose proof (numeral_digits (Pos.to_uint p)) as Hd.
    assert (Hi : isdigit (NilEmpty.string_of_uint (Pos.to_uint p)) = true).
    { unfold isdigit. destruct (NilEmpty.string_of_uint (Pos.to_uint p));
        [contradiction|exact Hd]. }
    destruct (parse_argument_digits _ Hi) as (Hs & Hp & Hc).
    rewrite Hp, digits_val_numeral, to_uint_val.
    destruct (Z.ltb_spec int_max_str_digits
                (Z.of_nat (String.length (NilEmpty.string_of_uint (Pos.to_uint p)))));
      [lia|auto].
  - cbn [Z.abs] in Hlen.
    assert (E : str_of_int (Z.neg p) = String "-" (NilEmpty.string_of_uint (Pos.to_uint p))).
    { unfold str_of_int. simpl. destruct (str_of_int_pos p) as [<- _]. reflexivity. }
    destruct (str_of_int_pos p) as [Epos Hne]. rewrite Epos in Hlen.
    pose proof (numeral_digits (Pos.to_uint p)) as Hd.
    set (ds := NilEmpty.string_of_uint (Pos.to_uint p)) in *.
    assert (Hs : strip (String "-" ds) = String "-" ds).
    { apply strip_no_space. simpl.
      apply (all_chars_impl is_digit); [exact is_digit_not_space|exact Hd]. }
    rewrite E. split; [|split; [exact Hs|]].
    + assert (Hi : isdigit ds = true).
      { unfold isdigit. destruct ds; [contradiction|exact Hd]. }
      unfold parse_argument, isdigit. cbn [all_chars]. change (is_digit "-") with false.
      cbn [andb]. change (match_quoted (String "-" ds)) with (@None string).
      rewrite (int_of_str_negative ds Hi).
      destruct (Z.ltb_spec int_max_str_digits (Z.of_nat (String.length ds))); [lia|].
      unfold ds. rewrite digits_val_numeral, to_uint_val. reflexivity.
    + simpl. apply (all_chars_impl is_digit); [exact is_digit_no_paren|exact Hd].
Qed.

(** ** The dispatcher on names and arguments it refuses *)

Section Refusals.

Context {W Elem Img : Type} {env : Env W Elem Img}.

(** X6.  A name that is not in [GOOGLE_MAPS_ACTIONS] is refused, and
    nothing is done: for an argument of ASCII text, [act] returns (False,
    "Invalid action: name") in the state it was called in; when the argument
    is a digit string of more than 4300 digits, [int] raises before the name
    is looked at and the failure carries the message of that exception.  The
    methods of the browser that the list leaves out (visit_page, scroll_up,
    scroll_down, get_url) cannot be reached through [act]; its visit_page
    branch is never taken. *)
Theorem unregistered_name_is_refused (name args : string) (s : State W) :
  name <> "" -> all_chars is_word name = true ->
  all_chars (fun c => negb (Ascii.eqb c ")")) args = true ->
  ascii_text args = true ->
  in_list name GOOGLE_MAPS_ACTIONS = false ->
  act (name ++ "(" ++ args ++ ")") s
  = (Ok (false,
         if digits_exceed (strip args)
         then int_limit_error (String.length (strip args))
         else "Invalid action: " ++ name), s).
Proof.
  intros Hn Hw Ha _ Hreg.
  change (name ++ "(" ++ args ++ ")") with (name ++ String "(" (args ++ ")")).
  rewrite (act_invocation name args s Hn Hw Ha).
  destruct (strip args) as [|c r] eqn:E.
  - unfold try_except, bind, of_res, execute. cbn [parse_argument]. rewrite Hreg.
    reflexivity.
  - pose proof (parse_argument_some (String c r) ltac:(discriminate)) as Hp.
    destruct (digits_exceed (String c r)).
    + rewrite Hp. reflexivity.
    + destruct Hp as [a ->]. unfold try_except, bind, of_res, execute. rewrite Hreg.
      reflexivity.
Qed.

(** X7.  A registered action whose method takes no argument, invoked with
    an argument of ASCII text that is not blank, is refused and nothing is
    called: [act] returns (False, "Action name does not take arguments");
    when the argument is a digit string of more than 4300 digits, [int]
    raises first and the failure carries the message of that exception. *)
Theorem argument_to_plain_action_is_refused (name args : string) (s : State W) :
  In name GOOGLE_MAPS_ACTIONS -> ~ In name takes_argument ->
  all_chars (fun c => negb (Ascii.eqb c ")")) args = true ->
  ascii_text args = true ->
  strip args <> "" ->
  act (name ++ "(" ++ args ++ ")") s
  = (Ok (false,
         if digits_exceed (strip args)
         then int_limit_error (String.length (strip args))
         else "Action " ++ name ++ " does not take arguments"), s).
Proof.
  intros Hin Hplain Ha _ Hne.
  pose proof (parse_argument_some (strip args) Hne) as Harg.
  change (name ++ "(" ++ args ++ ")") with (name ++ String "(" (args ++ ")")).
  unfold GOOGLE_MAPS_ACTIONS in Hin. simpl in Hin.
  destruct (digits_exceed (strip args)).
  - repeat (destruct Hin as [<-|Hin];
            [ first [ exfalso; apply Hplain; simpl; tauto
                    | rewrite act_invocation by (first [discriminate | reflexivity | exact Ha]);
                      rewrite Harg; reflexivity ] | ]).
    contradiction.
  - destruct Harg as [a Harg].
    repeat (destruct Hin as [<-|Hin];
            [ first [ exfalso; apply Hplain; simpl; tauto
                    | rewrite act_invocation by (first [discriminate | reflexivity | exact Ha]);
                      rewrite Harg; reflexivity ] | ]).
    contradiction.
Qed.

(** X8.  An action whose method takes an argument, invoked with none
    (empty or blank parentheses, or the bare name): the call of the method
    raises the TypeError of a missing positional argument, which [act]
    catches: it returns (False, the message) and the browser is not
    touched. *)
Theorem missing_argument_is_refused (name ws : string) (s : State W) :
  In name takes_argument -> all_chars is_space ws = true ->
  exists parameter,
    act (name ++ "(" ++ ws ++ ")") s = (Ok (false, missing_argument name parameter), s)
    /\ act name s = (Ok (false, missing_argument name parameter), s).
Proof.
  intros Hin Hws.
  assert (Ha : all_chars (fun c => negb (Ascii.eqb c ")")) ws = true)
    by (apply (all_chars_impl is_space); [exact is_space_not_paren | exact Hws]).
  change (name ++ "(" ++ ws ++ ")") with (name ++ String "(" (ws ++ ")")).
  simpl in Hin.
  destruct Hin as [<-|[<-|[<-|[<-|[]]]]];
    [ exists "identifier" | exists "date_str" | exists "search_text" | exists "index" ];
    (split; [ rewrite act_invocation by (first [discriminate | reflexivity | exact Ha]);
              rewrite (strip_spaces ws Hws); reflexivity
            | reflexivity ]).
Qed.

(** X9.  Whatever follows the closing parenthesis of an invocation is
    ignored: [act] on name(args) followed by any text does what it does on
    name(args) alone (a second invocation in the same action code is never
    run). *)
Theorem text_after_call_is_ignored (name args rest : string) (s : State W) :
  name <> "" -> all_chars is_word name = true ->
  all_chars (fun c => negb (Ascii.eqb c ")")) args = true ->
  act (name ++ "(" ++ args ++ ")" ++ rest) s = act (name ++ "(" ++ args ++ ")") s.
Proof.
  intros Hn Hw Ha.
  change (name ++ "(" ++ args ++ ")") with (name ++ String "(" (args ++ ")")).
  rewrite (act_invocation name args s Hn Hw Ha).
  change (name ++ "(" ++ args ++ ")" ++ rest)
    with (name ++ String "(" (args ++ String ")" rest)).
  unfold act. rewrite (strip_invocation_tail name args rest Hn Hw).
  rewrite invocation_not_stop_word.
  unfold parse_action. rewrite (match_call_invocation name args (rstrip rest) Hn Hw Ha).
  rewrite (strip_word name Hw). reflexivity.
Qed.

(** X10.  The argument parser reads back what [str] writes: for every
    integer [n] whose numeral has at most 4300 digits (the numerals [int]
    converts), negative ones too, the text [str(n)] is parsed to the
    integer [n], and the invocation of click_marker with it calls
    [click_marker(n)] and describes the result with the same numeral. *)
Theorem integer_argument_round_trip (n : Z) (s : State W) :
  (Z.of_nat (String.length (str_of_int (Z.abs n))) <= int_max_str_digits)%Z ->
  parse_argument (str_of_int n) = Ok (Some (AInt n))
  /\ act ("click_marker(" ++ str_of_int n ++ ")") s =
     try_except
       (result <- click_marker n ;;
        ret (result, "Clicked marker #" ++ str_of_int n))%prog
       (fun e => ret (false, e)) s.
Proof.
  intro Hlen. destruct (parse_argument_str_of_int n Hlen) as (Hp & Hs & Hc).
  split; [exact Hp|].
  change ("click_marker(" ++ str_of_int n ++ ")")
    with ("click_marker" ++ String "(" (str_of_int n ++ ")")).
  rewrite (act_invocation "click_marker" (str_of_int n) s ltac:(discriminate) eq_refl Hc).
  rewrite Hs, Hp. reflexivity.
Qed.

End Refusals.

(** ** The records of the history *)

Section Numbering.

Context {W Elem Img : Type} {env : Env W Elem Img}.

Lemma run_steps_numbered (task : string) (n : nat) :
  forall (i : nat) (s : State W),
  exists appended,
    history_of (snd (run_steps task n i s)) = (history_of s ++ appended)%list
    /\ numbered i appended = true.
Proof.
  induction n as [|n IH]; intros i s.
  - exists []. simpl. rewrite app_nil_r. auto.
  - rewrite run_steps_iteration.
    pose proof (kept_observe task s) as Ho.
    destruct (observe task s) as [[[[obs rsn] code] | e] s1]; simpl in Ho.
    2:{ exists []. simpl. rewrite app_nil_r, Ho. auto. }
    destruct (String.eqb code "final_answer").
    { exists []. simpl. rewrite app_nil_r, Ho. auto. }
    destruct (in_list (lower code) ["stop"; "exit"; "done"]).
    { exists [mkStepInfo i obs rsn code (Some "stopped") None].
      cbn. unfold history_of in *. cbn. rewrite Ho, Nat.eqb_refl. auto. }
    pose proof (kept_act code s1) as Ha.
    destruct (act code s1) as [[[ok info] | e] s2]; simpl in Ha.
    2:{ exists []. simpl. rewrite app_nil_r, Ha, Ho. auto. }
    set (r := mkStepInfo i obs rsn code None (Some (ok, info))).
    cbv zeta.
    assert (H3 : history_of (recorded r s2) = (history_of s ++ [r])%list).
    { unfold recorded, history_of in *. cbn. rewrite Ha, Ho. reflexivity. }
    destruct (contains "stop" (lower info) || contains "done" (lower info))%bool eqn:E.
    { exists [r]. cbn [fst snd]. rewrite H3. split; [reflexivity|].
      cbn. rewrite Nat.eqb_refl, E. reflexivity. }
    destruct (IH (S i) (recorded r s2)) as (app & Happ & Hnum).
    exists (r :: app). rewrite Happ, H3, <- app_assoc. split; [reflexivity|].
    cbn. rewrite Nat.eqb_refl, E, Hnum. reflexivity.
Qed.

(** X1.  The records that [run_task] appends to the history are numbered
    0, 1, 2, ... in order, one per iteration, and a record that ends the loop
    (a stop, or a result description with stop or done in it) is the last
    one: nothing is recorded after it.  This holds on every path, also when
    the session ends with an exception. *)
Theorem history_is_numbered (task url : string) (s : State W) :
  exists appended,
    history_of (snd (run_task task url s)) = (history_of s ++ appended)%list
    /\ numbered 0 appended = true.
Proof.
  rewrite run_task_unfold.
  pose proof (kept_session_start url s) as H0.
  destruct (session_start url s) as [[[]|e0] s1]; simpl in H0.
  2:{ exists []. simpl. rewrite app_nil_r. auto. }
  destruct (run_steps_numbered task MAX_STEPS 0 s1) as (app & Happ & Hnum).
  destruct (run_steps task MAX_STEPS 0 s1) as [[e|e] s2]; simpl in Happ.
  2:{ exists app. simpl. rewrite Happ, H0. auto. }
  exists app. split; [|exact Hnum].
  destruct e as [answer| |]; simpl;
    try (rewrite (kept_generate_final_answer task s2));
    rewrite Happ, H0; reflexivity.
Qed.

(** X12.  Nothing but the loop of [run_task] writes the history: [act],
    [observe], [_generate_final_answer], the browser's [init] and
    [visit_page] and the agent's [close] leave it as it is, whether they
    return or raise. *)
Theorem history_is_written_by_the_loop_only :
  (forall code, keeps (@history_of W) (act code))
  /\ (forall task, keeps (@history_of W) (observe task))
  /\ (forall task, keeps (@history_of W) (_generate_final_answer task))
  /\ keeps (@history_of W) init
  /\ (forall url, keeps (@history_of W) (visit_page url))
  /\ keeps (@history_of W) agent_close.
Proof.
  repeat apply conj; intros.
  - apply kept_act.
  - apply kept_observe.
  - apply kept_generate_final_answer.
  - apply kept_init.
  - apply kept_visit_page.
  - apply kept_close.
Qed.

End Numbering.

(** ** The replies of the chat model as [observe] and [run_task] read them *)

Section Decoding.

Context {W Elem Img : Type} {env : Env W Elem Img}.

(** What [observe] returns when the reply decodes to an object whose
    action code is a string. *)
Lemma observe_reply (task : string) (s : State W) (p : Handle)
  (shot img : Img) (w1 w2 w3 : W) (content : string)
  (d : list (string * value)) (c : string) :
  page (browser (agent s)) = Some p ->
  page_screenshot (world s) = (Ok shot, w1) ->
  image_open shot w1 = (Ok img, w2) ->
  model_step (observe_message task (history_of s) img) w2 = (Ok content, w3) ->
  _parse_json_output content = JObj d ->
  dict_lookup "action_code" d = Some (JStr c) ->
  observe task s =
  (Ok (if String.eqb (lower c) "final_answer"
       then (JStr "", field d "answer", strip c)
       else (field d "observation", field d "reasoning", strip c)),
   mkState (agent s) w3).
Proof.
  intros Hp H1 H2 H3 Hd Hc.
  rewrite (observe_unfold task s p shot img w1 w2 Hp H1 H2), H3.
  unfold try_except. cbv zeta. rewrite Hd.
  unfold bind, dict_get, ret, as_str, field. rewrite Hc. cbn.
  destruct (String.eqb (lower c) "final_answer"); reflexivity.
Qed.

(** The action code that [observe] returns has no whitespace around it. *)
Lemma observe_code_stripped (task : string) (s s1 : State W) (obs rsn : value) (code : string) :
  observe task s = (Ok (obs, rsn, code), s1) -> strip code = code.
Proof.
  unfold observe. unfold bind at 1. unfold self_page, bind at 1, self_browser, ret at 1.
  destruct (page (browser (agent s))); [|intros H; inversion H; reflexivity].
  unfold bind at 1, ext at 1.
  destruct (page_screenshot (world s)) as [[shot|e] w1]; [|discriminate].
  unfold bind at 1, ext at 1. cbn [agent world].
  destruct (image_open shot w1) as [[img|e] w2]; [|discriminate].
  unfold bind at 1, self_history, bind at 1, get, ret at 1.
  unfold bind at 1, ext at 1. cbn [agent world].
  destruct (model_step _ w2) as [[content|e] w3]; [|discriminate].
  cbv zeta. unfold try_except, bind, dict_get, as_str, raise, ret.
  destruct (_parse_json_output content) as [| | | | |l|d];
    try (intros H; inversion H; reflexivity).
  destruct (match dict_lookup "action_code" d with Some v => v | None => JStr "" end)
    as [| | | |c| |]; try (intros H; inversion H; reflexivity).
  destruct (String.eqb (lower c) "final_answer");
    intros H; inversion H; apply strip_idempotent.
Qed.

Section Replies.

Variables (task : string) (n i : nat) (s : State W) (p : Handle)
  (shot img : Img) (w1 w2 w3 : W) (content : string)
  (d : list (string * value)) (c : string).

Hypothesis page_open : page (browser (agent s)) = Some p.
Hypothesis screenshot_taken : page_screenshot (world s) = (Ok shot, w1).
Hypothesis image_opened : image_open shot w1 = (Ok img, w2).
Hypothesis model_replied :
  model_step (observe_message task (history_of s) img) w2 = (Ok content, w3).
Hypothesis reply_decoded : _parse_json_output content = JObj d.
Hypothesis code_given : dict_lookup "action_code" d = Some (JStr c).

(** X2.  When the reply of the chat model decodes to an object whose
    action code is exactly final_answer, the session ends at once with the
    value of its answer key (the empty string when the key is missing):
    nothing is recorded, no action is run and the model is not asked
    again. *)
Theorem final_answer_is_returned :
  c = "final_answer" ->
  rest_of_run task (S n) i s = (Ok (field d "answer"), mkState (agent s) w3).
Proof.
  intros ->. unfold rest_of_run, bind. rewrite run_steps_iteration.
  rewrite (observe_reply task s p shot img w1 w2 w3 content d "final_answer"
             page_open screenshot_taken image_opened model_replied reply_decoded code_given).
  reflexivity.
Qed.

(** X3.  [observe] compares the action code with final_answer after
    lower-casing it, [run_task] compares it as it is.  A reply whose action
    code is final_answer in another capitalisation is therefore not an
    answer: the step is recorded as the failed action "Invalid action: code",
    with the answer in the place of the reasoning and an empty observation,
    and the loop goes on. *)
Theorem capitalised_final_answer_is_refused :
  lower c = "final_answer" -> c <> "final_answer" ->
  run_steps task (S n) i s =
  run_steps task n (S i)
    (recorded (mkStepInfo i (JStr "") (field d "answer") c None
                          (Some (false, "Invalid action: " ++ c)))
              (mkState (agent s) w3)).
Proof.
  intros Hl Hc.
  pose proof (final_answer_word c Hl) as Hw.
  pose proof (strip_word c Hw) as Hs.
  rewrite run_steps_iteration.
  rewrite (observe_reply task s p shot img w1 w2 w3 content d c
             page_open screenshot_taken image_opened model_replied reply_decoded code_given).
  rewrite Hl, Hs. change ("final_answer" =? "final_answer") with true. cbv iota.
  destruct (String.eqb_spec c "final_answer") as [E|_]; [contradiction|].
  rewrite Hl. change (in_list "final_answer" ["stop"; "exit"; "done"]) with false. cbv iota.
  rewrite (act_invalid c _ None); rewrite ?Hs, ?(word_parse c Hw); cbn [fst snd];
    [ | rewrite Hl; reflexivity | reflexivity | exact (final_answer_unregistered c Hl) ].
  cbv zeta. rewrite lower_app, Hl. reflexivity.
Qed.

(** X4.  [observe] compares the action code before it strips it,
    [run_task] after.  A reply whose action code is final_answer with
    whitespace around it ends the session, but with the value of its
    reasoning key, not of its answer key. *)
Theorem padded_final_answer_returns_reasoning :
  strip c = "final_answer" -> c <> "final_answer" ->
  rest_of_run task (S n) i s = (Ok (field d "reasoning"), mkState (agent s) w3).
Proof.
  intros Hs Hc. unfold rest_of_run, bind. rewrite run_steps_iteration.
  rewrite (observe_reply task s p shot img w1 w2 w3 content d c
             page_open screenshot_taken image_opened model_replied reply_decoded code_given).
  destruct (String.eqb_spec (lower c) "final_answer") as [Hl|_].
  { exfalso. apply Hc. rewrite <- (strip_word c (final_answer_word c Hl)). exact Hs. }
  rewrite Hs. reflexivity.
Qed.

End Replies.

(** X5.  The check that ends the loop reads the description of a refusal
    too.  When the action code is ASCII text, its argument (if any) is one
    the dispatcher can read, and the name of the action is not registered
    and has stop or done in it (in any capitalisation), the refusal
    "Invalid action: name" is recorded as a failed step and the loop breaks
    there: what is left of [run_task] is the final synthesis. *)
Theorem refused_name_with_stop_word_ends_loop
  (task : string) (n i : nat) (s s1 : State W) (obs rsn : value) (code : string)
  (a : option arg) :
  observe task s = (Ok (obs, rsn, code), s1) ->
  ascii_text code = true ->
  code <> "final_answer" ->
  in_list (lower code) ["stop"; "exit"; "done"] = false ->
  snd (parse_action code) = Ok a ->
  in_list (fst (parse_action code)) GOOGLE_MAPS_ACTIONS = false ->
  (contains "stop" (lower (fst (parse_action code)))
   || contains "done" (lower (fst (parse_action code))))%bool = true ->
  let s2 := recorded (mkStepInfo i obs rsn code None
                        (Some (false, "Invalid action: " ++ fst (parse_action code)))) s1 in
  run_steps task (S n) i s = (Ok Broke, s2)
  /\ rest_of_run task (S n) i s = _generate_final_answer task s2.
Proof.
  intros Ho _ Hc Hstop Hparsed Hreg Hword s2.
  pose proof (observe_code_stripped task s s1 obs rsn code Ho) as Hs.
  assert (Hrun : run_steps task (S n) i s = (Ok Broke, s2)).
  { rewrite run_steps_iteration, Ho.
    destruct (String.eqb_spec code "final_answer") as [E|_]; [contradiction|].
    rewrite Hstop, (act_invalid code s1 a); rewrite ?Hs, ?stop_lists_agree; auto.
    cbv zeta. rewrite lower_app.
    apply orb_prop in Hword as [H|H];
      rewrite (contains_app_r _ (lower "Invalid action: ") _ H), ?orb_true_r; reflexivity. }
  split; [exact Hrun|]. unfold rest_of_run, bind. rewrite Hrun. reflexivity.
Qed.

End Decoding.

(** ** The methods of the browser never raise *)

Section NeverRaises.

Context {W Elem Img : Type} {env : Env W Elem Img}.

Lemma returns_with_page {A : Type} (d : A) (body : Prog (W := W) A) :
  returns body -> returns (with_page d body).
Proof. intros H s. apply with_page_returns, H. Qed.

Lemma returns_or_false (body : Prog (W := W) bool) : returns (or_false body).
Proof. intros s. apply or_false_returns. Qed.

Lemma returns_try_except {A : Type} (m : Prog (W := W) A) (a : A) :
  returns (try_except m (fun _ => ret a)).
Proof. intros s. unfold try_except, ret. destruct (m s) as [[x|e] s']; eauto. Qed.

(** X11.  No exception leaves a method of [GoogleMapsBrowser] that acts on
    the page, nor [wait_for_load], [stop] and [close]: whatever Playwright
    raises inside is caught, and the method returns ([init], [visit_page] and
    [get_url] have no handler). *)
Theorem browser_actions_never_raise :
  (forall t, returns (wait_for_load t))
  /\ (forall a, returns (click_id a))
  /\ returns enter_street_view
  /\ (forall n, returns (click_marker n))
  /\ returns street_view_move_forward
  /\ returns street_view_move_backward
  /\ returns street_view_turn_left
  /\ returns street_view_turn_right
  /\ returns show_historical_dates
  /\ (forall a, returns (select_historical_date a))
  /\ returns flip_view
  /\ returns move_left
  /\ returns move_right
  /\ returns scroll_up
  /\ returns scroll_down
  /\ returns back
  /\ returns (stop (W := W))
  /\ (forall a, returns (find_text_on_page a))
  /\ returns click_blank_area
  /\ returns close.
Proof.
  repeat apply conj; intros;
    first [ apply returns_with_page; first [apply returns_or_false | apply returns_try_except]
          | intros s; destruct (close_returns s) as [s' H]; exists tt, s'; exact H
          | intros s; unfold stop, ret; solve [eauto] ].
Qed.

End NeverRaises.

(** ** What changes the agent: the pages visited *)

Create HintDb agent_kept.

Section AgentKept.

Context {W Elem Img : Type} {env : Env W Elem Img}.

Lemma agent_kept_self_browser : keeps (agent (W := W)) self_browser.
Proof. intro s. reflexivity. Qed.

Hint Resolve kept_agent_ext kept_agent_self_page agent_kept_self_browser : agent_kept.

Ltac agent_kept_auto :=
  unfold with_page, or_false;
  repeat first [ solve [auto with agent_kept] | keeps_step ].

Lemma agent_kept_wait_for_load (t : Z) : keeps agent (wait_for_load t).
Proof. unfold wait_for_load. agent_kept_auto. Qed.

Hint Resolve agent_kept_wait_for_load : agent_kept.

Lemma agent_kept_click_id (a : arg) : keeps agent (click_id a).
Proof. unfold click_id. agent_kept_auto. Qed.

Lemma agent_kept_click_first_visible (l : list string) :
  keeps agent (click_first_visible l).
Proof. induction l; simpl; agent_kept_auto. Qed.

Lemma agent_kept_visible_markers_info (l : list Elem) (i : nat) :
  keeps agent (visible_markers_info i l).
Proof. revert i. induction l; intro i; simpl; agent_kept_auto. Qed.

Hint Resolve agent_kept_click_first_visible agent_kept_visible_markers_info : agent_kept.

Lemma agent_kept_enter_street_view : keeps agent enter_street_view.
Proof. unfold enter_street_view. agent_kept_auto. Qed.

Lemma agent_kept_filter_visible (l : list Elem) : keeps agent (filter_visible l).
Proof. induction l; simpl; agent_kept_auto. Qed.

Hint Resolve agent_kept_click_id agent_kept_enter_street_view agent_kept_filter_visible
  : agent_kept.

Lemma agent_kept_click_marker (n : Z) : keeps agent (click_marker n).
Proof. unfold click_marker. agent_kept_auto. Qed.

Lemma agent_kept_move_forward : keeps agent street_view_move_forward.
Proof. unfold street_view_move_forward. agent_kept_auto. Qed.

Lemma agent_kept_move_backward : keeps agent street_view_move_backward.
Proof. unfold street_view_move_backward. agent_kept_auto. Qed.

Lemma agent_kept_turn_left : keeps agent street_view_turn_left.
Proof. unfold street_view_turn_left. agent_kept_auto. Qed.

Lemma agent_kept_turn_right : keeps agent street_view_turn_right.
Proof. unfold street_view_turn_right. agent_kept_auto. Qed.

Lemma agent_kept_aria_labels_of (l : list Elem) : keeps agent (aria_labels_of l).
Proof. induction l; simpl; agent_kept_auto. Qed.

Hint Resolve agent_kept_click_marker agent_kept_move_forward agent_kept_move_backward
  agent_kept_turn_left agent_kept_turn_right agent_kept_aria_labels_of : agent_kept.

Lemma agent_kept_show_historical_dates : keeps agent show_historical_dates.
Proof. unfold show_historical_dates. agent_kept_auto. Qed.

Hint Resolve agent_kept_show_historical_dates : agent_kept.

Lemma agent_kept_select_historical_date (a : arg) : keeps agent (select_historical_date a).
Proof. unfold select_historical_date. agent_kept_auto. Qed.

Lemma agent_kept_flip_view : keeps agent flip_view.
Proof. unfold flip_view. agent_kept_auto. Qed.

Lemma agent_kept_move_left : keeps agent move_left.
Proof. unfold move_left. agent_kept_auto. Qed.

Lemma agent_kept_move_right : keeps agent move_right.
Proof. unfold move_right. agent_kept_auto. Qed.

Lemma agent_kept_scroll_up : keeps agent scroll_up.
Proof. unfold scroll_up. agent_kept_auto. Qed.

Lemma agent_kept_scroll_down : keeps agent scroll_down.
Proof. unfold scroll_down. agent_kept_auto. Qed.

Lemma agent_kept_back : keeps agent back.
Proof. unfold back. agent_kept_auto. Qed.

Lemma agent_kept_stop : keeps agent (stop (W := W)).
Proof. unfold stop. agent_kept_auto. Qed.

Lemma agent_kept_get_url : keeps agent get_url.
Proof. unfold get_url. agent_kept_auto. Qed.

Lemma agent_kept_find_text_on_page (a : arg) : keeps agent (find_text_on_page a).
Proof. unfold find_text_on_page. agent_kept_auto. Qed.

Lemma agent_kept_click_blank_area : keeps agent click_blank_area.
Proof. unfold click_blank_area. agent_kept_auto. Qed.

(** [close] closes what it can and leaves the attributes of the browser
    object as they are: the handles stay set. *)
Lemma agent_kept_close : keeps agent close.
Proof. unfold close. agent_kept_auto. Qed.

Hint Resolve agent_kept_select_historical_date agent_kept_flip_view agent_kept_move_left
  agent_kept_move_right agent_kept_scroll_up agent_kept_scroll_down agent_kept_back
  agent_kept_stop agent_kept_get_url agent_kept_find_text_on_page
  agent_kept_click_blank_area agent_kept_close : agent_kept.

Lemma agent_kept_call_method (f : string) : keeps agent (call_method f).
Proof. unfold call_method, lift_bool. agent_kept_auto. Qed.

Lemma agent_kept_self_history : keeps (agent (W := W)) self_history.
Proof. unfold self_history. agent_kept_auto. Qed.

Lemma agent_kept_dict_get (d : value) (k : string) (v : value) :
  keeps (agent (W := W)) (dict_get d k v).
Proof. unfold dict_get. agent_kept_auto. Qed.

Lemma agent_kept_as_str (v : value) : keeps (agent (W := W)) (as_str v).
Proof. unfold as_str. agent_kept_auto. Qed.

Hint Resolve agent_kept_call_method agent_kept_self_history agent_kept_dict_get
  agent_kept_as_str : agent_kept.

Lemma agent_kept_observe (task : string) : keeps agent (observe task).
Proof. unfold observe. agent_kept_auto. Qed.

Lemma agent_kept_generate_final_answer (task : string) :
  keeps agent (_generate_final_answer task).
Proof. unfold _generate_final_answer. agent_kept_auto. Qed.

Lemma agent_kept_construct : keeps agent (construct (W := W)).
Proof. unfold construct. agent_kept_auto. Qed.

(** [visit_page] changes the agent in one way: the URL is appended to the
    pages visited, when the page was loaded. *)
Lemma visit_page_agent (u : string) (s : State W) :
  agent (snd (visit_page u s)) = agent s
  \/ (fst (visit_page u s) = Ok tt
      /\ agent (snd (visit_page u s)) = with_browser (visited u) (agent s)).
Proof.
  unfold visit_page.
  destruct (page (browser (agent s))) as [p|] eqn:Hp;
    [|rewrite (with_page_none _ _ s Hp); left; reflexivity].
  rewrite with_page_some by (exists p; exact Hp). unfold bind.
  pose proof (kept_agent_ext (page_goto u 60000) s) as H1.
  destruct (ext (page_goto u 60000) s) as [[[]|e] s1]; [|left; exact H1].
  pose proof (agent_kept_wait_for_load 5 s1) as H2.
  destruct (wait_for_load 5 s1) as [[[]|e] s2]; simpl in H1, H2.
  - right. split; [reflexivity|]. cbn. rewrite H2, H1. reflexivity.
  - left. cbn. congruence.
Qed.

Lemma self_start_url_cases (s : State W) :
  self_start_url s =
  match start_url (agent s) with
  | Some u => (Ok u, s)
  | None => (Raise "'GoogleMapsAgent' object has no attribute 'start_url'", s)
  end.
Proof.
  unfold self_start_url, bind, get, ret, raise.
  destruct (start_url (agent s)); reflexivity.
Qed.

(** The back branch of [act]: a visit of the start URL. *)
Lemma execute_back (s : State W) :
  execute "back" None s =
  match start_url (agent s) with
  | Some u =>
      match visit_page u s with
      | (Ok _, s1) => (Ok (true, "Executed action: back:True"), s1)
      | (Raise e, s1) => (Raise e, s1)
      end
  | None => (Raise "'GoogleMapsAgent' object has no attribute 'start_url'", s)
  end.
Proof.
  change (execute "back" None s) with
    ((url <- self_start_url ;; visit_page url ;;
      ret (true, "Executed action: back:True"))%prog s).
  unfold bind at 1. rewrite self_start_url_cases.
  destruct (start_url (agent s)); reflexivity.
Qed.

Lemma execute_agent (f : string) (a : option arg) (s : State W) :
  agent (snd (execute f a s)) = agent s
  \/ (f = "back" /\ a = None
      /\ exists u, start_url (agent s) = Some u
                   /\ agent (snd (execute f a s)) = with_browser (visited u) (agent s)).
Proof.
  destruct a as [a|]; [|destruct (String.eqb_spec f "back") as [->|Hback]].
  3:{ left. unfold execute.
      destruct (in_list f GOOGLE_MAPS_ACTIONS); [|reflexivity]. cbv [negb].
      destruct (String.eqb_spec f "enter_street_view") as [_|_].
      { revert s. apply keeps_bind; [auto with agent_kept|]. agent_kept_auto. }
      destruct (String.eqb_spec f "back") as [E|_]; [contradiction|].
      revert s. apply keeps_bind; [auto with agent_kept|]. agent_kept_auto. }
  2:{ rewrite execute_back.
      destruct (start_url (agent s)) as [u|] eqn:Hu; [|left; reflexivity].
      destruct (visit_page_agent u s) as [H|[Hok H]].
      - left. destruct (visit_page u s) as [[[]|e] s1]; exact H.
      - right. repeat split. exists u. split; [reflexivity|].
        destruct (visit_page u s) as [[[]|e] s1]; [exact H|discriminate Hok]. }
  unfold execute. destruct (in_list f GOOGLE_MAPS_ACTIONS) eqn:Hin; [|left; reflexivity].
  cbv [negb]. left.
  destruct (String.eqb_spec f "visit_page") as [->|_]; [discriminate Hin|].
  revert s. change (keeps agent
    (if f =? "click_id" then (result <- click_id a ;; ret (result, "Clicked ID: " ++ arg_str a))%prog
     else if f =? "select_historical_date"
     then (result <- select_historical_date a ;;
           ret (result, "Selected historical date: " ++ arg_str a))%prog
     else if f =? "find_text_on_page"
     then (result <- find_text_on_page a ;; ret (result, "Searched text: " ++ arg_str a))%prog
     else if f =? "click_marker"
     then match a with
          | AInt n => (result <- click_marker n ;;
                       ret (result, "Clicked marker #" ++ str_of_int n))%prog
          | AStr s => ret (false, "Invalid argument for click_marker: " ++ s)
          end
     else ret (false, "Action " ++ f ++ " does not take arguments"))).
  agent_kept_auto.
Qed.


Lemma act_agent (code : string) (s : State W) :
  agent (snd (act code s)) = agent s
  \/ exists u, start_url (agent s) = Some u
               /\ agent (snd (act code s)) = with_browser (visited u) (agent s).
Proof.
  unfold act. cbv zeta.
  destruct (in_list (lower (strip code)) stop_words); [left; reflexivity|].
  destruct (parse_action (strip code)) as [f [a|x]]; unfold try_except, bind, of_res;
    [|left; reflexivity].
  destruct (execute_agent f a s) as [H|(_ & _ & u & Hu & H)];
    [left | right; exists u; split; [exact Hu|]];
    destruct (execute f a s) as [[r|e] s1]; exact H.
Qed.

Lemma itinerary_ext {A : Type} (op : W -> Res A * W) : keeps (@itinerary W) (ext op).
Proof. intro s. unfold ext. destruct (op (world s)). reflexivity. Qed.

Lemma itinerary_update_browser (f : Browser -> Browser) :
  (forall b, page_history (f b) = page_history b) ->
  keeps (@itinerary W) (update_browser f).
Proof. intros H s. unfold itinerary, pages_visited. cbn. rewrite H. reflexivity. Qed.

(** [init] sets the handles and nothing else. *)
Lemma init_itinerary : keeps (@itinerary W) init.
Proof.
  unfold init, self_page, self_browser.
  repeat first [ apply itinerary_ext
               | apply itinerary_update_browser; intro; reflexivity
               | intro s0; reflexivity
               | keeps_step ].
Qed.

Lemma run_steps_pages (task u : string) (n : nat) :
  forall (i : nat) (s : State W),
  start_url (agent s) = Some u ->
  exists k, pages_visited (snd (run_steps task n i s)) = (pages_visited s ++ repeat u k)%list.
Proof.
  induction n as [|n IH]; intros i s Hu.
  - exists 0. simpl. rewrite app_nil_r. reflexivity.
  - rewrite run_steps_iteration.
    pose proof (agent_kept_observe task s) as Ho.
    destruct (observe task s) as [[[[obs rsn] code]|e] s1]; simpl in Ho.
    2:{ exists 0. unfold pages_visited. simpl. rewrite app_nil_r, Ho. reflexivity. }
    destruct (String.eqb code "final_answer").
    { exists 0. unfold pages_visited. simpl. rewrite app_nil_r, Ho. reflexivity. }
    destruct (in_list (lower code) ["stop"; "exit"; "done"]).
    { exists 0. unfold pages_visited. cbn. rewrite app_nil_r, Ho. reflexivity. }
    assert (Ha : start_url (agent (snd (act code s1))) = Some u
                 /\ exists k, pages_visited (snd (act code s1))
                              = (pages_visited s ++ repeat u k)%list).
    { unfold pages_visited.
      destruct (act_agent code s1) as [H|(u' & Hu' & H)]; rewrite H, ?Ho.
      - split; [exact Hu|]. exists 0. simpl. rewrite app_nil_r. reflexivity.
      - rewrite Ho, Hu in Hu'. injection Hu' as <-.
        split; [exact Hu|]. exists 1. reflexivity. }
    destruct Ha as [Hu2 [k Hk]].
    destruct (act code s1) as [[[ok info]|e] s2]; simpl in Hu2, Hk.
    2:{ exists k. exact Hk. }
    cbv zeta.
    destruct (contains "stop" (lower info) || contains "done" (lower info))%bool.
    { exists k. exact Hk. }
    destruct (IH (S i) (recorded (mkStepInfo i obs rsn code None (Some (ok, info))) s2) Hu2)
      as [k' Hk'].
    exists (k + k'). rewrite Hk'.
    change (pages_visited (recorded _ s2)) with (pages_visited s2).
    rewrite Hk, repeat_app, app_assoc. reflexivity.
Qed.

(** X14.  A session visits its start URL and no other address: the pages
    that [run_task] appends to [page_history] are copies of the start URL
    (one for the first visit, one for each back that loads), on every path,
    and [run_google_maps_task_api], which starts from a new agent, ends with
    a [page_history] that holds nothing else. *)
Theorem only_the_start_url_is_visited (task url : string) :
  (forall s : State W,
     exists k, pages_visited (snd (run_task task url s))
               = (pages_visited s ++ repeat url k)%list)
  /\ (forall w : W,
        exists k, pages_visited (snd (run_google_maps_task_api task url w)) = repeat url k).
Proof.
  assert (Hrun : forall s : State W,
            exists k, pages_visited (snd (run_task task url s))
                      = (pages_visited s ++ repeat url k)%list).
  { intro s. rewrite run_task_unfold. unfold session_start, bind.
    unfold update_agent at 1, modify at 1.
    set (s0 := mkState (set_start_url url (agent s)) (world s)).
    pose proof (init_itinerary s0) as Hi. unfold itinerary in Hi.
    destruct (init s0) as [[[]|e] s1]; simpl in Hi; injection Hi as Hu Hp.
    2:{ exists 0. simpl. rewrite app_nil_r. exact Hp. }
    assert (Hv : start_url (agent (snd (visit_page url s1))) = Some url
                 /\ exists k, pages_visited (snd (visit_page url s1))
                              = (pages_visited s ++ repeat url k)%list).
    { unfold pages_visited in *.
      destruct (visit_page_agent url s1) as [H|[_ H]]; rewrite H.
      - split; [exact Hu|]. exists 0. simpl. rewrite app_nil_r. exact Hp.
      - split; [exact Hu|]. exists 1. cbn. rewrite Hp. reflexivity. }
    destruct Hv as [Hu2 [k Hk]].
    destruct (visit_page url s1) as [[[]|e] s2]; simpl in Hu2, Hk.
    2:{ exists k. exact Hk. }
    destruct (run_steps_pages task url MAX_STEPS 0 s2 Hu2) as [k' Hk'].
    assert (Hend : pages_visited
                     (snd (match run_steps task MAX_STEPS 0 s2 with
                           | (Ok e, s3) => after_loop task e s3
                           | (Raise e, s3) => (Raise e, s3)
                           end))
                   = pages_visited (snd (run_steps task MAX_STEPS 0 s2))).
    { destruct (run_steps task MAX_STEPS 0 s2) as [[[answer| |]|e] s3];
        try reflexivity; unfold pages_visited; simpl;
        rewrite (agent_kept_generate_final_answer task s3); reflexivity. }
    exists (k + k'). rewrite Hend, Hk', Hk, repeat_app, app_assoc. reflexivity. }
  split; [exact Hrun|].
  intro w. unfold run_google_maps_task_api, bind.
  set (s0 := mkState (new_agent false None) w).
  pose proof (agent_kept_construct s0) as Hc.
  destruct (construct s0) as [[[]|e] s1]; simpl in Hc.
  2:{ exists 0. unfold pages_visited. simpl. rewrite Hc. reflexivity. }
  destruct (Hrun s1) as [k Hk].
  assert (Hs1 : pages_visited s1 = []) by (unfold pages_visited; rewrite Hc; reflexivity).
  rewrite Hs1 in Hk. simpl in Hk.
  destruct (run_task task url s1) as [[answer|e] s2]; simpl in Hk.
  2:{ exists k. exact Hk. }
  pose proof (agent_kept_close s2) as Hcl. unfold agent_close.
  destruct (close s2) as [[[]|e] s3]; simpl in Hcl;
    exists k; unfold pages_visited in *; simpl; rewrite Hcl; exact Hk.
Qed.

(** X21.  When [run_task] returns an answer, [run_google_maps_task_api]
    returns the same answer after [agent.close()], whatever happens while
    the browser is closed; closing leaves the attributes of the agent as
    they were (the page handle stays set). *)
Theorem answer_is_returned_after_close (task url : string) (w : W) (s s1 : State W)
  (answer : value) :
  construct (mkState (new_agent false None) w) = (Ok tt, s) ->
  run_task task url s = (Ok answer, s1) ->
  exists w2,
    agent_close s1 = (Ok tt, mkState (agent s1) w2)
    /\ run_google_maps_task_api task url w = (Ok answer, mkState (agent s1) w2).
Proof.
  intros Hc Hr. unfold run_google_maps_task_api, bind. rewrite Hc, Hr.
  destruct (close_returns s1) as [s2 H2].
  pose proof (agent_kept_close s1) as Ha. rewrite H2 in Ha. simpl in Ha.
  exists (world s2). unfold agent_close. rewrite H2, <- Ha.
  destruct s2. split; reflexivity.
Qed.

(** X20.  [close] stops at the first thing that fails to close and
    reports nothing: when [page.close()] raises, the context, the browser
    and Playwright are not closed, and [close] returns normally. *)
Theorem close_stops_at_the_first_failure (s : State W) (p : Handle) (e : Exn) (w1 w2 : W) :
  page (browser (agent s)) = Some p ->
  page_is_closed (world s) = (Ok false, w1) ->
  page_close w1 = (Raise e, w2) ->
  close s = (Ok tt, mkState (agent s) w2).
Proof.
  intros Hp H1 H2. unfold close, try_except. unfold bind at 1. unfold self_browser.
  unfold bind at 1. rewrite Hp. unfold bind at 1. unfold ext at 1. rewrite H1.
  cbn [negb]. unfold ext at 1. cbn [world agent]. rewrite H2. reflexivity.
Qed.

End AgentKept.

(** ** Rotations of the view composed *)

Section Turns.

Context {W Elem Img : Type} {env : Env W Elem Img}.

Variable hm : HeadingModel.

Lemma turn_left_heading (s s' : State W) :
  street_view_turn_left s = (Ok true, s') ->
  heading_of hm s' = ((heading_of hm s + -90) mod 360)%Z.
Proof.
  rewrite turn_left_rotation.
  exact (click_rotation_heading hm counterclockwise_selector (turns_left hm) (-90) s s'
           (found_left hm) (click_left hm)).
Qed.

Lemma turn_right_heading (s s' : State W) :
  street_view_turn_right s = (Ok true, s') ->
  heading_of hm s' = ((heading_of hm s + 90) mod 360)%Z.
Proof.
  rewrite turn_right_rotation.
  exact (click_rotation_heading hm clockwise_selector (turns_right hm) 90 s s'
           (found_right hm) (click_right hm)).
Qed.

(** The two rotations of [flip_view], one after the other. *)
Lemma flip_view_cases (s : State W) :
  has_page s ->
  flip_view s =
  match street_view_turn_right s with
  | (Ok success1, s1) =>
      match street_view_turn_right s1 with
      | (Ok success2, s2) => (Ok (success1 && success2)%bool, s2)
      | (Raise _, s2) => (Ok false, s2)
      end
  | (Raise _, s1) => (Ok false, s1)
  end.
Proof.
  intro Hp. unfold flip_view. rewrite (with_page_some _ _ s Hp).
  unfold or_false, try_except, bind, ret.
  destruct (street_view_turn_right s) as [[b1|e] s1]; [|reflexivity].
  destruct (street_view_turn_right s1) as [[b2|e] s2]; reflexivity.
Qed.

Lemma turn_twice (h a b : Z) : (((h + a) mod 360 + b) mod 360 = (h + (a + b)) mod 360)%Z.
Proof. rewrite Zplus_mod_idemp_l. f_equal. lia. Qed.

(** A rotation that fails leaves the heading as it was, when a click that
    raises does not turn the view. *)
Lemma click_rotation_failed_heading (sel : string) (s s' : State W) :
  (forall e t w x w', click e t w = (Raise x, w') -> heading hm w' = heading hm w) ->
  click_rotation sel s = (Ok false, s') ->
  heading_of hm s' = heading_of hm s.
Proof.
  intros Hraise. unfold click_rotation, with_page, self_page, self_browser.
  unfold bind at 1. unfold bind at 1. cbn [ret].
  destruct (page (browser (agent s))); [|intro H; injection H as <-; reflexivity].
  unfold or_false, try_except, heading_of.
  unfold bind at 1. unfold ext at 1.
  pose proof (query_keeps hm sel (world s)) as Hq.
  destruct (query_selector sel (world s)) as [[[e|]|x] w1]; simpl in Hq;
    try (intro H; injection H as <-; exact Hq).
  unfold bind at 1. unfold ext at 1. cbn [world agent].
  pose proof (visible_keeps hm e w1) as Hv.
  destruct (is_visible e w1) as [[[|]|x] w2]; simpl in Hv;
    try (intro H; injection H as <-; cbn [world]; rewrite Hv; exact Hq).
  unfold bind at 1. unfold ext at 1. cbn [world agent].
  pose proof (Hraise e 3000%Z w2) as Hc.
  destruct (click e 3000 w2) as [[[]|x] w3]; [discriminate|].
  intro H. injection H as <-. cbn [world].
  rewrite (Hc x w3 eq_refl), Hv. exact Hq.
Qed.

Lemma turn_right_failed_heading (s s' : State W) :
  (forall e t w x w', click e t w = (Raise x, w') -> heading hm w' = heading hm w) ->
  street_view_turn_right s = (Ok false, s') ->
  heading_of hm s' = heading_of hm s.
Proof. rewrite turn_right_rotation. apply click_rotation_failed_heading. Qed.

(** X15.  [flip_view] is two clockwise rotations.  When it succeeds the
    heading has turned by 180 degrees.  It does not stop at a rotation that
    fails and undoes nothing: where a click that raises turns nothing, if one
    of the two rotations succeeds and the other fails, [flip_view] reports
    failure and ends with the view turned by a quarter turn; if both fail it
    ends with the view as it was. *)
Theorem flip_view_heading (s : State W) :
  has_page s ->
  (forall s',
     flip_view s = (Ok true, s') ->
     heading_of hm s' = ((heading_of hm s + 180) mod 360)%Z
     /\ exists s1, street_view_turn_right s = (Ok true, s1)
                   /\ street_view_turn_right s1 = (Ok true, s'))
  /\ ((forall e t w x w', click e t w = (Raise x, w') -> heading hm w' = heading hm w) ->
      (forall s1 s2,
         street_view_turn_right s = (Ok true, s1) ->
         street_view_turn_right s1 = (Ok false, s2) ->
         flip_view s = (Ok false, s2)
         /\ heading_of hm s2 = ((heading_of hm s + 90) mod 360)%Z)
      /\ (forall s1 s2,
            street_view_turn_right s = (Ok false, s1) ->
            street_view_turn_right s1 = (Ok true, s2) ->
            flip_view s = (Ok false, s2)
            /\ heading_of hm s2 = ((heading_of hm s + 90) mod 360)%Z)
      /\ (forall s1 s2,
            street_view_turn_right s = (Ok false, s1) ->
            street_view_turn_right s1 = (Ok false, s2) ->
            flip_view s = (Ok false, s2)
            /\ heading_of hm s2 = heading_of hm s)).
Proof.
  intro Hp. rewrite (flip_view_cases s Hp). split.
  - intros s' H.
    destruct (street_view_turn_right s) as [[b1|e] s1] eqn:E1; [|discriminate].
    destruct (street_view_turn_right s1) as [[b2|e] s2] eqn:E2; [|discriminate].
    injection H as Hb <-. apply andb_prop in Hb as [-> ->].
    split; [|exists s1; split; [reflexivity|exact E2]].
    rewrite (turn_right_heading s1 s2 E2), (turn_right_heading s s1 E1).
    apply turn_twice.
  - intro Hraise. split; [|split].
    + intros s1 s2 H1 H2. rewrite H1, H2. split; [reflexivity|].
      rewrite (turn_right_failed_heading s1 s2 Hraise H2).
      exact (turn_right_heading s s1 H1).
    + intros s1 s2 H1 H2. rewrite H1, H2. split; [reflexivity|].
      rewrite (turn_right_heading s1 s2 H2).
      rewrite (turn_right_failed_heading s s1 Hraise H1). reflexivity.
    + intros s1 s2 H1 H2. rewrite H1, H2. split; [reflexivity|].
      rewrite (turn_right_failed_heading s1 s2 Hraise H2).
      exact (turn_right_failed_heading s s1 Hraise H1).
Qed.

(** X16.  The two rotations are inverse to each other and of order four:
    a left turn and a right turn that succeed, in either order, restore the
    heading, and so do four successful turns the same way. *)
Theorem rotations_compose (s : State W) :
  (forall s1 s2,
     street_view_turn_left s = (Ok true, s1) ->
     street_view_turn_right s1 = (Ok true, s2) ->
     heading_of hm s2 = (heading_of hm s mod 360)%Z)
  /\ (forall s1 s2,
        street_view_turn_right s = (Ok true, s1) ->
        street_view_turn_left s1 = (Ok true, s2) ->
        heading_of hm s2 = (heading_of hm s mod 360)%Z)
  /\ (forall s1 s2 s3 s4,
        street_view_turn_right s = (Ok true, s1) ->
        street_view_turn_right s1 = (Ok true, s2) ->
        street_view_turn_right s2 = (Ok true, s3) ->
        street_view_turn_right s3 = (Ok true, s4) ->
        heading_of hm s4 = (heading_of hm s mod 360)%Z)
  /\ (forall s1 s2 s3 s4,
        street_view_turn_left s = (Ok true, s1) ->
        street_view_turn_left s1 = (Ok true, s2) ->
        street_view_turn_left s2 = (Ok true, s3) ->
        street_view_turn_left s3 = (Ok true, s4) ->
        heading_of hm s4 = (heading_of hm s mod 360)%Z).
Proof.
  repeat apply conj.
  - intros s1 s2 H1 H2.
    rewrite (turn_right_heading s1 s2 H2), (turn_left_heading s s1 H1), turn_twice.
    f_equal. lia.
  - intros s1 s2 H1 H2.
    rewrite (turn_left_heading s1 s2 H2), (turn_right_heading s s1 H1), turn_twice.
    f_equal. lia.
  - intros s1 s2 s3 s4 H1 H2 H3 H4.
    rewrite (turn_right_heading _ _ H4), (turn_right_heading _ _ H3), turn_twice,
      (turn_right_heading _ _ H2), turn_twice, (turn_right_heading _ _ H1), turn_twice.
    exact (Z_mod_plus_full (heading_of hm s) 1 360).
  - intros s1 s2 s3 s4 H1 H2 H3 H4.
    rewrite (turn_left_heading _ _ H4), (turn_left_heading _ _ H3), turn_twice,
      (turn_left_heading _ _ H2), turn_twice, (turn_left_heading _ _ H1), turn_twice.
    exact (Z_mod_plus_full (heading_of hm s) (-1) 360).
Qed.

End Turns.

(** ** Elements and markers chosen by index *)

Section Indices.

Context {W Elem Img : Type} {env : Env W Elem Img}.

Lemma steady_tail (vis : Elem -> bool) (label : Elem -> option string)
  (m : Elem) (rest : list Elem) (w : W) :
  steady vis label (m :: rest) w -> steady vis label rest w.
Proof. intros H x Hx. apply H. right. exact Hx. Qed.

(** [click_id] with an integer, once the elements of the page are
    known. *)
Lemma click_id_by_index (n : Z) (s : State W) (elements : list Elem) (w1 : W) :
  has_page s ->
  query_selector_all "*" (world s) = (Ok elements, w1) ->
  click_id (AInt n) s =
  or_false
    (if (n <? Z.of_nat (List.length elements))%Z then
       match py_index elements n with
       | Some e =>
           (ext (scroll_into_view_if_needed e) ;;
            ext (click e 3000) ;;
            wait_for_load 5 ;;
            ret true)%prog
       | None => raise "list index out of range"
       end
     else ret false) (mkState (agent s) w1).
Proof.
  intros Hp Hq. unfold click_id. rewrite (with_page_some _ _ s Hp).
  unfold or_false, try_except. unfold bind at 1. unfold ext at 1. rewrite Hq.
  reflexivity.
Qed.

(** X17.  [click_id] with an integer checks the upper bound of the index
    only.  An index at or past the number of elements clicks nothing and
    gives False; so does one below minus that number (the IndexError is
    caught).  A negative index in between is not refused: it counts from the
    end, as Python's list indexing does, and clicks that element. *)
Theorem click_id_index_bounds (n : Z) (s : State W) (elements : list Elem) (w1 : W) :
  has_page s ->
  query_selector_all "*" (world s) = (Ok elements, w1) ->
  let len := Z.of_nat (List.length elements) in
  ((len <= n)%Z -> click_id (AInt n) s = (Ok false, mkState (agent s) w1))
  /\ ((n < - len)%Z -> click_id (AInt n) s = (Ok false, mkState (agent s) w1))
  /\ ((- len <= n < 0)%Z -> click_id (AInt n) s = click_id (AInt (len + n)) s).
Proof.
  intros Hp Hq len. rewrite !(click_id_by_index _ s elements w1 Hp Hq). fold len.
  repeat apply conj; intro H.
  - destruct (Z.ltb_spec n len); [lia|]. reflexivity.
  - destruct (Z.ltb_spec n len); [|lia]. unfold py_index. fold len.
    destruct (Z.leb_spec 0 n); [lia|]. destruct (Z.leb_spec 0 (len + n)); [lia|].
    reflexivity.
  - destruct (Z.ltb_spec n len); [|lia]. destruct (Z.ltb_spec (len + n) len); [|lia].
    unfold py_index. fold len.
    destruct (Z.leb_spec 0 n); [lia|]. destruct (Z.leb_spec 0 (len + n)); [|lia].
    reflexivity.
Qed.

(** X18.  [click_marker] checks both bounds: an index that is negative, or
    at or past the number of visible markers, clicks nothing and gives
    False, once the markers have been listed and their visibility read. *)
Theorem click_marker_index_bounds
  (index : Z) (s s2 : State W) (markers visible : list Elem) (w1 : W) :
  has_page s ->
  query_selector_all ".hfpxzc" (world s) = (Ok markers, w1) ->
  filter_visible markers (mkState (agent s) w1) = (Ok visible, s2) ->
  (index < 0 \/ Z.of_nat (List.length visible) <= index)%Z ->
  click_marker index s = (Ok false, s2).
Proof.
  intros Hp Hq Hf Hi. unfold click_marker. rewrite (with_page_some _ _ s Hp).
  unfold or_false, try_except. unfold bind at 1. unfold ext at 1. rewrite Hq.
  unfold bind at 1. rewrite Hf.
  destruct (Z.leb_spec 0 index); destruct (Z.ltb_spec index (Z.of_nat (List.length visible)));
    try lia; reflexivity.
Qed.

Lemma filter_visible_steady (vis : Elem -> bool) (label : Elem -> option string)
  (markers : list Elem) (a : Agent) (w : W) :
  steady vis label markers w ->
  filter_visible markers (mkState a w) = (Ok (filter vis markers), mkState a w).
Proof.
  induction markers as [|m rest IH]; intro H; [reflexivity|].
  simpl. unfold bind at 1. unfold ext at 1. cbn [world agent].
  rewrite (proj1 (H m (or_introl eq_refl))).
  unfold bind. rewrite (IH (steady_tail _ _ _ _ _ H)). unfold ret.
  destruct (vis m); reflexivity.
Qed.

Lemma visible_markers_info_steady (vis : Elem -> bool) (label : Elem -> option string)
  (markers : list Elem) (a : Agent) (w : W) :
  steady vis label markers w ->
  forall i, exists infos,
    visible_markers_info i markers (mkState a w) = (Ok infos, mkState a w)
    /\ map marker_element infos = filter vis markers
    /\ forall k info, nth_error infos k = Some info ->
         i <= marker_index info
         /\ nth_error markers (marker_index info - i) = Some (marker_element info)
         /\ k = List.length (filter vis (firstn (marker_index info - i) markers)).
Proof.
  induction markers as [|m rest IH]; intros H i.
  - exists []. split; [reflexivity|]. split; [reflexivity|].
    intros [|k] mi Hk; discriminate Hk.
  - destruct (IH (steady_tail _ _ _ _ _ H) (S i)) as (more & Hrun & Hmap & Hidx).
    destruct (H m (or_introl eq_refl)) as [Hv Hl].
    simpl visible_markers_info. unfold bind at 1. unfold ext at 1. cbn [world agent].
    rewrite Hv. destruct (vis m) eqn:Em.
    + unfold bind at 1. unfold ext at 1. cbn [world agent]. rewrite Hl.
      unfold bind. rewrite Hrun. unfold ret.
      eexists. split; [reflexivity|]. split.
      * simpl. rewrite Em, Hmap. reflexivity.
      * intros [|k] mi Hk.
        -- injection Hk as <-. cbn [marker_index marker_element].
           rewrite Nat.sub_diag. split; [lia|]. split; reflexivity.
        -- destruct (Hidx k mi Hk) as (Hle & Hnth & Hcount).
           replace (marker_index mi - i) with (S (marker_index mi - S i)) by lia.
           split; [lia|]. split; [exact Hnth|].
           simpl. rewrite Em. simpl. rewrite <- Hcount. reflexivity.
    + exists more. split; [exact Hrun|]. split.
      * simpl. rewrite Em. exact Hmap.
      * intros k mi Hk. destruct (Hidx k mi Hk) as (Hle & Hnth & Hcount).
        replace (marker_index mi - i) with (S (marker_index mi - S i)) by lia.
        split; [lia|]. split; [exact Hnth|].
        simpl. rewrite Em. exact Hcount.
Qed.

(** X19.  The index that [enter_street_view] reports for a marker is its
    position among all the markers of the page, while [click_marker] takes
    a position among the visible ones.  On a page whose markers are steady,
    the list of markers reported and the list [click_marker] indexes hold the
    same elements in the same order, and the marker at position [k] of that
    list is reported with the index [k] plus the number of hidden markers
    before it: the two agree only as long as no earlier marker is hidden. *)
Theorem reported_marker_index_counts_hidden_markers
  (vis : Elem -> bool) (label : Elem -> option string)
  (markers : list Elem) (a : Agent) (w : W) :
  steady vis label markers w ->
  exists infos,
    visible_markers_info 0 markers (mkState a w) = (Ok infos, mkState a w)
    /\ filter_visible markers (mkState a w) = (Ok (map marker_element infos), mkState a w)
    /\ forall k info, nth_error infos k = Some info ->
         nth_error markers (marker_index info) = Some (marker_element info)
         /\ k = List.length (filter vis (firstn (marker_index info) markers))
         /\ k <= marker_index info.
Proof.
  intro H.
  destruct (visible_markers_info_steady vis label markers a w H 0) as (infos & Hrun & Hmap & Hidx).
  exists infos. split; [exact Hrun|]. split.
  - rewrite Hmap. exact (filter_visible_steady vis label markers a w H).
  - intros k info Hk. destruct (Hidx k info Hk) as (_ & Hnth & Hcount).
    rewrite Nat.sub_0_r in Hnth, Hcount. split; [exact Hnth|]. split; [exact Hcount|].
    rewrite Hcount.
    transitivity (List.length (firstn (marker_index info) markers)).
    + clear. induction (firstn (marker_index info) markers) as [|x l IH]; simpl; [lia|].
      destruct (vis x); simpl; lia.
    + rewrite length_firstn. lia.
Qed.

End Indices.

(** ** What the chat model is shown of the history *)

Section Shown.

Context {W Elem Img : Type} {env : Env W Elem Img}.

Lemma observe_line_shown (r : StepInfo) : observe_line (shown_to_oracle r) = observe_line r.
Proof.
  unfold observe_line, shown_to_oracle. cbn [step observation action_code outcome].
  destruct (outcome r) as [[[] info]|]; reflexivity.
Qed.

Lemma final_line_shown (r : StepInfo) : final_line (shown_at_the_end r) = final_line r.
Proof.
  unfold final_line, shown_at_the_end. cbn [step observation action_code outcome].
  destruct (outcome r) as [[[] info]|]; reflexivity.
Qed.

Lemma map_shown {A : Type} (f : StepInfo -> A) (g : StepInfo -> StepInfo) (h h' : list StepInfo) :
  (forall r, f (g r) = f r) -> map g h = map g h' -> map f h = map f h'.
Proof.
  intros Hfg H.
  transitivity (map f (map g h)).
  - rewrite map_map. apply map_ext. intro r. symmetry. apply Hfg.
  - rewrite H, map_map. apply map_ext. exact Hfg.
Qed.

(** [_generate_final_answer] on a given history. *)
Lemma generate_final_answer_history (task : string) (h : list StepInfo) (s : State W) :
  _generate_final_answer task (with_history h s) =
  match model_step (mkMessage "user" (final_answer_prompt task (join nl (map final_line h))) [])
                   (world s) with
  | (Ok content, w) => (Ok (JStr content), with_history h (mkState (agent s) w))
  | (Raise _, w) => (Ok (JStr "Failed to complete the task"), with_history h (mkState (agent s) w))
  end.
Proof.
  unfold _generate_final_answer. unfold bind at 1.
  unfold self_history, bind at 1, get, ret at 1. cbv zeta.
  unfold try_except, bind, ext, ret. cbn [with_history agent world history].
  destruct (model_step _ (world s)) as [[content|e] w]; reflexivity.
Qed.

(** [observe] on a given history. *)
Lemma observe_history (task : string) (h : list StepInfo) (s : State W) :
  observe task (with_history h s) =
  match page (browser (agent s)) with
  | None => (Ok (JStr "", JStr "", "stop"), with_history h s)
  | Some _ =>
      match page_screenshot (world s) with
      | (Raise e, w1) => (Raise e, with_history h (mkState (agent s) w1))
      | (Ok shot, w1) =>
          match image_open shot w1 with
          | (Raise e, w2) => (Raise e, with_history h (mkState (agent s) w2))
          | (Ok img, w2) =>
              match model_step (observe_message task h img) w2 with
              | (Raise e, w3) => (Raise e, with_history h (mkState (agent s) w3))
              | (Ok content, w3) =>
                  try_except
                    (let resp_dict := _parse_json_output content in
                     code <- dict_get resp_dict "action_code" (JStr "") ;;
                     code <- as_str code ;;
                     if String.eqb (lower code) "final_answer" then
                       answer <- dict_get resp_dict "answer" (JStr "") ;;
                       ret (JStr "", answer, strip code)
                     else
                       observation <- dict_get resp_dict "observation" (JStr "") ;;
                       reasoning <- dict_get resp_dict "reasoning" (JStr "") ;;
                       ret (observation, reasoning, strip code))%prog
                    (fun _ => ret (JStr "", JStr "", ""))
                    (with_history h (mkState (agent s) w3))
              end
          end
      end
  end.
Proof.
  unfold observe. unfold bind at 1. unfold self_page, bind at 1, self_browser, ret at 1.
  cbn [with_history agent browser world].
  destruct (page (browser (agent s))); [|reflexivity].
  unfold bind at 1, ext at 1. cbn [with_history agent world].
  destruct (page_screenshot (world s)) as [[shot|e] w1]; [|reflexivity].
  unfold bind at 1, ext at 1. cbn [agent world].
  destruct (image_open shot w1) as [[img|e] w2]; [|reflexivity].
  unfold bind at 1, self_history, bind at 1, get, ret at 1.
  unfold bind at 1, ext at 1. cbn [agent world history]. unfold observe_message.
  destruct (model_step _ w2) as [[content|e] w3]; reflexivity.
Qed.

(** The decoding of a reply does not look at the state. *)
Lemma decode_reply_pure (content : string) :
  exists r, forall s : State W,
    try_except
      (let resp_dict := _parse_json_output content in
       code <- dict_get resp_dict "action_code" (JStr "") ;;
       code <- as_str code ;;
       if String.eqb (lower code) "final_answer" then
         answer <- dict_get resp_dict "answer" (JStr "") ;;
         ret (JStr "", answer, strip code)
       else
         observation <- dict_get resp_dict "observation" (JStr "") ;;
         reasoning <- dict_get resp_dict "reasoning" (JStr "") ;;
         ret (observation, reasoning, strip code))%prog
      (fun _ => ret (JStr "", JStr "", "")) s = (r, s).
Proof.
  cbv zeta. unfold try_except, bind, dict_get, as_str, raise, ret.
  destruct (_parse_json_output content) as [| | | | |l|d];
    try (eexists; intro st; reflexivity).
  destruct (match dict_lookup "action_code" d with Some v => v | None => JStr "" end)
    as [| | | |c| |]; try (eexists; intro st; reflexivity).
  destruct (String.eqb (lower c) "final_answer"); eexists; intro st; reflexivity.
Qed.

(** X22.  What [observe] asks the chat model depends on the history only
    through the number, observation and action code of each step and the
    result description of the steps that succeeded.  The reasoning of
    earlier steps, the status of a stopped step and the description of a
    failure never reach the model: two histories that differ in those only
    give the same decision and leave the same world. *)
Theorem oracle_sees_no_failure_detail (task : string) (h h' : list StepInfo) (s : State W) :
  map shown_to_oracle h = map shown_to_oracle h' ->
  fst (observe task (with_history h s)) = fst (observe task (with_history h' s))
  /\ world (snd (observe task (with_history h s)))
     = world (snd (observe task (with_history h' s))).
Proof.
  intro H. rewrite !observe_history. unfold observe_message.
  rewrite (map_shown observe_line shown_to_oracle h h' observe_line_shown H).
  destruct (page (browser (agent s))); [|split; reflexivity].
  destruct (page_screenshot (world s)) as [[shot|e] w1]; [|split; reflexivity].
  destruct (image_open shot w1) as [[img|e] w2]; [|split; reflexivity].
  destruct (model_step _ w2) as [[content|e] w3]; [|split; reflexivity].
  destruct (decode_reply_pure content) as [r Hr]. rewrite !Hr. split; reflexivity.
Qed.

(** X23.  The final synthesis is asked with less: of each step its number,
    observation, action code and whether it succeeded.  No result
    description (the dates found, the markers listed) and no reasoning is
    in the prompt of [_generate_final_answer]: two histories that differ in
    those only give the same final answer. *)
Theorem final_answer_sees_no_result (task : string) (h h' : list StepInfo) (s : State W) :
  map shown_at_the_end h = map shown_at_the_end h' ->
  fst (_generate_final_answer task (with_history h s))
  = fst (_generate_final_answer task (with_history h' s))
  /\ world (snd (_generate_final_answer task (with_history h s)))
     = world (snd (_generate_final_answer task (with_history h' s))).
Proof.
  intro H. rewrite !generate_final_answer_history.
  rewrite (map_shown final_line shown_at_the_end h h' final_line_shown H).
  destruct (model_step _ (world s)) as [[content|e] w]; split; reflexivity.
Qed.

End Shown.

(** ** The properties on the simulated environment *)

Module Checks.

Import Sim Runs.

(** The heading of the simulated street view, with its laws. *)
Lemma sim_found_left (w : simworld) (e : elem) (w' : simworld) :
  query_selector counterclockwise_selector w = (Ok (Some e), w') ->
  e = CounterclockwiseButton.
Proof.
  cbn. unfold find. destruct (in_street_view w); [|discriminate].
  change (String.eqb counterclockwise_selector counterclockwise_selector) with true.
  cbv iota. congruence.
Qed.

Lemma sim_found_right (w : simworld) (e : elem) (w' : simworld) :
  query_selector clockwise_selector w = (Ok (Some e), w') ->
  e = ClockwiseButton.
Proof.
  cbn. unfold find. destruct (in_street_view w); [|discriminate].
  change (String.eqb clockwise_selector counterclockwise_selector) with false.
  change (String.eqb clockwise_selector clockwise_selector) with true.
  cbv iota. congruence.
Qed.

Lemma sim_click_left (e : elem) (t : Z) (w w' : simworld) :
  e = CounterclockwiseButton -> click e t w = (Ok tt, w') ->
  heading w' = ((heading w + -90) mod 360)%Z.
Proof. intros -> H. cbn in H. injection H as <-. reflexivity. Qed.

Lemma sim_click_right (e : elem) (t : Z) (w w' : simworld) :
  e = ClockwiseButton -> click e t w = (Ok tt, w') ->
  heading w' = ((heading w + 90) mod 360)%Z.
Proof. intros -> H. cbn in H. injection H as <-. reflexivity. Qed.

Lemma sim_mouse_keeps (x y : Z) (w : simworld) :
  heading (snd (mouse_click x y w)) = heading w.
Proof.
  cbn. destruct ((x =? 640)%Z && (y =? 360)%Z)%bool; [|reflexivity].
  destruct (advance_ok w); reflexivity.
Qed.

Definition sim_heading : HeadingModel :=
  mkHeadingModel heading
    (fun e => e = CounterclockwiseButton) (fun e => e = ClockwiseButton)
    sim_found_left sim_found_right sim_click_left sim_click_right
    (fun _ _ => eq_refl) (fun _ _ => eq_refl) (fun _ => eq_refl) sim_mouse_keeps.


(** C10 on a session whose first action searches the page for the word
    done: the search succeeds, its description has the word in it, and the
    session ends there with the fallback answer. *)
Lemma stop_word_in_result_ends_loop_witness :
  act search_code (snd (observe task (started searching)))
  = (Ok (true, "Searched text: done"),
     snd (act search_code (snd (observe task (started searching)))))
  /\ fst (rest_of_run task MAX_STEPS 0 (started searching)) = Ok (JStr "Nothing yet")
  /\ List.length (history_of (snd (rest_of_run task MAX_STEPS 0 (started searching)))) = 1.
Proof.
  set (s := started searching).
  assert (Ho : observe task s
               = (Ok (JStr "a map", JStr "next", search_code), snd (observe task s)))
    by (vm_compute; reflexivity).
  assert (Ha : act search_code (snd (observe task s))
               = (Ok (true, "Searched text: done"),
                  snd (act search_code (snd (observe task s)))))
    by (vm_compute; reflexivity).
  destruct (stop_word_in_result_ends_loop task 14 0 s _ _ _ _ _ _ Ho
              ltac:(discriminate) eq_refl Ha (or_intror eq_refl)) as [_ Hrest].
  split; [exact Ha|].
  change MAX_STEPS with 15. rewrite Hrest. split; vm_compute; reflexivity.
Defined.

(** C7 as the code has it, on both scripts: one call and the exception; a
    failed step for the prose, and a second call at the next iteration. *)
Lemma oracle_failure_not_retried_witness :
  (fst (run_steps task MAX_STEPS 0 (started broken_line)) = Raise "Connection timed out"
   /\ oracle_calls (world (snd (run_steps task MAX_STEPS 0 (started broken_line)))) = 1)
  /\ (fst (observe task (started garbled)) = Ok (JStr "", JStr "", "")
      /\ map outcome (history_of (snd (run_steps task MAX_STEPS 0 (started garbled))))
         = [Some (false, "Invalid action: "); None]
      /\ oracle_calls (world (snd (run_steps task MAX_STEPS 0 (started garbled)))) = 2).
Proof.
  split.
  - pose proof (oracle_failure_not_retried task 14 0 (started broken_line) handle
                  tt tt (world (started broken_line)) (world (started broken_line))
                  (snd (answer (world (started broken_line))))
                  (Raise "Connection timed out")
                  eq_refl eq_refl eq_refl eq_refl) as (_ & Hrun & _).
    change MAX_STEPS with 15. rewrite Hrun. split; reflexivity.
  - pose proof (oracle_failure_not_retried task 14 0 (started garbled) handle
                  tt tt (world (started garbled)) (world (started garbled))
                  (snd (answer (world (started garbled))))
                  (Ok "I cannot decide.")
                  eq_refl eq_refl eq_refl eq_refl (or_introl eq_refl)) as (Hobs & Hrun).
    change MAX_STEPS with 15. rewrite Hobs, Hrun. repeat split; vm_compute; reflexivity.
Defined.

(** Against C7 as stated: the oracle fails once, it was called once, and
    the session ends with the exception, not with an answer string. *)
Lemma oracle_failure_counterexample :
  run_google_maps_task_api task url (fresh broken_line)
  = (Raise "Connection timed out",
     snd (run_google_maps_task_api task url (fresh broken_line)))
  /\ oracle_calls (world (snd (run_google_maps_task_api task url (fresh broken_line)))) = 1
  /\ history_of (snd (run_google_maps_task_api task url (fresh broken_line))) = [].
Proof. repeat split; vm_compute; reflexivity. Qed.

(** C6 as the code has it, where the browser cannot be launched and where
    the start URL cannot be loaded. *)
Lemma init_failure_is_raised_witness :
  (run_task task url (mkState (new_agent false None) no_browser)
   = (Raise "BrowserType.launch: the executable does not exist",
      snd (init (mkState (set_start_url url (new_agent false None)) no_browser)))
   /\ history_of (snd (run_task task url (mkState (new_agent false None) no_browser))) = []
   /\ oracle_calls (world (snd (run_task task url
                                  (mkState (new_agent false None) no_browser)))) = 0)
  /\ (run_task task url (mkState (new_agent false None) no_network)
      = (Raise "Page.goto: net::ERR_NAME_NOT_RESOLVED",
         snd (session_start url (mkState (new_agent false None) no_network)))
      /\ history_of (snd (run_task task url (mkState (new_agent false None) no_network))) = []
      /\ oracle_calls (world (snd (run_task task url
                                     (mkState (new_agent false None) no_network)))) = 0).
Proof.
  split.
  - assert (H : run_task task url (mkState (new_agent false None) no_browser)
                = (Raise "BrowserType.launch: the executable does not exist",
                   snd (init (mkState (set_start_url url (new_agent false None))
                                      no_browser)))).
    { refine (proj1 (init_failure_is_raised task url
                       (mkState (new_agent false None) no_browser) _ _ _)).
      left. vm_compute. reflexivity. }
    split; [exact H|]. rewrite H. split; vm_compute; reflexivity.
  - assert (H : run_task task url (mkState (new_agent false None) no_network)
                = (Raise "Page.goto: net::ERR_NAME_NOT_RESOLVED",
                   snd (session_start url (mkState (new_agent false None) no_network)))).
    { refine (proj1 (init_failure_is_raised task url
                       (mkState (new_agent false None) no_network) _ _ _)).
      right.
      exists (snd (init (mkState (set_start_url url (new_agent false None)) no_network))).
      split; vm_compute; reflexivity. }
    split; [exact H|]. rewrite H. split; vm_compute; reflexivity.
Defined.

(** Against C6 as stated: in both worlds the tool raises, with no step
    recorded, and returns no answer string. *)
Lemma init_failure_counterexample :
  run_google_maps_task_api task url no_browser
  = (Raise "BrowserType.launch: the executable does not exist",
     snd (run_google_maps_task_api task url no_browser))
  /\ history_of (snd (run_google_maps_task_api task url no_browser)) = []
  /\ run_google_maps_task_api task url no_network
     = (Raise "Page.goto: net::ERR_NAME_NOT_RESOLVED",
        snd (run_google_maps_task_api task url no_network))
  /\ history_of (snd (run_google_maps_task_api task url no_network)) = [].
Proof. repeat split; vm_compute; reflexivity. Qed.

(** C8, where the code departs from it.  When the oracle cannot be reached
    [run_google_maps_task_api] raises and the browser it launched is still
    running: [agent.close()] was never called.  On a session that ends
    normally the browser is closed. *)
Theorem browser_left_open_on_error :
  fst (run_google_maps_task_api task url (fresh broken_line)) = Raise "Connection timed out"
  /\ running (world (snd (run_google_maps_task_api task url (fresh broken_line)))) = true
  /\ fst (run_google_maps_task_api task url (fresh [decision "stop"; Ok "Nothing found"]))
     = Ok (JStr "Nothing found")
  /\ running (world (snd (run_google_maps_task_api task url
                             (fresh [decision "stop"; Ok "Nothing found"])))) = false.
Proof. repeat split; vm_compute; reflexivity. Qed.

(** C3 in the simulated street view, facing 0 degrees: a lateral move that
    succeeds ends facing 0; one whose advance fails ends turned, at 270
    degrees to the left and at 90 to the right. *)
Lemma lateral_move_heading_witness :
  (fst (move_left (in_view 0 true)) = Ok true
   /\ heading_of sim_heading (snd (move_left (in_view 0 true))) = 0%Z)
  /\ (move_left (in_view 0 false) = (Ok false, snd (move_left (in_view 0 false)))
      /\ heading_of sim_heading (snd (move_left (in_view 0 false))) = 270%Z)
  /\ (fst (move_right (in_view 0 true)) = Ok true
      /\ heading_of sim_heading (snd (move_right (in_view 0 true))) = 0%Z)
  /\ (move_right (in_view 0 false) = (Ok false, snd (move_right (in_view 0 false)))
      /\ heading_of sim_heading (snd (move_right (in_view 0 false))) = 90%Z).
Proof.
  assert (Hp : forall b, has_page (in_view 0 b)) by (intro b; exists handle; reflexivity).
  assert (Hr : forall b, (0 <= heading_of sim_heading (in_view 0 b) < 360)%Z)
    by (intro b; vm_compute; split; congruence).
  destruct (lateral_move_heading sim_heading (in_view 0 true) (Hp true) (Hr true))
    as (L & _ & R & _).
  destruct (lateral_move_heading sim_heading (in_view 0 false) (Hp false) (Hr false))
    as (_ & Lf & _ & Rf).
  split; [|split; [|split]].
  - split; [reflexivity|].
    refine (proj1 (L (snd (move_left (in_view 0 true))) _)). vm_compute. reflexivity.
  - assert (H1 : street_view_turn_left (in_view 0 false)
                 = (Ok true, snd (street_view_turn_left (in_view 0 false))))
      by (vm_compute; reflexivity).
    assert (H2 : street_view_move_forward (snd (street_view_turn_left (in_view 0 false)))
                 = (Ok false, snd (move_left (in_view 0 false))))
      by (vm_compute; reflexivity).
    destruct (Lf _ _ H1 H2) as (H3 & H4 & _).
    split; [exact H3 | rewrite H4; reflexivity].
  - split; [reflexivity|].
    refine (proj1 (R (snd (move_right (in_view 0 true))) _)). vm_compute. reflexivity.
  - assert (H1 : street_view_turn_right (in_view 0 false)
                 = (Ok true, snd (street_view_turn_right (in_view 0 false))))
      by (vm_compute; reflexivity).
    assert (H2 : street_view_move_forward (snd (street_view_turn_right (in_view 0 false)))
                 = (Ok false, snd (move_right (in_view 0 false))))
      by (vm_compute; reflexivity).
    destruct (Rf _ _ H1 H2) as (H3 & H4 & _).
    split; [exact H3 | rewrite H4; reflexivity].
Defined.

(** The simulated map outside the street view is a page on which nothing
    is found. *)
Definition sim_map : EmptyPage :=
  mkEmptyPage (fun w => in_street_view w = false)
    (fun sel w H => ex_intro _ w (conj (f_equal (fun o => (Ok o, w))
                                          (eq_trans (f_equal (fun b : bool =>
                                             if b then
                                               if String.eqb sel counterclockwise_selector
                                               then Some CounterclockwiseButton
                                               else if String.eqb sel clockwise_selector
                                                    then Some ClockwiseButton else None
                                             else None) H) eq_refl)) H))
    (fun sel w H => ex_intro _ w (conj eq_refl H))
    (fun sel w H => ex_intro _ w (conj eq_refl H)).



(** C4 as the code has it, on the digits 2010 and on a numeral of 4301
    digits. *)
Lemma argument_coercion_witness :
  parse_action "select_historical_date(2010)"
  = ("select_historical_date", Ok (Some (AInt 2010)))
  /\ parse_action "select_historical_date('2010')"
     = ("select_historical_date", Ok (Some (AStr "2010")))
  /\ act "click_marker('2010')" (started [])
     = (Ok (false, "Invalid argument for click_marker: 2010"), started [])
  /\ act ("click_marker(" ++ long_numeral ++ ")") (started [])
     = (Ok (false, int_limit_error 4301), started []).
Proof.
  destruct (argument_coercion_ignores_action "select_historical_date" "2010" (started [])
              ltac:(discriminate) eq_refl eq_refl) as (H1 & _ & H3 & H4).
  destruct (argument_coercion_ignores_action "click_marker" long_numeral (started [])
              ltac:(discriminate) eq_refl ltac:(vm_compute; reflexivity))
    as (_ & H2 & _).
  split; [|split; [|split]].
  - apply H1. vm_compute. discriminate.
  - exact (H3 "'"%char "'"%char eq_refl eq_refl).
  - exact (H4 "'"%char "'"%char eq_refl eq_refl).
  - apply H2. vm_compute. reflexivity.
Defined.

(** Against C4 as stated: bare digits reach the string-typed actions as an
    integer (which the simulated keyboard, as Playwright's, does not type),
    and quoted digits reach [click_marker] as a string, which it refuses. *)
Lemma argument_coercion_counterexample :
  parse_action "select_historical_date(2010)"
  = ("select_historical_date", Ok (Some (AInt 2010)))
  /\ parse_action "find_text_on_page(123)" = ("find_text_on_page", Ok (Some (AInt 123)))
  /\ act "find_text_on_page(123)" (started [])
     = (Ok (false, "Searched text: 123"), snd (act "find_text_on_page(123)" (started [])))
  /\ parse_action "click_marker('3')" = ("click_marker", Ok (Some (AStr "3")))
  /\ act "click_marker('3')" (started [])
     = (Ok (false, "Invalid argument for click_marker: 3"), started []).
Proof. repeat split; vm_compute; reflexivity. Qed.

(** C5 as the code has it, on a fenced object between two sentences, the
    first with inline code in it. *)
Lemma fenced_reply_witness :
  _parse_json_output
    ("Here is my decision: " ++ fence ++ "json" ++ nl ++ object_text action_body ++ nl
       ++ fence ++ " I am done.")
  = JObj [("action_code", JStr "stop")]
  /\ _parse_json_output
       ("I call `stop`: " ++ fence ++ nl ++ object_text action_body ++ nl ++ fence)
     = JObj [("action_code", JStr "stop")].
Proof.
  split.
  - rewrite (fenced_reply_parses_like_bare "Here is my decision: " "json" nl action_body nl
               " I am done." eq_refl (or_intror eq_refl) eq_refl eq_refl eq_refl).
    vm_compute. reflexivity.
  - change ("I call `stop`: " ++ fence ++ nl ++ object_text action_body ++ nl ++ fence)
      with ("I call `stop`: " ++ fence ++ "" ++ nl ++ object_text action_body ++ nl
              ++ fence ++ "").
    rewrite (fenced_reply_parses_like_bare "I call `stop`: " "" nl action_body nl ""
               eq_refl (or_introl eq_refl) eq_refl eq_refl eq_refl).
    vm_compute. reflexivity.
Defined.

(** Against C5 as stated: the object after a sentence, with no fence, is
    not found. *)
Lemma prose_reply_counterexample :
  _parse_json_output (object_text action_body) = JObj [("action_code", JStr "stop")]
  /\ _parse_json_output ("I will stop now. " ++ object_text action_body) = parse_error
  /\ _parse_json_output ("I will stop now. " ++ object_text action_body)
     <> _parse_json_output (object_text action_body).
Proof.
  split; [vm_compute; reflexivity|]. split; [vm_compute; reflexivity|].
  vm_compute. discriminate.
Qed.

(** A name that is not registered and has the word stop in it: the refusal
    is recorded and its description ends the loop, after one step. *)
Example unregistered_name_with_stop_word :
  map outcome (history_of (snd (rest_of_run task MAX_STEPS 0
                                  (started [decision "stop_here()"; Ok "Nothing found"]))))
  = [Some (false, "Invalid action: stop_here")]
  /\ oracle_calls (world (snd (rest_of_run task MAX_STEPS 0
                                 (started [decision "stop_here()"; Ok "Nothing found"])))) = 2.
Proof. split; vm_compute; reflexivity. Qed.

End Checks.

(** ** The further properties on the simulated environments *)

Module Trials.

Import Sim Runs Town Visits Panorama.

(** X2 on a session whose first reply is a final answer: the answer is
    returned, after one call of the model and with nothing recorded. *)
Lemma final_answer_is_returned_witness :
  rest_of_run task MAX_STEPS 0 (started [Ok (reply "final_answer" "seen" "July 2010")])
  = (Ok (JStr "July 2010"),
     snd (observe task (started [Ok (reply "final_answer" "seen" "July 2010")])))
  /\ history_of (snd (observe task (started [Ok (reply "final_answer" "seen" "July 2010")])))
     = []
  /\ oracle_calls
       (world (snd (observe task (started [Ok (reply "final_answer" "seen" "July 2010")]))))
     = 1.
Proof.
  set (s := started [Ok (reply "final_answer" "seen" "July 2010")]).
  pose proof (final_answer_is_returned task 14 0 s handle tt tt (world s) (world s)
                (snd (answer (world s))) (reply "final_answer" "seen" "July 2010")
                (decoded "final_answer" "seen" "July 2010") "final_answer"
                eq_refl eq_refl eq_refl eq_refl
                ltac:(vm_compute; reflexivity) eq_refl eq_refl) as H.
  split; [|split; vm_compute; reflexivity].
  change MAX_STEPS with 15. rewrite H. vm_compute. reflexivity.
Defined.

(** X3 on a session whose first reply spells the code Final_Answer: the
    step is recorded as an invalid action that carries the answer as its
    reasoning, the model is asked again, and the answer is not what the
    session returns. *)
Lemma capitalised_final_answer_witness :
  map outcome (history_of (snd (run_steps task MAX_STEPS 0
     (started [Ok (reply "Final_Answer" "seen" "July 2010"); decision "stop"]))))
  = [Some (false, "Invalid action: Final_Answer"); None]
  /\ map reasoning (history_of (snd (run_steps task MAX_STEPS 0
        (started [Ok (reply "Final_Answer" "seen" "July 2010"); decision "stop"]))))
     = [JStr "July 2010"; JStr "next"].
Proof.
  set (s := started [Ok (reply "Final_Answer" "seen" "July 2010"); decision "stop"]).
  pose proof (capitalised_final_answer_is_refused task 14 0 s handle tt tt (world s) (world s)
                (snd (answer (world s))) (reply "Final_Answer" "seen" "July 2010")
                (decoded "Final_Answer" "seen" "July 2010") "Final_Answer"
                eq_refl eq_refl eq_refl eq_refl
                ltac:(vm_compute; reflexivity) eq_refl eq_refl ltac:(discriminate)) as H.
  change MAX_STEPS with 15. rewrite H. split; vm_compute; reflexivity.
Defined.

(** X4 on a session whose first reply has a space after final_answer: the
    session returns the reasoning. *)
Lemma padded_final_answer_witness :
  fst (rest_of_run task MAX_STEPS 0 (started [Ok (reply "final_answer " "seen" "July 2010")]))
  = Ok (JStr "seen").
Proof.
  set (s := started [Ok (reply "final_answer " "seen" "July 2010")]).
  pose proof (padded_final_answer_returns_reasoning task 14 0 s handle tt tt (world s) (world s)
                (snd (answer (world s))) (reply "final_answer " "seen" "July 2010")
                (decoded "final_answer " "seen" "July 2010") "final_answer "
                eq_refl eq_refl eq_refl eq_refl
                ltac:(vm_compute; reflexivity) eq_refl eq_refl ltac:(discriminate)) as H.
  change MAX_STEPS with 15. rewrite H. reflexivity.
Defined.

(** X5 on a session whose first reply asks for stop_here(): one failed
    step is recorded and the final synthesis gives the answer. *)
Lemma refused_name_with_stop_word_witness :
  fst (run_steps task MAX_STEPS 0 (started [decision "stop_here()"; Ok "Nothing found"]))
  = Ok Broke
  /\ map outcome (history_of (snd (run_steps task MAX_STEPS 0
        (started [decision "stop_here()"; Ok "Nothing found"]))))
     = [Some (false, "Invalid action: stop_here")]
  /\ fst (rest_of_run task MAX_STEPS 0 (started [decision "stop_here()"; Ok "Nothing found"]))
     = Ok (JStr "Nothing found").
Proof.
  set (s := started [decision "stop_here()"; Ok "Nothing found"]).
  assert (Ho : observe task s
               = (Ok (JStr "a map", JStr "next", "stop_here()"), snd (observe task s)))
    by (vm_compute; reflexivity).
  destruct (refused_name_with_stop_word_ends_loop task 14 0 s _ _ _ _ None Ho
              eq_refl ltac:(discriminate) eq_refl eq_refl eq_refl eq_refl) as [Hrun Hrest].
  change MAX_STEPS with 15. rewrite Hrun, Hrest.
  split; [reflexivity|]. split; vm_compute; reflexivity.
Defined.

(** X6 on three methods of the browser that are not registered, and on
    one of them with a numeral of 4301 digits. *)
Lemma unregistered_name_witness :
  act "visit_page('https://example.com')" (started [])
  = (Ok (false, "Invalid action: visit_page"), started [])
  /\ act "scroll_down()" (started []) = (Ok (false, "Invalid action: scroll_down"), started [])
  /\ act "scroll_up(3)" (started []) = (Ok (false, "Invalid action: scroll_up"), started [])
  /\ act ("scroll_up(" ++ long_numeral ++ ")") (started [])
     = (Ok (false, int_limit_error 4301), started []).
Proof.
  split; [|split; [|split]].
  - exact (unregistered_name_is_refused "visit_page" "'https://example.com'" (started [])
             ltac:(discriminate) eq_refl eq_refl eq_refl eq_refl).
  - exact (unregistered_name_is_refused "scroll_down" "" (started [])
             ltac:(discriminate) eq_refl eq_refl eq_refl eq_refl).
  - exact (unregistered_name_is_refused "scroll_up" "3" (started [])
             ltac:(discriminate) eq_refl eq_refl eq_refl eq_refl).
  - assert (Hc : all_chars (fun c => negb (Ascii.eqb c ")")) long_numeral = true)
      by (vm_compute; reflexivity).
    assert (Ha : ascii_text long_numeral = true) by (vm_compute; reflexivity).
    assert (Hd : digits_exceed (strip long_numeral) = true) by (vm_compute; reflexivity).
    assert (Hl : String.length (strip long_numeral) = 4301) by (vm_compute; reflexivity).
    pose proof (unregistered_name_is_refused "scroll_up" long_numeral (started [])
                  ltac:(discriminate) eq_refl Hc Ha eq_refl) as H.
    rewrite Hd, Hl in H. exact H.
Defined.

(** X7 on a lateral move with a number of steps, and with a numeral of
    4301 digits. *)
Lemma argument_to_plain_action_witness :
  act "move_left(2)" (started [])
  = (Ok (false, "Action move_left does not take arguments"), started [])
  /\ act ("move_left(" ++ long_numeral ++ ")") (started [])
     = (Ok (false, int_limit_error 4301), started []).
Proof.
  split.
  - refine (argument_to_plain_action_is_refused "move_left" "2" (started [])
              _ _ eq_refl eq_refl _).
    + simpl. tauto.
    + simpl. intuition discriminate.
    + discriminate.
  - assert (Hc : all_chars (fun c => negb (Ascii.eqb c ")")) long_numeral = true)
      by (vm_compute; reflexivity).
    assert (Ha : ascii_text long_numeral = true) by (vm_compute; reflexivity).
    assert (Hd : digits_exceed (strip long_numeral) = true) by (vm_compute; reflexivity).
    assert (Hl : String.length (strip long_numeral) = 4301) by (vm_compute; reflexivity).
    assert (Hne : strip long_numeral <> "") by (vm_compute; discriminate).
    assert (Hin : In "move_left" GOOGLE_MAPS_ACTIONS) by (simpl; tauto).
    assert (Hplain : ~ In "move_left" takes_argument) by (simpl; intuition discriminate).
    pose proof (argument_to_plain_action_is_refused "move_left" long_numeral (started [])
                  Hin Hplain Hc Ha Hne) as H.
    rewrite Hd, Hl in H. exact H.
Defined.

(** X8 on click_marker with blank parentheses and with none. *)
Lemma missing_argument_witness :
  exists parameter,
    act "click_marker( )" (started [])
    = (Ok (false, missing_argument "click_marker" parameter), started [])
    /\ act "click_marker" (started [])
       = (Ok (false, missing_argument "click_marker" parameter), started []).
Proof.
  refine (missing_argument_is_refused "click_marker" " " (started []) _ eq_refl).
  simpl. tauto.
Defined.

(** X9 on an action code with two invocations: the second is not run. *)
Lemma text_after_call_witness :
  act "street_view_turn_right(); street_view_turn_right()" (in_view 0 true)
  = act "street_view_turn_right()" (in_view 0 true)
  /\ heading_of Checks.sim_heading
       (snd (act "street_view_turn_right(); street_view_turn_right()" (in_view 0 true)))
     = 90%Z.
Proof.
  pose proof (text_after_call_is_ignored "street_view_turn_right" ""
                "; street_view_turn_right()" (in_view 0 true)
                ltac:(discriminate) eq_refl eq_refl) as H.
  split; [exact H|]. simpl append in H. rewrite H. vm_compute. reflexivity.
Defined.

(** X10 on the integer -3: it is read back, and the marker of that index
    is asked for (there is none). *)
Lemma integer_argument_round_trip_witness :
  parse_argument (str_of_int (-3)) = Ok (Some (AInt (-3)))
  /\ act "click_marker(-3)" (on_map three_pins)
     = (Ok (false, "Clicked marker #-3"), on_map three_pins).
Proof.
  destruct (integer_argument_round_trip (-3) (on_map three_pins)
              ltac:(vm_compute; discriminate)) as [H1 H2].
  split; [exact H1|].
  change "click_marker(-3)" with ("click_marker(" ++ str_of_int (-3) ++ ")").
  rewrite H2. vm_compute. reflexivity.
Defined.

(** The heading of the street view whose buttons stick, with its laws. *)
Lemma panorama_found_left (w : Panorama.view) (e : Panorama.button) (w' : Panorama.view) :
  query_selector counterclockwise_selector w = (Ok (Some e), w') ->
  e = Panorama.Counterclockwise.
Proof. cbn. congruence. Qed.

Lemma panorama_found_right (w : Panorama.view) (e : Panorama.button) (w' : Panorama.view) :
  query_selector clockwise_selector w = (Ok (Some e), w') ->
  e = Panorama.Clockwise.
Proof. cbn. congruence. Qed.

Lemma panorama_click (e : Panorama.button) (t : Z) (w w' : Panorama.view) :
  click e t w = (Ok tt, w') -> Panorama.facing w' = Panorama.turned e (Panorama.facing w).
Proof.
  cbn. unfold Panorama.press. destruct (Panorama.schedule w) as [|[|] rest];
    intro H; inversion H; reflexivity.
Qed.

Lemma panorama_click_left (e : Panorama.button) (t : Z) (w w' : Panorama.view) :
  e = Panorama.Counterclockwise -> click e t w = (Ok tt, w') ->
  Panorama.facing w' = ((Panorama.facing w + -90) mod 360)%Z.
Proof. intros -> H. exact (panorama_click _ t w w' H). Qed.

Lemma panorama_click_right (e : Panorama.button) (t : Z) (w w' : Panorama.view) :
  e = Panorama.Clockwise -> click e t w = (Ok tt, w') ->
  Panorama.facing w' = ((Panorama.facing w + 90) mod 360)%Z.
Proof. intros -> H. exact (panorama_click _ t w w' H). Qed.

(** A click that times out turns nothing. *)
Lemma panorama_click_raises
  (e : Panorama.button) (t : Z) (w : Panorama.view) (x : Exn) (w' : Panorama.view) :
  click e t w = (Raise x, w') -> Panorama.facing w' = Panorama.facing w.
Proof.
  cbn. unfold Panorama.press. destruct (Panorama.schedule w) as [|[|] rest];
    intro H; inversion H; reflexivity.
Qed.

Definition panorama_heading : HeadingModel :=
  mkHeadingModel Panorama.facing
    (fun e => e = Panorama.Counterclockwise) (fun e => e = Panorama.Clockwise)
    panorama_found_left panorama_found_right panorama_click_left panorama_click_right
    (fun _ _ => eq_refl) (fun _ _ => eq_refl) (fun _ => eq_refl) (fun _ _ _ => eq_refl).

(** X15.  In the simulated street view, facing 0 degrees: the flip ends
    facing 180.  In the street view whose buttons stick, facing 0 degrees:
    when the second click times out, or the first, the flip fails and ends
    facing 90; when both time out it fails and ends facing 0. *)
Lemma flip_view_heading_witness :
  (has_page (in_view 0 true)
   /\ fst (flip_view (in_view 0 true)) = Ok true
   /\ heading_of Checks.sim_heading (snd (flip_view (in_view 0 true))) = 180%Z)
  /\ (has_page (on_street 0 [true; false])
      /\ flip_view (on_street 0 [true; false]) = (Ok false, on_street 90 [])
      /\ heading_of panorama_heading (on_street 90 []) = 90%Z)
  /\ (flip_view (on_street 0 [false; true]) = (Ok false, on_street 90 [])
      /\ flip_view (on_street 0 [false; false]) = (Ok false, on_street 0 [])).
Proof.
  assert (Hp : has_page (in_view 0 true)) by (exists handle; reflexivity).
  assert (Hq : forall l, has_page (on_street 0 l)) by (intro l; exists handle; reflexivity).
  destruct (flip_view_heading Checks.sim_heading (in_view 0 true) Hp) as (H & _).
  assert (Hf : flip_view (in_view 0 true) = (Ok true, snd (flip_view (in_view 0 true))))
    by (vm_compute; reflexivity).
  destruct (flip_view_heading panorama_heading (on_street 0 [true; false]) (Hq _))
    as (_ & Hlate).
  destruct (Hlate panorama_click_raises) as (Hlate' & _).
  destruct (flip_view_heading panorama_heading (on_street 0 [false; true]) (Hq _))
    as (_ & Hearly).
  destruct (Hearly panorama_click_raises) as (_ & Hearly' & _).
  destruct (flip_view_heading panorama_heading (on_street 0 [false; false]) (Hq _))
    as (_ & Hboth).
  destruct (Hboth panorama_click_raises) as (_ & _ & Hboth').
  split; [|split].
  - split; [exact Hp|]. split; [reflexivity|].
    rewrite (proj1 (H _ Hf)). reflexivity.
  - split; [exact (Hq _)|].
    destruct (Hlate' (on_street 90 [false]) (on_street 90 []) eq_refl eq_refl) as [H1 H2].
    split; [exact H1|]. rewrite H2. reflexivity.
  - split.
    + exact (proj1 (Hearly' (on_street 0 [true]) (on_street 90 []) eq_refl eq_refl)).
    + exact (proj1 (Hboth' (on_street 0 [false]) (on_street 0 []) eq_refl eq_refl)).
Defined.

(** X16 in the simulated street view, facing 90 degrees: a left turn and
    a right turn end facing 90. *)
Lemma rotations_compose_witness :
  heading_of Checks.sim_heading
    (snd (street_view_turn_right (snd (street_view_turn_left (in_view 90 true))))) = 90%Z.
Proof.
  destruct (rotations_compose Checks.sim_heading (in_view 90 true)) as (H & _).
  assert (H1 : street_view_turn_left (in_view 90 true)
               = (Ok true, snd (street_view_turn_left (in_view 90 true))))
    by (vm_compute; reflexivity).
  assert (H2 : street_view_turn_right (snd (street_view_turn_left (in_view 90 true)))
               = (Ok true, snd (street_view_turn_right
                                  (snd (street_view_turn_left (in_view 90 true))))))
    by (vm_compute; reflexivity).
  rewrite (H _ _ H1 H2). reflexivity.
Defined.

(** X17 on a page of three elements: the indices 3 and -4 click nothing,
    the index -1 clicks the last element. *)
Lemma click_id_index_bounds_witness :
  click_id (AInt 3) (on_map three_pins) = (Ok false, on_map three_pins)
  /\ click_id (AInt (-4)) (on_map three_pins) = (Ok false, on_map three_pins)
  /\ click_id (AInt (-1)) (on_map three_pins) = click_id (AInt 2) (on_map three_pins)
  /\ clicked (world (snd (click_id (AInt (-1)) (on_map three_pins)))) = [2].
Proof.
  assert (Hp : has_page (on_map three_pins)) by (exists handle; reflexivity).
  assert (Hq : query_selector_all "*" (world (on_map three_pins))
               = (Ok (elements three_pins), three_pins)) by (vm_compute; reflexivity).
  destruct (click_id_index_bounds 3 (on_map three_pins) (elements three_pins) three_pins
              Hp Hq) as (H1 & _ & _).
  destruct (click_id_index_bounds (-4) (on_map three_pins) (elements three_pins) three_pins
              Hp Hq) as (_ & H2 & _).
  destruct (click_id_index_bounds (-1) (on_map three_pins) (elements three_pins) three_pins
              Hp Hq) as (_ & _ & H3).
  split; [exact (H1 ltac:(vm_compute; discriminate))|].
  split; [exact (H2 ltac:(vm_compute; reflexivity))|].
  split; [exact (H3 ltac:(vm_compute; split; [discriminate|reflexivity]))|].
  vm_compute. reflexivity.
Defined.

(** X18 on a page with two visible markers: the indices 2 and -1 click
    nothing. *)
Lemma click_marker_index_bounds_witness :
  click_marker 2 (on_map three_pins) = (Ok false, on_map three_pins)
  /\ click_marker (-1) (on_map three_pins) = (Ok false, on_map three_pins).
Proof.
  assert (Hp : has_page (on_map three_pins)) by (exists handle; reflexivity).
  assert (Hq : query_selector_all ".hfpxzc" (world (on_map three_pins))
               = (Ok (markers three_pins), three_pins)) by (vm_compute; reflexivity).
  assert (Hf : filter_visible (markers three_pins)
                 (mkState (agent (on_map three_pins)) three_pins)
               = (Ok [cafe_pin; plain_pin], on_map three_pins)) by (vm_compute; reflexivity).
  split.
  - refine (click_marker_index_bounds 2 (on_map three_pins) (on_map three_pins)
              (markers three_pins) [cafe_pin; plain_pin] three_pins Hp Hq Hf _).
    right. vm_compute. discriminate.
  - refine (click_marker_index_bounds (-1) (on_map three_pins) (on_map three_pins)
              (markers three_pins) [cafe_pin; plain_pin] three_pins Hp Hq Hf _).
    left. reflexivity.
Defined.

(** X19 on a page whose first marker is hidden: the cafe is reported with
    the index 1 and is the marker 0 of [click_marker]; the index 1 clicks
    the marker after it. *)
Lemma reported_marker_index_witness :
  visible_markers_info 0 (markers three_pins) (on_map three_pins)
  = (Ok [mkMarker 1 "Cafe" cafe_pin; mkMarker 2 "Marker 2" plain_pin], on_map three_pins)
  /\ filter_visible (markers three_pins) (on_map three_pins)
     = (Ok [cafe_pin; plain_pin], on_map three_pins)
  /\ clicked (world (snd (click_marker 1 (on_map three_pins)))) = [item_id plain_pin]
  /\ clicked (world (snd (click_marker 0 (on_map three_pins)))) = [item_id cafe_pin].
Proof.
  assert (Hs : steady item_visible item_label (markers three_pins) three_pins)
    by (intros m _; split; reflexivity).
  destruct (reported_marker_index_counts_hidden_markers item_visible item_label
              (markers three_pins) (agent (on_map three_pins)) three_pins Hs)
    as (infos & Hrun & Hfil & _).
  assert (E : visible_markers_info 0 (markers three_pins) (on_map three_pins)
              = (Ok [mkMarker 1 "Cafe" cafe_pin; mkMarker 2 "Marker 2" plain_pin],
                 on_map three_pins)) by (vm_compute; reflexivity).
  change (mkState (agent (on_map three_pins)) three_pins) with (on_map three_pins) in *.
  rewrite Hrun in E. injection E as ->.
  split; [exact Hrun|]. split; [exact Hfil|]. split; vm_compute; reflexivity.
Defined.

(** X20 on a page that refuses to close: [close] returns and nothing has
    been closed. *)
Lemma close_stops_witness :
  close (on_map stuck_page) = (Ok tt, on_map stuck_page)
  /\ released (world (snd (close (on_map stuck_page)))) = [].
Proof.
  assert (H1 : page_is_closed (world (on_map stuck_page)) = (Ok false, stuck_page))
    by reflexivity.
  assert (H2 : page_close stuck_page
               = (Raise "Page.close: Target page, context or browser has been closed",
                  stuck_page)) by reflexivity.
  pose proof (close_stops_at_the_first_failure (on_map stuck_page) handle _
                stuck_page stuck_page eq_refl H1 H2) as H.
  split; [exact H|]. rewrite H. reflexivity.
Defined.

(** X21 on a session that stops at its first step: the answer of the
    final synthesis is what the tool returns; the browser is closed, and the
    page handle of the agent is still set. *)
Lemma answer_is_returned_after_close_witness :
  fst (run_google_maps_task_api task url (fresh [decision "stop"; Ok "Nothing found"]))
  = Ok (JStr "Nothing found")
  /\ page (browser (agent (snd (run_google_maps_task_api task url
                                  (fresh [decision "stop"; Ok "Nothing found"])))))
     = Some handle.
Proof.
  set (w := fresh [decision "stop"; Ok "Nothing found"]).
  assert (Hc : construct (mkState (new_agent false None) w)
               = (Ok tt, mkState (new_agent false None) w)) by reflexivity.
  assert (Hr : run_task task url (mkState (new_agent false None) w)
               = (Ok (JStr "Nothing found"),
                  snd (run_task task url (mkState (new_agent false None) w))))
    by (vm_compute; reflexivity).
  destruct (answer_is_returned_after_close task url w _ _ _ Hc Hr) as (w2 & _ & Hapi).
  rewrite Hapi. split; [reflexivity|]. vm_compute. reflexivity.
Defined.

(** X22 on those histories of a failed step: the model decides the
    same. *)
Lemma oracle_sees_no_failure_detail_witness :
  fst (observe task (with_history [failed_step "try the button" "Failed to enter street view"]
                                  (started [decision "stop"])))
  = fst (observe task (with_history [failed_step "try again" "Timeout 5000ms exceeded"]
                                    (started [decision "stop"]))).
Proof.
  exact (proj1 (oracle_sees_no_failure_detail task
                  [failed_step "try the button" "Failed to enter street view"]
                  [failed_step "try again" "Timeout 5000ms exceeded"]
                  (started [decision "stop"]) eq_refl)).
Defined.

(** X23 on those histories of a step that found dates: the final answer
    is the same, whatever the dates were. *)
Lemma final_answer_sees_no_result_witness :
  fst (_generate_final_answer task
         (with_history [dates_step "['July 2010']"] (started [Ok "No date"])))
  = fst (_generate_final_answer task
           (with_history [dates_step "['May 2015', 'June 2019']"] (started [Ok "No date"]))).
Proof.
  exact (proj1 (final_answer_sees_no_result task
                  [dates_step "['July 2010']"] [dates_step "['May 2015', 'June 2019']"]
                  (started [Ok "No date"]) eq_refl)).
Defined.

End Trials.
